(** * rfid_access_control: the synchronisation layer of the database

    A shallow embedding of the relational schema, the triggers and the
    snippets of the replication guide that make up the multi-node
    synchronisation of the RFID access-control database:

    - [docs/import_database/rfid_config_setup.sql]: tables [users], [logs],
      [sync_metadata], [replication_conflicts], the triggers
      [trg_users_before_update] and [trg_logs_before_update_sync];
    - [docs/import_database/rfid_schema_V1.sql]: the first revision of the
      schema and its trigger [users_version_update];
    - the MariaDB guide: the [auto-increment-increment] and
      [auto-increment-offset] settings of the two Raspberry Pi nodes, the
      Python class [DatabaseSync], the table [sync_queue] and its trigger
      [users_sync_trigger].

    SQL values are modelled as the schema types them: [INT] columns are
    integers checked against the 32-bit signed range when a row is written
    (the server of the guide, MariaDB 10.11, runs in strict mode by default
    and rejects an out-of-range value), nullable columns are options,
    [ENUM]s are inductive types, [TIMESTAMP] and [DATETIME] values are
    integers (seconds), and a statement either yields the next database or
    an SQL error.  The triggers run on UPDATE statements; the action of a
    foreign key (ON DELETE SET NULL) changes rows without running one.

    The dashboard and the user-management modal of the frontend
    ([frontend/components]) and its API module are embedded as functions
    on the component state, with the browser's string functions and
    [fetch] as parameters. *)

From Stdlib Require Import ZArith List Lia Bool.
From stdpp Require Import base decidable option list strings gmap sorting.

Local Open Scope string_scope.
Local Open Scope list_scope.
Local Open Scope Z_scope.

(** ** SQL values and errors *)

(** Seconds since the epoch: the value of a [TIMESTAMP] or [DATETIME]. *)
Definition timestamp : Type := Z.

(** Bounds of a MariaDB [INT] column. *)
Definition INT_MIN : Z := -2147483648.
Definition INT_MAX : Z := 2147483647.

Definition in_INT_range (z : Z) : bool := (INT_MIN <=? z) && (z <=? INT_MAX).

(** The server errors a statement of the sources can end with (the numbers
    are MariaDB's error codes). *)
Inductive sql_error : Type :=
  | ER_BAD_NULL_ERROR           (* 1048: column cannot be null *)
  | ER_BAD_FIELD_ERROR          (* 1054: unknown column *)
  | ER_DUP_ENTRY                (* 1062: duplicate entry for a unique key *)
  | ER_NO_SUCH_TABLE            (* 1146: table does not exist *)
  | ER_SUBQUERY_NO_1_ROW        (* 1242: subquery returns more than 1 row *)
  | ER_WARN_DATA_OUT_OF_RANGE   (* 1264: out of range value for column *)
  | ER_ROW_IS_REFERENCED_2      (* 1451: a child row refers to the row *)
  | ER_NO_REFERENCED_ROW_2.     (* 1452: foreign key constraint fails *)

Inductive sql_result (A : Type) : Type :=
  | Ok (a : A)
  | Err (e : sql_error).
Arguments Ok {A} a.
Arguments Err {A} e.

(** Statements are sequenced in the error monad ([x ← m; k]). *)
#[global] Instance sql_result_ret : MRet sql_result := fun A a => Ok a.
#[global] Instance sql_result_bind : MBind sql_result := fun A B k m =>
  match m with
  | Ok a => k a
  | Err e => Err e
  end.

(** [COALESCE(v, d)] with two arguments. *)
Definition COALESCE {A : Type} (v : option A) (d : A) : A :=
  match v with
  | Some a => a
  | None => d
  end.

(** ** Enumerations of the schema *)

(** [users.user_type], [logs.user_type]. *)
Inductive user_type_enum : Type := Common | VIP | Backstage.

(** [users.status]: ENUM ('IDLE', 'In', 'Out', 'Expired', 'Banned'). *)
Inductive status_enum : Type :=
  | status_IDLE | status_In | status_Out | status_Expired | status_Banned.

(** [last_result], [logs.result]. *)
Inductive result_enum : Type := PASS | FAIL.

(** [logs.event_type]. *)
Inductive event_type_enum : Type := ENTRY | EXIT | DENIED.

(** [sync_metadata.sync_status]. *)
Inductive sync_status_enum : Type := SUCCESS | FAILED | IN_PROGRESS.

(** [replication_conflicts.conflict_type]. *)
Inductive conflict_type_enum : Type := INSERT_DUPLICATE | UPDATE_CONFLICT.

(** [sync_queue.operation]. *)
Inductive operation_enum : Type := INSERT | UPDATE | DELETE.

#[global] Instance user_type_enum_eq_dec : EqDecision user_type_enum.
Proof. solve_decision. Defined.
#[global] Instance status_enum_eq_dec : EqDecision status_enum.
Proof. solve_decision. Defined.
#[global] Instance result_enum_eq_dec : EqDecision result_enum.
Proof. solve_decision. Defined.
#[global] Instance event_type_enum_eq_dec : EqDecision event_type_enum.
Proof. solve_decision. Defined.
#[global] Instance sync_status_enum_eq_dec : EqDecision sync_status_enum.
Proof. solve_decision. Defined.
#[global] Instance operation_enum_eq_dec : EqDecision operation_enum.
Proof. solve_decision. Defined.

(** The text of a status, as [JSON_OBJECT] stores an ENUM value. *)
Definition status_text (s : status_enum) : string :=
  match s with
  | status_IDLE => "IDLE"
  | status_In => "In"
  | status_Out => "Out"
  | status_Expired => "Expired"
  | status_Banned => "Banned"
  end.

Definition status_of_text (s : string) : option status_enum :=
  if decide (s = "IDLE") then Some status_IDLE
  else if decide (s = "In") then Some status_In
  else if decide (s = "Out") then Some status_Out
  else if decide (s = "Expired") then Some status_Expired
  else if decide (s = "Banned") then Some status_Banned
  else None.

(** ** Rows of the tables (rfid_config_setup.sql) *)

Module users.

(** CREATE TABLE `users`.  [version] is declared [INT NOT NULL DEFAULT 1];
    it is an option here because the trigger reads it through COALESCE,
    and the NOT NULL constraint is checked when the row is written. *)
Record row : Type := mk {
  id : Z;
  rfid_tag : string;
  name : option string;
  nic : option string;
  user_type : user_type_enum;
  status : status_enum;
  last_seen_at : option timestamp;
  last_gate_id : option Z;
  last_booth_id : option Z;
  last_result : option result_enum;
  created_at : option timestamp;
  updated_at : option timestamp;
  node_id : option Z;
  version : option Z;
  last_sync_at : option timestamp
}.

Definition set_id (v : Z) (r : row) : row :=
  mk v (rfid_tag r) (name r) (nic r) (user_type r) (status r)
     (last_seen_at r) (last_gate_id r) (last_booth_id r) (last_result r)
     (created_at r) (updated_at r) (node_id r) (version r) (last_sync_at r).

Definition set_rfid_tag (v : string) (r : row) : row :=
  mk (id r) v (name r) (nic r) (user_type r) (status r)
     (last_seen_at r) (last_gate_id r) (last_booth_id r) (last_result r)
     (created_at r) (updated_at r) (node_id r) (version r) (last_sync_at r).

Definition set_name (v : option string) (r : row) : row :=
  mk (id r) (rfid_tag r) v (nic r) (user_type r) (status r)
     (last_seen_at r) (last_gate_id r) (last_booth_id r) (last_result r)
     (created_at r) (updated_at r) (node_id r) (version r) (last_sync_at r).

Definition set_nic (v : option string) (r : row) : row :=
  mk (id r) (rfid_tag r) (name r) v (user_type r) (status r)
     (last_seen_at r) (last_gate_id r) (last_booth_id r) (last_result r)
     (created_at r) (updated_at r) (node_id r) (version r) (last_sync_at r).

Definition set_status (v : status_enum) (r : row) : row :=
  mk (id r) (rfid_tag r) (name r) (nic r) (user_type r) v
     (last_seen_at r) (last_gate_id r) (last_booth_id r) (last_result r)
     (created_at r) (updated_at r) (node_id r) (version r) (last_sync_at r).

Definition set_updated_at (v : option timestamp) (r : row) : row :=
  mk (id r) (rfid_tag r) (name r) (nic r) (user_type r) (status r)
     (last_seen_at r) (last_gate_id r) (last_booth_id r) (last_result r)
     (created_at r) v (node_id r) (version r) (last_sync_at r).

Definition set_version (v : option Z) (r : row) : row :=
  mk (id r) (rfid_tag r) (name r) (nic r) (user_type r) (status r)
     (last_seen_at r) (last_gate_id r) (last_booth_id r) (last_result r)
     (created_at r) (updated_at r) (node_id r) v (last_sync_at r).

Definition set_last_sync_at (v : option timestamp) (r : row) : row :=
  mk (id r) (rfid_tag r) (name r) (nic r) (user_type r) (status r)
     (last_seen_at r) (last_gate_id r) (last_booth_id r) (last_result r)
     (created_at r) (updated_at r) (node_id r) (version r) v.

Definition set_last_booth_id (v : option Z) (r : row) : row :=
  mk (id r) (rfid_tag r) (name r) (nic r) (user_type r) (status r)
     (last_seen_at r) (last_gate_id r) v (last_result r)
     (created_at r) (updated_at r) (node_id r) (version r) (last_sync_at r).

(** Two rows agree on every column that [trg_users_before_update] does
    not assign. *)
Definition same_data (a b : row) : Prop :=
  id a = id b /\ rfid_tag a = rfid_tag b /\ name a = name b /\
  nic a = nic b /\ user_type a = user_type b /\ status a = status b /\
  last_seen_at a = last_seen_at b /\ last_gate_id a = last_gate_id b /\
  last_booth_id a = last_booth_id b /\ last_result a = last_result b /\
  created_at a = created_at b /\ node_id a = node_id b.

End users.

Module logs.

(** CREATE TABLE `logs`. *)
Record row : Type := mk {
  id : Z;
  user_id : option Z;
  user_type : user_type_enum;
  event_type : event_type_enum;
  gate_id : Z;
  booth_id : Z;
  timestamp : Z;
  result : result_enum;
  message : option string;
  node_id : Z;
  synced : bool;
  sync_timestamp : option Z
}.

Definition set_user_id (v : option Z) (r : row) : row :=
  mk (id r) v (user_type r) (event_type r) (gate_id r) (booth_id r)
     (timestamp r) (result r) (message r) (node_id r) (synced r)
     (sync_timestamp r).

Definition set_id (v : Z) (r : row) : row :=
  mk v (user_id r) (user_type r) (event_type r) (gate_id r) (booth_id r)
     (timestamp r) (result r) (message r) (node_id r) (synced r)
     (sync_timestamp r).

Definition set_message (v : option string) (r : row) : row :=
  mk (id r) (user_id r) (user_type r) (event_type r) (gate_id r) (booth_id r)
     (timestamp r) (result r) v (node_id r) (synced r) (sync_timestamp r).

Definition set_synced (v : bool) (r : row) : row :=
  mk (id r) (user_id r) (user_type r) (event_type r) (gate_id r) (booth_id r)
     (timestamp r) (result r) (message r) (node_id r) v (sync_timestamp r).

Definition set_sync_timestamp (v : option Z) (r : row) : row :=
  mk (id r) (user_id r) (user_type r) (event_type r) (gate_id r) (booth_id r)
     (timestamp r) (result r) (message r) (node_id r) (synced r) v.

(** Two log rows agree on every column but the two sync columns. *)
Definition same_event (a b : row) : Prop :=
  id a = id b /\ user_id a = user_id b /\ user_type a = user_type b /\
  event_type a = event_type b /\ gate_id a = gate_id b /\
  booth_id a = booth_id b /\ timestamp a = timestamp b /\
  result a = result b /\ message a = message b /\ node_id a = node_id b.

(** The same, leaving the user reference out as well. *)
Definition same_event_but_user (a b : row) : Prop :=
  id a = id b /\ user_type a = user_type b /\
  event_type a = event_type b /\ gate_id a = gate_id b /\
  booth_id a = booth_id b /\ timestamp a = timestamp b /\
  result a = result b /\ message a = message b /\ node_id a = node_id b.

End logs.

(** ** Triggers *)

(** rfid_config_setup.sql, BEFORE UPDATE ON users FOR EACH ROW:
<<
  SET NEW.version      = COALESCE(OLD.version, 0) + 1;
  SET NEW.last_sync_at = CURRENT_TIMESTAMP;
  SET NEW.updated_at   = CURRENT_TIMESTAMP;
>> *)
Definition trg_users_before_update
    (OLD NEW : users.row) (CURRENT_TIMESTAMP : timestamp) : users.row :=
  let NEW := users.set_version (Some (COALESCE (users.version OLD) 0 + 1)) NEW in
  let NEW := users.set_last_sync_at (Some CURRENT_TIMESTAMP) NEW in
  let NEW := users.set_updated_at (Some CURRENT_TIMESTAMP) NEW in
  NEW.

(** SQL addition: NULL if an operand is NULL. *)
Definition sql_plus (a b : option Z) : option Z :=
  match a, b with
  | Some x, Some y => Some (x + y)
  | _, _ => None
  end.

(** rfid_schema_V1.sql, BEFORE UPDATE ON users FOR EACH ROW:
<<
  SET NEW.version = OLD.version + 1;
  SET NEW.last_sync_at = CURRENT_TIMESTAMP;
>>
    The first revision of the [users] table differs from the later one in
    columns this trigger does not touch, so it is stated on the same rows. *)
Definition users_version_update
    (OLD NEW : users.row) (CURRENT_TIMESTAMP : timestamp) : users.row :=
  let NEW := users.set_version (sql_plus (users.version OLD) (Some 1)) NEW in
  let NEW := users.set_last_sync_at (Some CURRENT_TIMESTAMP) NEW in
  NEW.

(** rfid_config_setup.sql, BEFORE UPDATE ON logs FOR EACH ROW:
<<
  IF NEW.sync_timestamp IS NOT NULL
     AND (OLD.sync_timestamp IS NULL OR OLD.sync_timestamp <> NEW.sync_timestamp)
  THEN
    SET NEW.synced = TRUE;
  END IF;
>> *)
Definition trg_logs_before_update_sync (OLD NEW : logs.row) : logs.row :=
  match logs.sync_timestamp NEW with
  | Some new_ts =>
      match logs.sync_timestamp OLD with
      | None => logs.set_synced true NEW
      | Some old_ts =>
          if bool_decide (old_ts <> new_ts) then logs.set_synced true NEW
          else NEW
      end
  | None => NEW
  end.

(** ** The change queue, the sync metadata and the conflict table *)

(** A JSON scalar, as [JSON_OBJECT] builds them from column values. *)
Inductive json_value : Type :=
  | JSON_NULL
  | JSON_NUMBER (z : Z)
  | JSON_STRING (s : string).

#[global] Instance json_value_eq_dec : EqDecision json_value.
Proof. solve_decision. Defined.

Definition json_of_text (v : option string) : json_value :=
  match v with
  | Some s => JSON_STRING s
  | None => JSON_NULL
  end.

(** [JSON_OBJECT(k1, v1, k2, v2, ...)]: a flat object. *)
Definition JSON_OBJECT (members : list (string * json_value))
  : gmap string json_value :=
  list_to_map members.

Module sync_queue.

(** CREATE TABLE sync_queue (replication guide, option 3). *)
Record row : Type := mk {
  id : Z;
  table_name : string;
  record_id : Z;
  operation : operation_enum;
  data : option (gmap string json_value);
  created_at : option timestamp;
  synced : option bool
}.

End sync_queue.

Module sync_metadata.

(** CREATE TABLE `sync_metadata`, with UNIQUE (node_id, table_name). *)
Record row : Type := mk {
  id : Z;
  node_id : Z;
  table_name : string;
  last_sync_timestamp : timestamp;
  sync_status : sync_status_enum;
  error_message : option string
}.

Definition set_last_sync_timestamp (v : timestamp) (r : row) : row :=
  mk (id r) (node_id r) (table_name r) v (sync_status r) (error_message r).

Definition set_node_id (v : Z) (r : row) : row :=
  mk (id r) v (table_name r) (last_sync_timestamp r) (sync_status r)
     (error_message r).

End sync_metadata.

Module replication_conflicts.

(** CREATE TABLE `replication_conflicts`. *)
Record row : Type := mk {
  id : Z;
  table_name : string;
  record_id : Z;
  conflict_type : conflict_type_enum;
  node_id : Z;
  conflict_data : option (gmap string json_value);
  resolved : option bool;
  created_at : option timestamp
}.

End replication_conflicts.

(** ** Server settings and AUTO_INCREMENT *)

(** The [mysqld] section of 50-server.cnf, as far as key generation goes. *)
Record server_cnf : Type := mk_cnf {
  server_id : Z;
  auto_increment_increment : Z;
  auto_increment_offset : Z
}.

(** RPi 1 (192.168.10.1) and RPi 2 (192.168.10.2) of the guide. *)
Definition rpi1_cnf : server_cnf :=
  {| server_id := 1; auto_increment_increment := 2; auto_increment_offset := 1 |}.
Definition rpi2_cnf : server_cnf :=
  {| server_id := 2; auto_increment_increment := 2; auto_increment_offset := 2 |}.

(** The same settings for node [i] of [N]: the increment is the number of
    nodes, the offset the node's ordinal. *)
Definition node_cnf (N i : Z) : server_cnf :=
  {| server_id := i; auto_increment_increment := N; auto_increment_offset := i |}.

(** The key the server generates after [nr], the largest key the table has
    seen: the next element above [nr] of the series
    offset, offset + increment, offset + 2 * increment, ...
    This is MariaDB's rule for auto_increment_increment and
    auto_increment_offset when the offset lies within 1..increment, as in
    the settings of the guide; it yields the series of the guide's
    "Expected Results", 1, 3, 5, ... on RPi 1 and 2, 4, 6, ... on RPi 2. *)
Definition compute_next_insert_id (nr : Z) (c : server_cnf) : Z :=
  (nr + auto_increment_increment c - auto_increment_offset c)
    / auto_increment_increment c * auto_increment_increment c
  + auto_increment_offset c.

(** Generating a key for an [INT] column fails once the series leaves the
    column's range. *)
Definition generate_id (AUTO_INCREMENT : Z) (c : server_cnf) : sql_result Z :=
  let k := compute_next_insert_id (AUTO_INCREMENT - 1) c in
  if in_INT_range k then Ok k else Err ER_WARN_DATA_OUT_OF_RANGE.

(** ** The database of a node *)

Module db.

(** The tables are lists of rows in insertion order; each
    [_AUTO_INCREMENT] is the table's counter, one above the largest key
    the table has seen. *)
Record t : Type := mk {
  cnf : server_cnf;
  users : list users.row;
  users_AUTO_INCREMENT : Z;
  logs : list logs.row;
  logs_AUTO_INCREMENT : Z;
  sync_queue : list sync_queue.row;
  sync_queue_AUTO_INCREMENT : Z;
  sync_metadata : list sync_metadata.row
}.

Definition set_users (v : list users.row) (ai : Z) (d : t) : t :=
  mk (cnf d) v ai (logs d) (logs_AUTO_INCREMENT d)
     (sync_queue d) (sync_queue_AUTO_INCREMENT d) (sync_metadata d).

Definition set_logs (v : list logs.row) (ai : Z) (d : t) : t :=
  mk (cnf d) (users d) (users_AUTO_INCREMENT d) v ai
     (sync_queue d) (sync_queue_AUTO_INCREMENT d) (sync_metadata d).

Definition set_sync_queue (v : list sync_queue.row) (ai : Z) (d : t) : t :=
  mk (cnf d) (users d) (users_AUTO_INCREMENT d) (logs d)
     (logs_AUTO_INCREMENT d) v ai (sync_metadata d).

Definition set_sync_metadata (v : list sync_metadata.row) (d : t) : t :=
  mk (cnf d) (users d) (users_AUTO_INCREMENT d) (logs d)
     (logs_AUTO_INCREMENT d) (sync_queue d) (sync_queue_AUTO_INCREMENT d) v.

(** A freshly created database on a server configured with [c]. *)
Definition empty (c : server_cnf) : t := mk c [] 1 [] 1 [] 1 [].

End db.

(** ** Statements *)

Section Rows.
Context {R : Type} (key : R -> Z).

(** [SELECT * FROM t WHERE id = k] on a primary key. *)
Definition find_row (k : Z) (t : list R) : option R :=
  List.find (fun r => bool_decide (key r = k)) t.

(** The rows of [t] with the row of key [k] replaced by [NEW]. *)
Definition replace_row (k : Z) (NEW : R) (t : list R) : list R :=
  map (fun r => if bool_decide (key r = k) then NEW else r) t.

(** [DELETE FROM t WHERE id = k]. *)
Definition delete_row (k : Z) (t : list R) : list R :=
  List.filter (fun r => negb (bool_decide (key r = k))) t.

(** The rows of [t] other than the row of key [k]. *)
Definition other_rows (k : Z) (t : list R) : list R := delete_row k t.
End Rows.

(** The constraints of [users] checked when [NEW] is written next to the
    rows [others]: [version INT NOT NULL], the range of the INT columns
    [id] and [version], the primary key and [rfid_tag UNIQUE].  (The
    foreign keys of [users] into [gates], [booths] and [nodes] refer to
    tables outside this model.) *)
Definition check_users_row (NEW : users.row) (others : list users.row)
  : sql_result unit :=
  match users.version NEW with
  | None => Err ER_BAD_NULL_ERROR
  | Some v =>
      if negb (in_INT_range v) then Err ER_WARN_DATA_OUT_OF_RANGE
      else if negb (in_INT_range (users.id NEW)) then Err ER_WARN_DATA_OUT_OF_RANGE
      else if existsb (fun r => bool_decide (users.id r = users.id NEW)) others
      then Err ER_DUP_ENTRY
      else if existsb (fun r => bool_decide (users.rfid_tag r = users.rfid_tag NEW)) others
      then Err ER_DUP_ENTRY
      else Ok tt
  end.

(** Replication guide, option 3, AFTER UPDATE ON users FOR EACH ROW:
<<
  INSERT INTO sync_queue (table_name, record_id, operation, data)
  VALUES ('users', NEW.id, 'UPDATE', JSON_OBJECT(
      'id', NEW.id, 'name', NEW.name,
      'rfid_tag', NEW.rfid_tag, 'status', NEW.status));
>>
    The queue's [id] is generated, [created_at] defaults to
    CURRENT_TIMESTAMP and [synced] to FALSE. *)
Definition users_sync_trigger_data (NEW : users.row) : gmap string json_value :=
  JSON_OBJECT [ ("id", JSON_NUMBER (users.id NEW));
                ("name", json_of_text (users.name NEW));
                ("rfid_tag", JSON_STRING (users.rfid_tag NEW));
                ("status", JSON_STRING (status_text (users.status NEW))) ].

Definition users_sync_trigger
    (NEW : users.row) (CURRENT_TIMESTAMP : timestamp) (d : db.t)
  : sql_result db.t :=
  k ← generate_id (db.sync_queue_AUTO_INCREMENT d) (db.cnf d);
  let entry :=
    sync_queue.mk k "users" (users.id NEW) UPDATE
      (Some (users_sync_trigger_data NEW))
      (Some CURRENT_TIMESTAMP) (Some false) in
  Ok (db.set_sync_queue (db.sync_queue d ++ [entry]) (k + 1) d).

(** [INSERT INTO users (rfid_tag, name, nic, user_type) VALUES (...)], the
    form of the statement in rfid_config_setup.sql: the key is generated,
    the other columns take their defaults ([status] 'IDLE', [version] 1,
    the three timestamps CURRENT_TIMESTAMP).  No trigger is defined for
    INSERT.  Returns the generated key with the next database. *)
Definition insert_users
    (rfid_tag : string) (name nic : option string) (user_type : user_type_enum)
    (CURRENT_TIMESTAMP : timestamp) (d : db.t) : sql_result (Z * db.t) :=
  k ← generate_id (db.users_AUTO_INCREMENT d) (db.cnf d);
  let NEW :=
    users.mk k rfid_tag name nic user_type status_IDLE None None None None
      (Some CURRENT_TIMESTAMP) (Some CURRENT_TIMESTAMP) None (Some 1)
      (Some CURRENT_TIMESTAMP) in
  _ ← check_users_row NEW (db.users d);
  Ok (k, db.set_users (db.users d ++ [NEW]) (k + 1) d).

(** An INSERT that gives every column, the key included (a row copied from
    another node).  The table's counter moves above the key. *)
Definition insert_users_row (NEW : users.row) (d : db.t) : sql_result db.t :=
  _ ← check_users_row NEW (db.users d);
  Ok (db.set_users (db.users d ++ [NEW])
        (Z.max (db.users_AUTO_INCREMENT d) (users.id NEW + 1)) d).

(** [UPDATE users SET ... WHERE id = k].  [SET] computes the assigned row
    from the stored one; no statement of the sources assigns the primary
    key, so the key is kept.  The BEFORE UPDATE trigger runs on the
    assigned row, the constraints are checked, the row is written and the
    AFTER UPDATE trigger runs; an error at any step leaves no effect. *)
Definition update_users
    (k : Z) (SET : users.row -> users.row) (CURRENT_TIMESTAMP : timestamp)
    (d : db.t) : sql_result db.t :=
  match find_row users.id k (db.users d) with
  | None => Ok d
  | Some OLD =>
      let NEW :=
        trg_users_before_update OLD (users.set_id k (SET OLD))
          CURRENT_TIMESTAMP in
      _ ← check_users_row NEW (other_rows users.id k (db.users d));
      users_sync_trigger NEW CURRENT_TIMESTAMP
        (db.set_users (replace_row users.id k NEW (db.users d))
           (db.users_AUTO_INCREMENT d) d)
  end.

(** The foreign key [fk_logs_user]: logs.user_id REFERENCES users(id)
    ON DELETE SET NULL.  The action of the constraint on one log row when
    user [k] is deleted (a cascaded action fires no trigger). *)
Definition fk_logs_user_on_delete (k : Z) (l : logs.row) : logs.row :=
  if bool_decide (logs.user_id l = Some k) then logs.set_user_id None l else l.

(** [DELETE FROM users WHERE id = k].  No trigger is defined for DELETE. *)
Definition delete_users (k : Z) (d : db.t) : sql_result db.t :=
  Ok (db.set_logs (map (fk_logs_user_on_delete k) (db.logs d))
        (db.logs_AUTO_INCREMENT d)
        (db.set_users (delete_row users.id k (db.users d))
           (db.users_AUTO_INCREMENT d) d)).

(** The foreign key [fk_users_last_booth]: users.last_booth_id REFERENCES
    booths(id) ON DELETE SET NULL.  The action of the constraint on one
    users row when booth [b] is deleted.  A cascaded action fires no
    trigger, so [trg_users_before_update] does not run on the row.
    ([fk_users_last_gate] and [fk_users_node] are declared the same way.) *)
Definition fk_users_last_booth_on_delete (b : Z) (r : users.row) : users.row :=
  if bool_decide (users.last_booth_id r = Some b)
  then users.set_last_booth_id None r else r.

(** [DELETE FROM booths WHERE id = b], as far as the tables of this model
    go ([booths] itself is outside it).  [fk_logs_booth] is ON DELETE
    RESTRICT: the statement is rejected while a log row names the booth.
    Otherwise [fk_users_last_booth] clears the reference of the users that
    name it. *)
Definition delete_booths (b : Z) (d : db.t) : sql_result db.t :=
  if existsb (fun l => bool_decide (logs.booth_id l = b)) (db.logs d)
  then Err ER_ROW_IS_REFERENCED_2
  else Ok (db.set_users (map (fk_users_last_booth_on_delete b) (db.users d))
             (db.users_AUTO_INCREMENT d) d).

(** The check of [fk_logs_user] when a log row is written. *)
Definition check_fk_logs_user (user_id : option Z) (d : db.t) : sql_result unit :=
  match user_id with
  | None => Ok tt
  | Some u =>
      match find_row users.id u (db.users d) with
      | Some _ => Ok tt
      | None => Err ER_NO_REFERENCED_ROW_2
      end
  end.

(** [INSERT INTO logs (...) VALUES (...)] with a generated key: [NEW]
    holds the values of the other columns. *)
Definition insert_logs (NEW : logs.row) (d : db.t) : sql_result (Z * db.t) :=
  k ← generate_id (db.logs_AUTO_INCREMENT d) (db.cnf d);
  _ ← check_fk_logs_user (logs.user_id NEW) d;
  Ok (k, db.set_logs (db.logs d ++ [logs.set_id k NEW]) (k + 1) d).

(** [UPDATE logs SET ... WHERE id = k], through the BEFORE UPDATE trigger;
    the foreign key is checked when the statement changes [user_id]. *)
Definition update_logs
    (k : Z) (SET : logs.row -> logs.row) (d : db.t) : sql_result db.t :=
  match find_row logs.id k (db.logs d) with
  | None => Ok d
  | Some OLD =>
      let NEW := trg_logs_before_update_sync OLD (logs.set_id k (SET OLD)) in
      _ ← (if bool_decide (logs.user_id NEW = logs.user_id OLD) then Ok tt
           else check_fk_logs_user (logs.user_id NEW) d);
      Ok (db.set_logs (replace_row logs.id k NEW (db.logs d))
            (db.logs_AUTO_INCREMENT d) d)
  end.

(** ** Runs of statements *)

(** Statements on [users] and [logs]. *)
Inductive statement : Type :=
  | INSERT_users (rfid_tag : string) (name nic : option string)
      (user_type : user_type_enum) (CURRENT_TIMESTAMP : timestamp)
  | INSERT_users_row (NEW : users.row)
  | UPDATE_users (k : Z) (SET : users.row -> users.row)
      (CURRENT_TIMESTAMP : timestamp)
  | DELETE_users (k : Z)
  | INSERT_logs (NEW : logs.row)
  | UPDATE_logs (k : Z) (SET : logs.row -> logs.row).

Definition execute (s : statement) (d : db.t) : sql_result db.t :=
  match s with
  | INSERT_users tag name nic ut now =>
      match insert_users tag name nic ut now d with
      | Ok (_, d') => Ok d'
      | Err e => Err e
      end
  | INSERT_users_row NEW => insert_users_row NEW d
  | UPDATE_users k SET now => update_users k SET now d
  | DELETE_users k => delete_users k d
  | INSERT_logs NEW =>
      match insert_logs NEW d with
      | Ok (_, d') => Ok d'
      | Err e => Err e
      end
  | UPDATE_logs k SET => update_logs k SET d
  end.

(** A statement that fails has no effect on the database. *)
Definition step (d : db.t) (s : statement) : db.t :=
  match execute s d with
  | Ok d' => d'
  | Err _ => d
  end.

Definition run (ss : list statement) (d : db.t) : db.t := fold_left step ss d.

(** The keys the server generates while it executes a statement on [d],
    each with the name of its table: the key of an INSERT into [users] or
    [logs] that leaves the key to the server, and the keys of the
    change-queue entries that the trigger of an UPDATE of [users] appends.
    A row copied from another node arrives with its key. *)
Definition generated_keys_of (s : statement) (d : db.t) : list (string * Z) :=
  match s with
  | INSERT_users tag name nic ut now =>
      match insert_users tag name nic ut now d with
      | Ok (k, _) => [("users", k)]
      | Err _ => []
      end
  | INSERT_logs NEW =>
      match insert_logs NEW d with
      | Ok (k, _) => [("logs", k)]
      | Err _ => []
      end
  | UPDATE_users _ _ _ =>
      map (fun e => ("sync_queue", sync_queue.id e))
        (drop (length (db.sync_queue d)) (db.sync_queue (step d s)))
  | _ => []
  end.

(** The keys a node generates itself in a run. *)
Fixpoint generated_keys (ss : list statement) (d : db.t) : list (string * Z) :=
  match ss with
  | [] => []
  | s :: ss' => generated_keys_of s d ++ generated_keys ss' (step d s)
  end.

(** An UPDATE statement on a user: its SET clause and the time at which
    the server executes it. *)
Record users_update : Type := mk_update {
  update_SET : users.row -> users.row;
  update_time : timestamp
}.

(** [UPDATE users SET ... WHERE id = k], whichever client issues it. *)
Definition apply_update (k : Z) (u : users_update) (d : db.t) : sql_result db.t :=
  update_users k (update_SET u) (update_time u) d.

Fixpoint apply_updates (k : Z) (us : list users_update) (d : db.t)
  : sql_result db.t :=
  match us with
  | [] => Ok d
  | u :: us' => d' ← apply_update k u d; apply_updates k us' d'
  end.

(** A SET clause of [UPDATE logs] that assigns only [synced] and
    [sync_timestamp]. *)
Definition stamps_only (SET : logs.row -> logs.row) : Prop :=
  forall r, logs.same_event (SET r) r.

Definition is_stamp (s : statement) : Prop :=
  match s with
  | UPDATE_logs _ SET => stamps_only SET
  | _ => True
  end.

(** What a log row can become: the same event with the same user
    reference, or with the reference set to NULL. *)
Definition log_row_kept (l' l : logs.row) : Prop :=
  logs.same_event_but_user l' l /\
  (logs.user_id l' = logs.user_id l \/ logs.user_id l' = None).

(** ** Replaying a change-queue entry *)

(** Modelled from the spec: the assignments an entry's snapshot stands for
    when the entry is replayed (the replaying service is not among the
    sources): the columns [users_sync_trigger] put into [data], read back
    as the SET clause [name = ..., rfid_tag = ..., status = ...]. *)
Definition SET_of_snapshot (data : gmap string json_value) (r : users.row)
  : users.row :=
  let r :=
    match data !! "name" with
    | Some (JSON_STRING s) => users.set_name (Some s) r
    | Some JSON_NULL => users.set_name None r
    | _ => r
    end in
  let r :=
    match data !! "rfid_tag" with
    | Some (JSON_STRING s) => users.set_rfid_tag s r
    | _ => r
    end in
  let r :=
    match data !! "status" with
    | Some (JSON_STRING s) =>
        match status_of_text s with
        | Some st => users.set_status st r
        | None => r
        end
    | _ => r
    end in
  r.




(** ** Conflict resolution *)

Module conflict.

(** One side of a conflict: the value a node wrote to a user record, the
    time of the write and the ordinal of the writing node. *)
Record write : Type := mk {
  value : users.row;
  write_timestamp : timestamp;
  node_ordinal : Z
}.

(** Modelled from the spec: the resolution policy of the conflict
    resolver.  The sources hold the table [replication_conflicts] but no
    resolution logic.  The policy is last-writer-wins by timestamp, a tie
    of timestamps being broken by node ordinal, the lower ordinal
    winning. *)
Definition resolve (local remote : write) : write :=
  if write_timestamp remote <? write_timestamp local then local
  else if write_timestamp local <? write_timestamp remote then remote
  else if node_ordinal local <=? node_ordinal remote then local
  else remote.

End conflict.

(** ** The Python class DatabaseSync (replication guide, option 2) *)

(** The two table names [sync_data] passes to [sync_table]. *)
Inductive synced_table : Type := tbl_users | tbl_logs.

Definition table_name_of (t : synced_table) : string :=
  match t with
  | tbl_users => "users"
  | tbl_logs => "logs"
  end.

(** SQL [a > b]: not true when an operand is NULL. *)
Definition sql_gt (a b : option Z) : bool :=
  match a, b with
  | Some x, Some y => y <? x
  | _, _ => false
  end.

(** The scalar subquery
<<
  SELECT last_sync_timestamp FROM sync_metadata WHERE table_name = %s
>>
    NULL for no row, an error for more than one. *)
Definition last_sync_position (table_name : string) (d : db.t)
  : sql_result (option timestamp) :=
  match List.filter
          (fun r => bool_decide (sync_metadata.table_name r = table_name))
          (db.sync_metadata d) with
  | [] => Ok None
  | [r] => Ok (Some (sync_metadata.last_sync_timestamp r))
  | _ :: _ :: _ => Err ER_SUBQUERY_NO_1_ROW
  end.

(** "Get data that needs syncing":
<<
  SELECT * FROM {table_name}
  WHERE last_sync_at > (SELECT last_sync_timestamp FROM sync_metadata
                        WHERE table_name = %s)
>>
    [logs] has no column [last_sync_at] (its sync columns are [synced] and
    [sync_timestamp]), so the statement is rejected for it. *)
Definition select_needs_syncing (t : synced_table) (d : db.t)
  : sql_result (list users.row) :=
  match t with
  | tbl_users =>
      pos ← last_sync_position (table_name_of t) d;
      Ok (List.filter (fun r => sql_gt (users.last_sync_at r) pos) (db.users d))
  | tbl_logs => Err ER_BAD_FIELD_ERROR
  end.

(** "Update sync timestamp":
<<
  UPDATE sync_metadata SET last_sync_timestamp = NOW() WHERE table_name = %s
>> *)
Definition update_sync_timestamp (table_name : string) (NOW : timestamp)
    (d : db.t) : db.t :=
  db.set_sync_metadata
    (map (fun r =>
            if bool_decide (sync_metadata.table_name r = table_name)
            then sync_metadata.set_last_sync_timestamp NOW r
            else r)
         (db.sync_metadata d))
    d.

Module DatabaseSync.

(** What a call can raise: a server error, or whatever [send_to_node]
    raises (its message). *)
Inductive exception : Type :=
  | mysql_connector_Error (e : sql_error)
  | send_Error (msg : string).

(** [self]: the local connection and the remote nodes. *)
Record t : Type := mk {
  local_db : db.t;
  remote_nodes : list Z
}.

(** One delivery: the node, the table name and the rows passed to
    [send_to_node]. *)
Definition delivery : Type := Z * string * list users.row.

(** The result of a call: the committed database, the deliveries made,
    and the exception the call ended with, if any. *)
Record outcome : Type := mk_outcome {
  committed : db.t;
  sent : list delivery;
  raised : option exception
}.

Section Transport.
(** [send_to_node] is not defined in the guide; it is a parameter: it
    returns [None] when the delivery went through and the message of
    the exception it raises otherwise. *)
Variable send_to_node : Z -> string -> list users.row -> option string.

(** for node in self.remote_nodes: self.send_to_node(node, ...) *)
Fixpoint send_to_nodes (nodes : list Z) (table_name : string)
    (local_data : list users.row) : list delivery * option exception :=
  match nodes with
  | [] => ([], None)
  | node :: nodes' =>
      match send_to_node node table_name local_data with
      | Some msg => ([], Some (send_Error msg))
      | None =>
          let '(ds, exn) := send_to_nodes nodes' table_name local_data in
          ((node, table_name, local_data) :: ds, exn)
      end
  end.

(** def sync_table(self, table_name): select, send to every node,
    update the sync timestamp, commit.  An exception leaves the method
    before the UPDATE and the commit. *)
Definition sync_table (self : t) (table : synced_table) (NOW : timestamp)
  : outcome :=
  match select_needs_syncing table (local_db self) with
  | Err e => mk_outcome (local_db self) [] (Some (mysql_connector_Error e))
  | Ok local_data =>
      match send_to_nodes (remote_nodes self) (table_name_of table)
              local_data with
      | (ds, Some exn) => mk_outcome (local_db self) ds (Some exn)
      | (ds, None) =>
          mk_outcome
            (update_sync_timestamp (table_name_of table) NOW (local_db self))
            ds None
      end
  end.

(** def sync_data(self): sync_table('users'), then sync_table('logs'). *)
Definition sync_data (self : t) (NOW : timestamp) : outcome :=
  let o1 := sync_table self tbl_users NOW in
  match raised o1 with
  | Some _ => o1
  | None =>
      let o2 := sync_table (mk (committed o1) (remote_nodes self)) tbl_logs NOW in
      mk_outcome (committed o2) (sent o1 ++ sent o2) (raised o2)
  end.
End Transport.

(** The rows a call handed to [send_to_node] for [node]. *)
Definition sent_to (node : Z) (o : outcome) : list (list users.row) :=
  map snd (List.filter (fun x => bool_decide (x.1.1 = node)) (sent o)).

End DatabaseSync.

(** The selection as the specification words it: the position is the one
    recorded for the pair (peer, table), and the rows selected for a peer
    are those newer than that position. *)
Definition position_of_peer_and_table (peer : Z) (table_name : string)
    (d : db.t) : option timestamp :=
  sync_metadata.last_sync_timestamp <$>
    List.find (fun r => bool_decide (sync_metadata.node_id r = peer) &&
                        bool_decide (sync_metadata.table_name r = table_name))
      (db.sync_metadata d).

Definition selection_for_peer (peer : Z) (table_name : string) (d : db.t)
  : list users.row :=
  List.filter
    (fun r => sql_gt (users.last_sync_at r)
                (position_of_peer_and_table peer table_name d))
    (db.users d).

(** The database with the node ids of its sync metadata renamed by [f]. *)
Definition rename_metadata_nodes (f : Z -> Z) (d : db.t) : db.t :=
  db.set_sync_metadata
    (map (fun r => sync_metadata.set_node_id (f (sync_metadata.node_id r)) r)
       (db.sync_metadata d))
    d.

(** The status and the error message of every sync-metadata row. *)
Definition sync_statuses (d : db.t)
  : list (sync_status_enum * option string) :=
  map (fun r => (sync_metadata.sync_status r, sync_metadata.error_message r))
    (db.sync_metadata d).

(** ** The view sync_status_view (rfid_config_setup.sql) *)

Module sync_status_view.

(** The columns of the view. *)
Record row : Type := mk {
  node_id : Z;
  table_name : string;
  last_sync_timestamp : timestamp;
  sync_status : sync_status_enum;
  error_message : option string;
  minutes_since_sync : Z
}.

End sync_status_view.

(** [TIMESTAMPDIFF(MINUTE, t1, t2)]: the whole minutes from [t1] to [t2],
    the fraction dropped (also for a negative difference). *)
Definition TIMESTAMPDIFF_MINUTE (t1 t2 : timestamp) : Z := Z.quot (t2 - t1) 60.

(** The select list of the view for one row of sync_metadata. *)
Definition sync_status_view_row (NOW : timestamp) (sm : sync_metadata.row)
  : sync_status_view.row :=
  sync_status_view.mk (sync_metadata.node_id sm) (sync_metadata.table_name sm)
    (sync_metadata.last_sync_timestamp sm) (sync_metadata.sync_status sm)
    (sync_metadata.error_message sm)
    (TIMESTAMPDIFF_MINUTE (sync_metadata.last_sync_timestamp sm) NOW).

Section View.
(** The order of VARCHAR values under the collation of the table is a
    parameter. *)
Variable collation_le : string -> string -> bool.

(** [ORDER BY sm.node_id, sm.table_name]. *)
Definition order_by_node_table (a b : sync_metadata.row) : Prop :=
  sync_metadata.node_id a < sync_metadata.node_id b \/
  (sync_metadata.node_id a = sync_metadata.node_id b /\
   collation_le (sync_metadata.table_name a) (sync_metadata.table_name b) = true).

#[global] Instance order_by_node_table_dec a b :
  Decision (order_by_node_table a b).
Proof. unfold order_by_node_table. apply _. Defined.

(** CREATE OR REPLACE VIEW sync_status_view AS SELECT ... FROM
    sync_metadata sm ORDER BY sm.node_id, sm.table_name. *)
Definition sync_status_view (NOW : timestamp) (d : db.t)
  : list sync_status_view.row :=
  map (sync_status_view_row NOW)
    (merge_sort order_by_node_table (db.sync_metadata d)).
End View.

(** ** The API module of the frontend (lib/api) *)

(** A JavaScript string is truthy when it is not empty. *)
Definition truthy (s : string) : bool := negb (bool_decide (s = "")).

Module api.

(** getApiUrl: `${API_CONFIG.BASE_URL}${endpoint}`. *)
Definition getApiUrl (BASE_URL endpoint : string) : string :=
  BASE_URL +:+ endpoint.

Section Urls.
(** [encodeURIComponent] is a parameter, and so is the BASE_URL that the
    later revision reads from the environment. *)
Variable encodeURIComponent : string -> string.
Variable BASE_URL : string.

(** apiUrls.users of the revision with ENDPOINTS.USERS_SEARCH:
<<
  const base = getApiUrl(API_CONFIG.ENDPOINTS.USERS_SEARCH)
  return search ? `${base}?query=${encodeURIComponent(search)}` : base
>>
    [None] is a call without argument. *)
Definition users (search : option string) : string :=
  let base := getApiUrl BASE_URL "/users/search" in
  match search with
  | Some s =>
      if truthy s then base +:+ "?query=" +:+ encodeURIComponent s else base
  | None => base
  end.
End Urls.

(** The revision with BASE_URL "http://localhost:5000/api" and
    ENDPOINTS.USERS "/user":
<<
  const url = getApiUrl(API_CONFIG.ENDPOINTS.USERS);
  return search ? `${url}?search=${encodeURIComponent(search)}` : url;
>> *)
Definition users_localhost (encodeURIComponent : string -> string)
    (search : option string) : string :=
  let url := getApiUrl "http://localhost:5000/api" "/user" in
  match search with
  | Some s =>
      if truthy s then url +:+ "?search=" +:+ encodeURIComponent s else url
  | None => url
  end.

End api.

(** ** The user-management modal (components/user-management-modal.tsx) *)

Module user_management.

(** interface UserUpdateRequest: every field is optional. *)
Record UserUpdateRequest : Type := mk_request {
  nic : option string;
  rfidTag : option string;
  status : option string;
  isActive : option bool
}.

(** The three forms of the modal. *)
Record statusForm : Type := mk_statusForm {
  status_identifier : string;
  status_identifierType : string;
  status_status : string
}.

Record activeForm : Type := mk_activeForm {
  active_identifier : string;
  active_identifierType : string;
  active_isActive : string
}.

Record rfidForm : Type := mk_rfidForm {
  rfid_identifier : string;
  rfid_identifierType : string;
  rfid_newRfidTag : string
}.

(** What a submit handler does: it sets an error, or it calls
    [updateUser] with a request. *)
Inductive submitted : Type :=
  | setError (message : string)
  | updateUser (data : UserUpdateRequest).

(** handleStatusUpdate. *)
Definition handleStatusUpdate (f : statusForm) : submitted :=
  if negb (truthy (status_identifier f)) || negb (truthy (status_status f))
  then setError "Please fill in all fields"
  else
    let updateData := mk_request None None (Some (status_status f)) None in
    if bool_decide (status_identifierType f = "nic")
    then updateUser (mk_request (Some (status_identifier f)) (rfidTag updateData)
                       (status updateData) (isActive updateData))
    else updateUser (mk_request (nic updateData) (Some (status_identifier f))
                       (status updateData) (isActive updateData)).

(** handleActiveUpdate. *)
Definition handleActiveUpdate (f : activeForm) : submitted :=
  if negb (truthy (active_identifier f)) || negb (truthy (active_isActive f))
  then setError "Please fill in all fields"
  else
    let updateData :=
      mk_request None None None
        (Some (bool_decide (active_isActive f = "true"))) in
    if bool_decide (active_identifierType f = "nic")
    then updateUser (mk_request (Some (active_identifier f)) (rfidTag updateData)
                       (status updateData) (isActive updateData))
    else updateUser (mk_request (nic updateData) (Some (active_identifier f))
                       (status updateData) (isActive updateData)).

(** handleRfidUpdate: [updateData] starts as { rfidTag: newRfidTag }, then
    the identifier is assigned to [nic] or to [rfidTag]. *)
Definition handleRfidUpdate (f : rfidForm) : submitted :=
  if negb (truthy (rfid_identifier f)) || negb (truthy (rfid_newRfidTag f))
  then setError "Please fill in all fields"
  else
    let updateData := mk_request None (Some (rfid_newRfidTag f)) None None in
    if bool_decide (rfid_identifierType f = "nic")
    then updateUser (mk_request (Some (rfid_identifier f)) (rfidTag updateData)
                       (status updateData) (isActive updateData))
    else updateUser (mk_request (nic updateData) (Some (rfid_identifier f))
                       (status updateData) (isActive updateData)).

(** A user as the search endpoint returns it, as far as [searchUser]
    reads it. *)
Record user : Type := mk_user {
  user_nic : option string;
  user_rfidTag : option string
}.

(** The entry of [searchResults] for one form. *)
Record search_result : Type := mk_search_result {
  found : option user;
  loading : bool;
  error : string
}.

(** What [fetch] and [response.json()] yield: an exception, or a response
    with its [ok] flag and the body's [success] and [data]. *)
Inductive fetched : Type :=
  | throws
  | responds (ok : bool) (success : bool) (data : list user).

Section Search.
(** [String.prototype.trim], [apiUrls.users] and [fetch] are parameters. *)
Variable trim : string -> string.
Variable apiUrls_users : option string -> string.
Variable fetch : string -> fetched.

(** result.data.find(user => user.nic === identifier ||
    user.rfidTag === identifier) *)
Definition exactMatch (identifier : string) (data : list user) : option user :=
  List.find (fun u => bool_decide (user_nic u = Some identifier) ||
                      bool_decide (user_rfidTag u = Some identifier)) data.

(** searchUser: the URL it requests, if any, and the entry of
    [searchResults] it ends with.  [token] is
    localStorage.getItem("adminToken"). *)
Definition searchUser (token : option string) (identifier : string)
  : option string * search_result :=
  if negb (truthy (trim identifier))
  then (None, mk_search_result None false "")
  else
    match token with
    | None => (None, mk_search_result None false "Search failed")
    | Some t =>
        if negb (truthy t)
        then (None, mk_search_result None false "Search failed")
        else
          let url := apiUrls_users (Some identifier) in
          match fetch url with
          | throws => (Some url, mk_search_result None false "Search failed")
          | responds ok success data =>
              if ok && success && (0 <? Z.of_nat (length data))
              then
                let foundUser :=
                  match exactMatch identifier data with
                  | Some u => Some u
                  | None => head data
                  end in
                (Some url, mk_search_result foundUser false "")
              else (Some url, mk_search_result None false "User not found")
          end
    end.
End Search.

End user_management.

(** ** The dashboard (log table, filters and pagination) *)

Module dashboard.

(** interface User and interface Log, as the values arrive in the JSON of
    the response: [user] is an option (the export reads it as
    [log.user?.]), and so are the text fields that the search reads, which
    are strings or null ([name] and [nic] are nullable columns, and the
    export reads [rfidTag] with [??]). *)
Record User : Type := mk_User {
  User_id : Z;
  name : option string;
  nic : option string;
  rfidTag : option string;
  status : string;
  isActive : bool
}.

Record Log : Type := mk_Log {
  id : Z;
  userId : Z;
  eventType : string;
  gateLocation : option string;
  deviceId : string;
  timestamp : string;
  result : string;
  message : string;
  user : option User
}.

Section Filters.
(** [String.prototype.toLowerCase] and [String.prototype.includes] are
    parameters ([includes s t] is [s.includes(t)]). *)
Variable toLowerCase : string -> string.
Variable includes : string -> string -> bool.

(** The chain
<<
  a.toLowerCase().includes(searchTerm.toLowerCase()) || b.toLowerCase()... || ...
>>
    over the operands [a], [b], ... from the left: it stops with true at
    the first operand that includes the term, and throws ([None], the
    TypeError of calling a method of null) at the first null it reaches. *)
Fixpoint some_includes (searchTerm : string) (fields : list (option string))
  : option bool :=
  match fields with
  | [] => Some false
  | None :: _ => None
  | Some s :: fields' =>
      if includes (toLowerCase s) (toLowerCase searchTerm) then Some true
      else some_includes searchTerm fields'
  end.

(** matchesSearch of the filter callback:
<<
  searchTerm === "" ||
  log.user.name.toLowerCase().includes(searchTerm.toLowerCase()) ||
  log.user.nic.toLowerCase().includes(searchTerm.toLowerCase()) ||
  log.user.rfidTag.toLowerCase().includes(searchTerm.toLowerCase()) ||
  log.gateLocation.toLowerCase().includes(searchTerm.toLowerCase())
>>
    [None] is a TypeError: [log.user] is undefined, or a field that the
    chain reaches is null. *)
Definition matchesSearch (searchTerm : string) (log : Log) : option bool :=
  if bool_decide (searchTerm = "") then Some true
  else
    match user log with
    | None => None
    | Some u =>
        some_includes searchTerm
          [name u; nic u; rfidTag u; gateLocation log]
    end.

Definition matchesEvent (eventFilter : string) (log : Log) : bool :=
  bool_decide (eventFilter = "") || bool_decide (eventType log = eventFilter).

Definition matchesResult (resultFilter : string) (log : Log) : bool :=
  bool_decide (resultFilter = "") || bool_decide (result log = resultFilter).

(** Array.prototype.filter with a callback that can throw. *)
Fixpoint filter_logs (keep : Log -> option bool) (logs : list Log)
  : option (list Log) :=
  match logs with
  | [] => Some []
  | log :: logs' =>
      match keep log with
      | None => None
      | Some b =>
          match filter_logs keep logs' with
          | None => None
          | Some rest => Some (if b then log :: rest else rest)
          end
      end
  end.

(** filteredLogs: logsData?.logs.filter(...) || [].  [logsData] is [None]
    while the data is not loaded. *)
Definition filteredLogs (searchTerm eventFilter resultFilter : string)
    (logsData : option (list Log)) : option (list Log) :=
  match logsData with
  | None => Some []
  | Some logs =>
      filter_logs
        (fun log =>
           match matchesSearch searchTerm log with
           | None => None
           | Some s =>
               Some (s && matchesEvent eventFilter log &&
                     matchesResult resultFilter log)
           end)
        logs
  end.

(** In handleExportToExcel:
<<
  const hasFilters = searchTerm !== "" || eventFilter !== "" || resultFilter !== ""
  const dataToExport = hasFilters ? filteredLogs : logsData.logs
>> *)
Definition hasFilters (searchTerm eventFilter resultFilter : string) : bool :=
  negb (bool_decide (searchTerm = "")) || negb (bool_decide (eventFilter = ""))
  || negb (bool_decide (resultFilter = "")).

Definition dataToExport (searchTerm eventFilter resultFilter : string)
    (logs : list Log) : option (list Log) :=
  if hasFilters searchTerm eventFilter resultFilter
  then filteredLogs searchTerm eventFilter resultFilter (Some logs)
  else Some logs.
End Filters.

(** Math.ceil(totalItems / itemsPerPage), for a positive [itemsPerPage]:
    the state starts at 10 and the select offers 10, 25, 50 and 100. *)
Definition totalPages (totalItems itemsPerPage : Z) : Z :=
  - ((- totalItems) / itemsPerPage).

(** Array.prototype.slice(start, end): a negative index counts from the
    end, and both are clamped to the array. *)
Definition slice {A : Type} (l : list A) (start end_ : Z) : list A :=
  let len := Z.of_nat (length l) in
  let k := if start <? 0 then Z.max (len + start) 0 else Z.min start len in
  let final := if end_ <? 0 then Z.max (len + end_) 0 else Z.min end_ len in
  take (Z.to_nat (final - k)) (drop (Z.to_nat k) l).

(** startIndex, endIndex and currentPageData. *)
Definition startIndex (currentPage itemsPerPage : Z) : Z :=
  (currentPage - 1) * itemsPerPage.

Definition endIndex (currentPage itemsPerPage : Z) : Z :=
  startIndex currentPage itemsPerPage + itemsPerPage.

Definition currentPageData {A : Type} (filteredLogs : list A)
    (currentPage itemsPerPage : Z) : list A :=
  slice filteredLogs (startIndex currentPage itemsPerPage)
    (endIndex currentPage itemsPerPage).

(** handlePageChange, handlePreviousPage and handleNextPage: the new
    value of [currentPage]. *)
Definition handlePageChange (page : Z) : Z := page.

Definition handlePreviousPage (currentPage : Z) : Z :=
  if 1 <? currentPage then currentPage - 1 else currentPage.

Definition handleNextPage (currentPage totalPages : Z) : Z :=
  if currentPage <? totalPages then currentPage + 1 else currentPage.

(** An entry of the page bar: a page number or "...". *)
Inductive page_item : Type :=
  | page_number (n : Z)
  | ellipsis.

(** for (let i = a; i <= b; i++) pages.push(i) *)
Definition push_range (a b : Z) : list page_item :=
  map page_number (seqZ a (b - a + 1)).

(** getPageNumbers. *)
Definition getPageNumbers (currentPage totalPages : Z) : list page_item :=
  let maxVisiblePages := 5 in
  if totalPages <=? maxVisiblePages then push_range 1 totalPages
  else if currentPage <=? 3
  then push_range 1 4 ++ [ellipsis; page_number totalPages]
  else if totalPages - 2 <=? currentPage
  then [page_number 1; ellipsis] ++ push_range (totalPages - 3) totalPages
  else [page_number 1; ellipsis]
       ++ push_range (currentPage - 1) (currentPage + 1)
       ++ [ellipsis; page_number totalPages].

(** The page numbers of a page bar, in order. *)
Definition numbers_of (items : list page_item) : list Z :=
  omap (fun it => match it with page_number n => Some n | ellipsis => None end)
    items.

(** A click on the page bar: Previous, Next, or the [i]-th entry when it
    is a number (an ellipsis is not a button). *)
Inductive click : Type :=
  | click_Previous
  | click_Next
  | click_entry (i : nat).

Definition on_click (totalPages currentPage : Z) (c : click) : Z :=
  match c with
  | click_Previous => handlePreviousPage currentPage
  | click_Next => handleNextPage currentPage totalPages
  | click_entry i =>
      match getPageNumbers currentPage totalPages !! i with
      | Some (page_number n) => handlePageChange n
      | _ => currentPage
      end
  end.

End dashboard.

(** ** Constraints of the schema, as predicates on a database *)

(** [users]: PRIMARY KEY (id), rfid_tag UNIQUE, version INT NOT NULL, and
    the INT range of id and version. *)
Definition users_constraints (d : db.t) : Prop :=
  NoDup (map users.id (db.users d)) /\
  NoDup (map users.rfid_tag (db.users d)) /\
  Forall (fun r => exists v, users.version r = Some v /\
                             in_INT_range v = true /\
                             in_INT_range (users.id r) = true)
    (db.users d).


(** The AUTO_INCREMENT counter of [users] is above every stored key. *)
Definition users_keys_below_counter (d : db.t) : Prop :=
  Forall (fun r => users.id r < db.users_AUTO_INCREMENT d) (db.users d).

(** Unfolds the sequencing of statements. *)
Ltac sql_unfold := unfold mbind, sql_result_bind, mret, sql_result_ret in *.

(** ** Sample data *)

Module sample.

(** The first test user of rfid_config_setup.sql, as stored on RPi 1. *)
Definition kasun : users.row :=
  users.mk 1 "0438864388" (Some "Kasun Perera") (Some "900000000V") Common
    status_IDLE None None None None (Some 100) (Some 100) (Some 1)
    (Some 1) (Some 100).

Definition nimali : users.row :=
  users.mk 3 "2886066914" (Some "Nimali Silva") (Some "910000000V") Common
    status_IDLE None None None None (Some 100) (Some 100) (Some 1)
    (Some 1) (Some 150).

(** An entry of Kasun at the ENTRY gate. *)
Definition entry_log : logs.row :=
  logs.mk 1 (Some 1) Common ENTRY 1 1 120 PASS (Some "welcome") 1 false None.

Definition users_meta : sync_metadata.row :=
  sync_metadata.mk 1 1 "users" 120 SUCCESS None.

Definition logs_meta : sync_metadata.row :=
  sync_metadata.mk 3 1 "logs" 120 SUCCESS None.

(** The database of RPi 1 with the two users, one log row and the sync
    metadata of the node. *)
Definition rpi1 : db.t :=
  db.mk rpi1_cnf [kasun; nimali] 4 [entry_log] 2 [] 1 [users_meta; logs_meta].

(** [UPDATE users SET status = 'In', version = 40 WHERE id = 1] at time
    200 on [rpi1]. *)
Definition SET_In_v40 (r : users.row) : users.row :=
  users.set_version (Some 40) (users.set_status status_In r).

Definition rpi1_after_update : db.t :=
  match update_users 1 SET_In_v40 200 rpi1 with
  | Ok d => d
  | Err _ => rpi1
  end.

(** [UPDATE logs SET sync_timestamp = 300, synced = FALSE WHERE id = 1]. *)
Definition SET_stamp_300 (r : logs.row) : logs.row :=
  logs.set_synced false (logs.set_sync_timestamp (Some 300) r).

Definition rpi1_after_stamp : db.t :=
  match update_logs 1 SET_stamp_300 rpi1 with
  | Ok d => d
  | Err _ => rpi1
  end.

(** An UPDATE at time 200 followed by another at time 300. *)
Definition two_updates : list users_update :=
  [ mk_update SET_In_v40 200;
    mk_update (users.set_status status_Out) 300 ].

(** [UPDATE users SET last_booth_id = 4 WHERE id = 1] at time 200 on
    [rpi1], and then [DELETE FROM booths WHERE id = 4]. *)
Definition rpi1_kasun_at_booth_4 : db.t :=
  match update_users 1 (users.set_last_booth_id (Some 4)) 200 rpi1 with
  | Ok d => d
  | Err _ => rpi1
  end.

Definition rpi1_after_delete_booth_4 : db.t :=
  match delete_booths 4 rpi1_kasun_at_booth_4 with
  | Ok d => d
  | Err _ => rpi1_kasun_at_booth_4
  end.

Definition rpi1_after_two_updates : db.t :=
  match apply_updates 1 two_updates rpi1 with
  | Ok d => d
  | Err _ => rpi1
  end.

(** Statements run on RPi 1: two new users, in between the row that RPi 2
    generated with key 4, copied over, then a log row and an update. *)
Definition rpi1_run : list statement :=
  [ INSERT_users "RFID_TEST_001" (Some "Alice Test") (Some "111111111V") Common 500;
    INSERT_users_row
      (users.mk 4 "RFID_TEST_002" (Some "Bob Test") (Some "222222222V") Common
         status_IDLE None None None None (Some 510) (Some 510) (Some 2)
         (Some 1) (Some 510));
    INSERT_users "RFID_OFFLINE_001" (Some "Offline Test") (Some "333333333V")
      Common 520;
    INSERT_logs (logs.mk 0 (Some 1) Common EXIT 2 4 530 PASS None 1 false None);
    UPDATE_users 1 (users.set_status status_Out) 530 ].

(** Statements run on RPi 2, starting from an empty database. *)
Definition rpi2_run : list statement :=
  [ INSERT_users "RFID_TEST_002" (Some "Bob Test") (Some "222222222V") Common 505;
    INSERT_users "RFID_TEST_003" None None VIP 506;
    INSERT_logs (logs.mk 0 (Some 2) Common ENTRY 1 1 507 PASS None 2 false None);
    UPDATE_users 2 (users.set_status status_In) 507 ].



(** RPi 1 after a new user was inserted, after Nimali was deleted, and
    after a log row was inserted. *)
Definition rpi1_after_insert : db.t :=
  match insert_users "RFID_TEST_001" (Some "Alice Test") None Common 500 rpi1 with
  | Ok (_, d) => d
  | Err _ => rpi1
  end.

Definition rpi1_after_delete : db.t :=
  match delete_users 3 rpi1 with
  | Ok d => d
  | Err _ => rpi1
  end.

Definition exit_log : logs.row :=
  logs.mk 0 (Some 1) Common EXIT 2 4 530 PASS None 1 false None.

Definition rpi1_after_insert_log : db.t :=
  match insert_logs exit_log rpi1 with
  | Ok (_, d) => d
  | Err _ => rpi1
  end.

(** RPi 1 after [UPDATE users SET nic = '900000001V' WHERE id = 1] and
    after [UPDATE users SET nic = NULL WHERE id = 1], both at time 200. *)
Definition rpi1_after_nic_1 : db.t :=
  match update_users 1 (users.set_nic (Some "900000001V")) 200 rpi1 with
  | Ok d => d
  | Err _ => rpi1
  end.

Definition rpi1_after_nic_2 : db.t :=
  match update_users 1 (users.set_nic None) 200 rpi1 with
  | Ok d => d
  | Err _ => rpi1
  end.

(** RPi 1 after [DELETE FROM users WHERE id = 1], and after
    [UPDATE logs SET message = 'edited' WHERE id = 1]. *)
Definition rpi1_after_delete_kasun : db.t :=
  match delete_users 1 rpi1 with
  | Ok d => d
  | Err _ => rpi1
  end.

Definition rpi1_after_edit : db.t :=
  match update_logs 1 (logs.set_message (Some "edited")) rpi1 with
  | Ok d => d
  | Err _ => rpi1
  end.

(** A run on RPi 1: Kasun enters again, his entry of before is stamped as
    synced, he is updated and then deleted. *)
Definition rpi1_day : list statement :=
  [ INSERT_logs exit_log;
    UPDATE_logs 1 SET_stamp_300;
    UPDATE_users 1 SET_In_v40 310;
    DELETE_users 1 ].

(** A transport that delivers, and one on which the peer is unreachable. *)
Definition send_delivers (node : Z) (table_name : string)
    (local_data : list users.row) : option string := None.

Definition send_times_out (node : Z) (table_name : string)
    (local_data : list users.row) : option string := Some "timed out".

(** RPi 1 holding a sync position for each of the peers 1 and 2. *)
Definition peer2_users_meta : sync_metadata.row :=
  sync_metadata.mk 5 2 "users" 160 SUCCESS None.

Definition rpi1_two_peers : db.t :=
  db.set_sync_metadata [users_meta; peer2_users_meta; logs_meta] rpi1.

(** Kasun updated on node 1 (status 'In') and on node 2 (status 'Out') at
    the same second, before any sync. *)
Definition write_on_node1 : conflict.write :=
  conflict.mk (users.set_status status_In kasun) 200 1.

Definition write_on_node2 : conflict.write :=
  conflict.mk (users.set_status status_Out kasun) 200 2.

(** A transport on which node 3 is unreachable. *)
Definition send_fails_at_3 (node : Z) (table_name : string)
    (local_data : list users.row) : option string :=
  if bool_decide (node = 3) then Some "connection refused" else None.

(** The user inserted into [rpi1] (key 5), after the two updates. *)
Definition alice_after_two_updates : db.t :=
  match apply_updates 5 two_updates rpi1_after_insert with
  | Ok d => d
  | Err _ => rpi1_after_insert
  end.

End sample.

(** * Properties *)

(** ** Rows of a table *)


Section RowsFacts.
Context {R : Type} (key : R -> Z).

Lemma find_row_key k t r : find_row key k t = Some r -> key r = k.
Proof.
  unfold find_row. intros H. apply find_some in H as [_ H].
  by apply bool_decide_eq_true in H.
Qed.

Lemma find_row_In k t r : find_row key k t = Some r -> In r t.
Proof. unfold find_row. intros H. by apply find_some in H as [H _]. Qed.

Lemma find_row_replace_eq k NEW t OLD :
  key NEW = k ->
  find_row key k t = Some OLD ->
  find_row key k (replace_row key k NEW t) = Some NEW.
Proof.
  intros HNEW. unfold find_row, replace_row.
  induction t as [|r t IH]; simpl; [done|].
  destruct (bool_decide (key r = k)) eqn:E; simpl.
  - intros _. by rewrite bool_decide_eq_true_2.
  - rewrite E. exact IH.
Qed.

Lemma find_row_replace_ne k k' NEW t :
  key NEW = k -> k' <> k ->
  find_row key k' (replace_row key k NEW t) = find_row key k' t.
Proof.
  intros HNEW Hne. unfold find_row, replace_row.
  induction t as [|r t IH]; simpl; [done|].
  destruct (bool_decide (key r = k)) eqn:E; simpl.
  - apply bool_decide_eq_true in E.
    rewrite !bool_decide_eq_false_2 by congruence. exact IH.
  - destruct (bool_decide (key r = k')); [done | exact IH].
Qed.

Lemma find_row_replace_None k NEW t :
  find_row key k t = None -> replace_row key k NEW t = t.
Proof.
  unfold find_row, replace_row.
  induction t as [|r t IH]; simpl; [done|].
  destruct (bool_decide (key r = k)); [done|].
  intros H. by rewrite IH.
Qed.

Lemma find_row_app k t u :
  find_row key k (t ++ u) =
  match find_row key k t with
  | Some r => Some r
  | None => find_row key k u
  end.
Proof.
  unfold find_row. induction t as [|r t IH]; simpl; [done|].
  by destruct (bool_decide (key r = k)).
Qed.

Lemma find_row_delete_eq k t : find_row key k (delete_row key k t) = None.
Proof.
  unfold find_row, delete_row.
  induction t as [|r t IH]; simpl; [done|].
  destruct (bool_decide (key r = k)) eqn:E; simpl; [done|].
  by rewrite E.
Qed.


Lemma find_row_map (f : R -> R) k t :
  (forall r, key (f r) = key r) ->
  find_row key k (map f t) = f <$> find_row key k t.
Proof.
  intros Hf. unfold find_row. induction t as [|r t IH]; simpl; [done|].
  rewrite Hf. by destruct (bool_decide (key r = k)).
Qed.
End RowsFacts.

(** ** The triggers, row by row *)

Lemma trg_users_before_update_version OLD NEW now :
  users.version (trg_users_before_update OLD NEW now)
  = Some (COALESCE (users.version OLD) 0 + 1).
Proof. reflexivity. Qed.

Lemma trg_users_before_update_stamps OLD NEW now :
  users.last_sync_at (trg_users_before_update OLD NEW now) = Some now /\
  users.updated_at (trg_users_before_update OLD NEW now) = Some now.
Proof. split; reflexivity. Qed.

Lemma trg_users_before_update_same_data OLD NEW now :
  users.same_data (trg_users_before_update OLD NEW now) NEW.
Proof. repeat split. Qed.

Lemma trg_users_before_update_id OLD NEW now :
  users.id (trg_users_before_update OLD NEW now) = users.id NEW.
Proof. reflexivity. Qed.

Lemma users_version_update_version OLD NEW now v :
  users.version OLD = Some v ->
  users.version (users_version_update OLD NEW now) = Some (v + 1) /\
  users.last_sync_at (users_version_update OLD NEW now) = Some now.
Proof. intros H. unfold users_version_update. simpl. by rewrite H. Qed.

Lemma trg_logs_before_update_sync_same_event OLD NEW :
  logs.same_event (trg_logs_before_update_sync OLD NEW) NEW /\
  logs.sync_timestamp (trg_logs_before_update_sync OLD NEW)
  = logs.sync_timestamp NEW.
Proof.
  unfold trg_logs_before_update_sync.
  destruct (logs.sync_timestamp NEW) as [n|] eqn:EN;
    [destruct (logs.sync_timestamp OLD) as [o|];
     [destruct (bool_decide (o <> n))|]|];
    repeat split; simpl; congruence.
Qed.

Lemma trg_logs_before_update_sync_id OLD NEW :
  logs.id (trg_logs_before_update_sync OLD NEW) = logs.id NEW.
Proof. by destruct (trg_logs_before_update_sync_same_event OLD NEW) as [[? _] _]. Qed.

Lemma trg_logs_before_update_sync_stamped OLD NEW ts :
  logs.sync_timestamp NEW = Some ts ->
  logs.sync_timestamp OLD <> Some ts ->
  logs.synced (trg_logs_before_update_sync OLD NEW) = true.
Proof.
  intros HN HO. unfold trg_logs_before_update_sync. rewrite HN.
  destruct (logs.sync_timestamp OLD) as [o|]; [|done].
  rewrite bool_decide_eq_true_2; [done | congruence].
Qed.

Lemma trg_logs_before_update_sync_kept OLD NEW :
  logs.sync_timestamp NEW = None \/
  logs.sync_timestamp NEW = logs.sync_timestamp OLD ->
  trg_logs_before_update_sync OLD NEW = NEW.
Proof.
  intros H. unfold trg_logs_before_update_sync.
  destruct (logs.sync_timestamp NEW) as [n|] eqn:EN; [|done].
  destruct H as [H|H]; [done|]. rewrite <- H.
  rewrite bool_decide_eq_false_2; [done | tauto].
Qed.

(** ** Statements: what a successful statement leaves behind *)

Lemma generate_id_Ok ai c k :
  generate_id ai c = Ok k ->
  k = compute_next_insert_id (ai - 1) c /\ in_INT_range k = true.
Proof.
  unfold generate_id. destruct (in_INT_range _) eqn:E; [|done].
  intros [= <-]. done.
Qed.

Lemma users_sync_trigger_Ok NEW now d d' :
  users_sync_trigger NEW now d = Ok d' ->
  exists k,
    generate_id (db.sync_queue_AUTO_INCREMENT d) (db.cnf d) = Ok k /\
    d' = db.set_sync_queue
           (db.sync_queue d ++
              [sync_queue.mk k "users" (users.id NEW) UPDATE
                 (Some (users_sync_trigger_data NEW)) (Some now) (Some false)])
           (k + 1) d.
Proof.
  unfold users_sync_trigger. sql_unfold.
  destruct (generate_id _ _) as [k|]; [|done].
  intros [= <-]. by exists k.
Qed.

Lemma update_users_Ok k SET now d d' OLD :
  find_row users.id k (db.users d) = Some OLD ->
  update_users k SET now d = Ok d' ->
  let NEW := trg_users_before_update OLD (users.set_id k (SET OLD)) now in
  check_users_row NEW (other_rows users.id k (db.users d)) = Ok tt /\
  users_sync_trigger NEW now
    (db.set_users (replace_row users.id k NEW (db.users d))
       (db.users_AUTO_INCREMENT d) d) = Ok d'.
Proof.
  intros Hfind. unfold update_users. rewrite Hfind. sql_unfold.
  destruct (check_users_row _ _) as [[]|]; [|done]. done.
Qed.

Lemma update_users_absent k SET now d :
  find_row users.id k (db.users d) = None ->
  update_users k SET now d = Ok d.
Proof. intros H. unfold update_users. by rewrite H. Qed.

(** The row written by a successful UPDATE, and the rest of the database. *)
Lemma update_users_effect k SET now d d' OLD :
  find_row users.id k (db.users d) = Some OLD ->
  update_users k SET now d = Ok d' ->
  let NEW := trg_users_before_update OLD (users.set_id k (SET OLD)) now in
  find_row users.id k (db.users d') = Some NEW /\
  db.users d' = replace_row users.id k NEW (db.users d) /\
  (exists q,
     db.sync_queue d' =
       db.sync_queue d ++
         [sync_queue.mk q "users" k UPDATE
            (Some (users_sync_trigger_data NEW)) (Some now) (Some false)]) /\
  db.logs d' = db.logs d /\
  db.sync_metadata d' = db.sync_metadata d /\
  db.cnf d' = db.cnf d.
Proof.
  intros Hfind Hup. destruct (update_users_Ok _ _ _ _ _ _ Hfind Hup) as [_ Htrg].
  apply users_sync_trigger_Ok in Htrg as (q & _ & ->). simpl.
  split; [|split; [done|split; [by exists q|done]]].
  by apply find_row_replace_eq with (OLD := OLD).
Qed.

Lemma update_users_others k k' SET now d d' :
  k' <> k ->
  update_users k SET now d = Ok d' ->
  find_row users.id k' (db.users d') = find_row users.id k' (db.users d).
Proof.
  intros Hne Hup.
  destruct (find_row users.id k (db.users d)) as [OLD|] eqn:Hfind.
  - destruct (update_users_effect _ _ _ _ _ _ Hfind Hup) as (_ & -> & _).
    by apply find_row_replace_ne.
  - rewrite update_users_absent in Hup by done. by injection Hup as <-.
Qed.

Lemma other_rows_no_key {R : Type} (key : R -> Z) k (t : list R) :
  existsb (fun r => bool_decide (key r = k)) (other_rows key k t) = false.
Proof.
  unfold other_rows, delete_row. induction t as [|r t IH]; simpl; [done|].
  destruct (bool_decide (key r = k)) eqn:E; simpl; [done|]. by rewrite E.
Qed.

(** An UPDATE of an existing user is accepted when the incremented version
    and the key fit an INT, no other user carries the assigned tag, and the
    change queue can number one more entry. *)
Lemma update_users_accepted k SET now d OLD v q :
  find_row users.id k (db.users d) = Some OLD ->
  users.version OLD = Some v ->
  in_INT_range (v + 1) = true ->
  in_INT_range k = true ->
  existsb (fun r => bool_decide (users.rfid_tag r = users.rfid_tag (SET OLD)))
    (other_rows users.id k (db.users d)) = false ->
  generate_id (db.sync_queue_AUTO_INCREMENT d) (db.cnf d) = Ok q ->
  exists d', update_users k SET now d = Ok d'.
Proof.
  intros Hfind Hv Hrange Hk Htag Hq.
  unfold update_users. rewrite Hfind. sql_unfold.
  unfold check_users_row. simpl. rewrite Hv. simpl.
  rewrite Hrange, Hk. simpl.
  rewrite other_rows_no_key, Htag.
  unfold users_sync_trigger. sql_unfold. simpl. rewrite Hq. by eexists.
Qed.

Lemma update_logs_effect k SET d d' OLD :
  find_row logs.id k (db.logs d) = Some OLD ->
  update_logs k SET d = Ok d' ->
  let NEW := trg_logs_before_update_sync OLD (logs.set_id k (SET OLD)) in
  find_row logs.id k (db.logs d') = Some NEW /\
  db.logs d' = replace_row logs.id k NEW (db.logs d) /\
  db.users d' = db.users d /\
  db.sync_queue d' = db.sync_queue d /\
  db.sync_metadata d' = db.sync_metadata d.
Proof.
  intros Hfind. unfold update_logs. rewrite Hfind. sql_unfold.
  match goal with |- context [if ?b then _ else _] => destruct b end;
    [|destruct (check_fk_logs_user _ _) as [[]|]; [|done]];
    intros [= <-]; simpl; (split; [|done]);
    apply find_row_replace_eq with (OLD := OLD); try done;
    by rewrite trg_logs_before_update_sync_id.
Qed.

(** ** The version and the timestamps of an updated user *)



(** ** The synced flag of an updated log row *)

(** C10. After an UPDATE of a logs row whose new sync_timestamp is not NULL
    and differs from the stored one (a stored NULL included), the stored
    row has synced = TRUE whatever synced value the statement supplied;
    when the new sync_timestamp is NULL or equal to the stored one, synced
    is stored as the statement supplied it. *)
Theorem update_logs_synced_flag k SET d d' OLD :
  find_row logs.id k (db.logs d) = Some OLD ->
  update_logs k SET d = Ok d' ->
  exists STORED,
    find_row logs.id k (db.logs d') = Some STORED /\
    (forall ts,
       logs.sync_timestamp (SET OLD) = Some ts ->
       logs.sync_timestamp OLD <> Some ts ->
       logs.synced STORED = true) /\
    (logs.sync_timestamp (SET OLD) = None \/
     logs.sync_timestamp (SET OLD) = logs.sync_timestamp OLD ->
     logs.synced STORED = logs.synced (SET OLD)).
Proof.
  intros Hfind Hup.
  destruct (update_logs_effect _ _ _ _ _ Hfind Hup) as (Hrow & _).
  eexists. split; [exact Hrow|]. split.
  - intros ts HN HO. by apply trg_logs_before_update_sync_stamped with (ts := ts).
  - intros H. by rewrite trg_logs_before_update_sync_kept.
Qed.

Lemma update_logs_synced_flag_witness :
  find_row logs.id 1 (db.logs sample.rpi1) = Some sample.entry_log /\
  update_logs 1 sample.SET_stamp_300 sample.rpi1 = Ok sample.rpi1_after_stamp /\
  logs.synced (sample.SET_stamp_300 sample.entry_log) = false /\
  exists STORED,
    find_row logs.id 1 (db.logs sample.rpi1_after_stamp) = Some STORED /\
    (forall ts,
       logs.sync_timestamp (sample.SET_stamp_300 sample.entry_log) = Some ts ->
       logs.sync_timestamp sample.entry_log <> Some ts ->
       logs.synced STORED = true) /\
    (logs.sync_timestamp (sample.SET_stamp_300 sample.entry_log) = None \/
     logs.sync_timestamp (sample.SET_stamp_300 sample.entry_log)
     = logs.sync_timestamp sample.entry_log ->
     logs.synced STORED = logs.synced (sample.SET_stamp_300 sample.entry_log)).
Proof.
  split; [reflexivity|]. split; [vm_compute; reflexivity|].
  split; [reflexivity|].
  apply (update_logs_synced_flag 1 sample.SET_stamp_300 sample.rpi1
           sample.rpi1_after_stamp sample.entry_log);
    vm_compute; reflexivity.
Defined.

(** ** The version of a user counts its updates *)

Lemma apply_updates_app k us1 us2 d :
  apply_updates k (us1 ++ us2) d =
  d1 ← apply_updates k us1 d; apply_updates k us2 d1.
Proof.
  revert d. induction us1 as [|u us1 IH]; intros d; simpl; [done|].
  sql_unfold. destruct (apply_update k u d); [apply IH | done].
Qed.

Lemma apply_updates_version k us d d' r0 v0 :
  find_row users.id k (db.users d) = Some r0 ->
  users.version r0 = Some v0 ->
  apply_updates k us d = Ok d' ->
  exists r',
    find_row users.id k (db.users d') = Some r' /\
    users.version r' = Some (v0 + Z.of_nat (length us)).
Proof.
  revert d r0 v0. induction us as [|u us IH]; intros d r0 v0 Hfind Hv Hrun.
  - injection Hrun as <-. exists r0. by rewrite Hv, Z.add_0_r.
  - simpl in Hrun. sql_unfold.
    destruct (apply_update k u d) as [d1|] eqn:Hstep; [|done].
    destruct (update_users_effect _ _ _ _ _ _ Hfind Hstep) as (Hrow & _).
    cbv zeta in Hrow.
    destruct (IH d1 _ (v0 + 1) Hrow) as (r' & Hr' & Hver); [|exact Hrun|].
    { simpl. by rewrite Hv. }
    exists r'. split; [exact Hr'|]. rewrite Hver, length_cons. f_equal. lia.
Qed.

(** C3, as the schema has it.  Every UPDATE statement on a user record
    goes through the BEFORE UPDATE trigger.  In any sequence of UPDATE
    statements that the server accepted, each statement stores a version
    one above the version it found and stores its own time in
    last_sync_at; so after the sequence the version is the initial version
    plus the number of statements of the sequence. *)
Theorem version_counts_every_update k us d d' r0 v0 :
  find_row users.id k (db.users d) = Some r0 ->
  users.version r0 = Some v0 ->
  apply_updates k us d = Ok d' ->
  (exists r',
     find_row users.id k (db.users d') = Some r' /\
     users.version r' = Some (v0 + Z.of_nat (length us))) /\
  (forall us1 u us2,
     us = us1 ++ u :: us2 ->
     exists d1 d2 r1 r2 v1,
       apply_updates k us1 d = Ok d1 /\
       apply_update k u d1 = Ok d2 /\
       find_row users.id k (db.users d1) = Some r1 /\
       find_row users.id k (db.users d2) = Some r2 /\
       users.version r1 = Some v1 /\
       users.version r2 = Some (v1 + 1) /\
       v1 < v1 + 1 /\
       users.last_sync_at r2 = Some (update_time u)).
Proof.
  intros Hfind Hv Hrun. split.
  - by apply apply_updates_version with (d := d) (r0 := r0).
  - intros us1 u us2 ->.
    rewrite apply_updates_app in Hrun. sql_unfold.
    destruct (apply_updates k us1 d) as [d1|] eqn:H1; [|done].
    simpl in Hrun. sql_unfold.
    destruct (apply_update k u d1) as [d2|] eqn:H2; [|done].
    destruct (apply_updates_version _ _ _ _ _ _ Hfind Hv H1) as (r1 & Hr1 & Hv1).
    destruct (update_users_effect _ _ _ _ _ _ Hr1 H2) as (Hr2 & _).
    cbv zeta in Hr2.
    eexists d1, d2, r1, _, _.
    do 4 (split; [done|]). split; [exact Hv1|].
    split; [simpl; by rewrite Hv1|]. split; [lia | reflexivity].
Qed.

Lemma version_counts_every_update_witness :
  find_row users.id 1 (db.users sample.rpi1) = Some sample.kasun /\
  users.version sample.kasun = Some 1 /\
  apply_updates 1 sample.two_updates sample.rpi1
    = Ok sample.rpi1_after_two_updates /\
  (exists r',
     find_row users.id 1 (db.users sample.rpi1_after_two_updates) = Some r' /\
     users.version r' = Some (1 + Z.of_nat (length sample.two_updates))) /\
  (forall us1 u us2,
     sample.two_updates = us1 ++ u :: us2 ->
     exists d1 d2 r1 r2 v1,
       apply_updates 1 us1 sample.rpi1 = Ok d1 /\
       apply_update 1 u d1 = Ok d2 /\
       find_row users.id 1 (db.users d1) = Some r1 /\
       find_row users.id 1 (db.users d2) = Some r2 /\
       users.version r1 = Some v1 /\
       users.version r2 = Some (v1 + 1) /\
       v1 < v1 + 1 /\
       users.last_sync_at r2 = Some (update_time u)).
Proof.
  split; [reflexivity|]. split; [reflexivity|].
  split; [vm_compute; reflexivity|].
  apply (version_counts_every_update 1 sample.two_updates sample.rpi1
           sample.rpi1_after_two_updates sample.kasun 1);
    vm_compute; reflexivity.
Defined.

(** The action of [fk_users_last_booth] leaves the version and the
    last-sync timestamp of every user as they were. *)
Lemma delete_booths_keeps_versions b d d' :
  delete_booths b d = Ok d' ->
  map users.id (db.users d') = map users.id (db.users d) /\
  map users.version (db.users d') = map users.version (db.users d) /\
  map users.last_sync_at (db.users d') = map users.last_sync_at (db.users d).
Proof.
  unfold delete_booths. destruct (existsb _ _); [done|]. intros [= <-]. simpl.
  rewrite !map_map.
  repeat split; apply map_ext; intros r;
    unfold fk_users_last_booth_on_delete; by destruct (bool_decide _).
Qed.

(** C3, as claimed, fails.  On RPi 1 Kasun is inserted with version 1; the
    UPDATE that records booth 4 as his last booth stores version 2 at time
    200; then booth 4 is deleted and the foreign key sets his last_booth_id
    to NULL.  The row has changed, yet its version is still 2 and its
    last_sync_at still 200: three writes of the record, version 2. *)
Lemma users_row_changed_without_version :
  update_users 1 (users.set_last_booth_id (Some 4)) 200 sample.rpi1
    = Ok sample.rpi1_kasun_at_booth_4 /\
  delete_booths 4 sample.rpi1_kasun_at_booth_4
    = Ok sample.rpi1_after_delete_booth_4 /\
  (users.last_booth_id <$>
     find_row users.id 1 (db.users sample.rpi1_kasun_at_booth_4))
    = Some (Some 4) /\
  (users.last_booth_id <$>
     find_row users.id 1 (db.users sample.rpi1_after_delete_booth_4))
    = Some None /\
  (users.version <$>
     find_row users.id 1 (db.users sample.rpi1_kasun_at_booth_4))
    = Some (Some 2) /\
  (users.version <$>
     find_row users.id 1 (db.users sample.rpi1_after_delete_booth_4))
    = Some (Some 2) /\
  (users.last_sync_at <$>
     find_row users.id 1 (db.users sample.rpi1_kasun_at_booth_4))
    = Some (Some 200) /\
  (users.last_sync_at <$>
     find_row users.id 1 (db.users sample.rpi1_after_delete_booth_4))
    = Some (Some 200) /\
  find_row users.id 1 (db.users sample.rpi1_after_delete_booth_4)
    <> find_row users.id 1 (db.users sample.rpi1_kasun_at_booth_4).
Proof.
  repeat (split; [vm_compute; reflexivity|]).
  vm_compute. discriminate.
Qed.

(** ** Keys generated by a node *)

Lemma compute_next_insert_id_mod nr c :
  auto_increment_increment c <> 0 ->
  compute_next_insert_id nr c mod auto_increment_increment c
  = auto_increment_offset c mod auto_increment_increment c.
Proof.
  intros Hinc. unfold compute_next_insert_id.
  rewrite Z.add_comm. by apply Z.mod_add.
Qed.

(** The generated key is above every key the table has seen. *)
Lemma compute_next_insert_id_above nr c :
  1 <= auto_increment_offset c <= auto_increment_increment c ->
  nr < compute_next_insert_id nr c.
Proof.
  intros H. unfold compute_next_insert_id.
  set (N := auto_increment_increment c) in *.
  set (o := auto_increment_offset c) in *.
  pose proof (Z.mod_pos_bound (nr + N - o) N ltac:(lia)).
  pose proof (Z.div_mod (nr + N - o) N ltac:(lia)).
  lia.
Qed.

Lemma insert_users_Ok tag name nic ut now d k d' :
  insert_users tag name nic ut now d = Ok (k, d') ->
  let NEW :=
    users.mk k tag name nic ut status_IDLE None None None None
      (Some now) (Some now) None (Some 1) (Some now) in
  generate_id (db.users_AUTO_INCREMENT d) (db.cnf d) = Ok k /\
  check_users_row NEW (db.users d) = Ok tt /\
  d' = db.set_users (db.users d ++ [NEW]) (k + 1) d.
Proof.
  unfold insert_users. sql_unfold.
  destruct (generate_id _ _) as [k0|]; [|done].
  destruct (check_users_row _ _) as [[]|] eqn:Hc; [|done].
  intros [= <- <-]. done.
Qed.

Lemma insert_users_row_Ok NEW d d' :
  insert_users_row NEW d = Ok d' ->
  check_users_row NEW (db.users d) = Ok tt /\
  d' = db.set_users (db.users d ++ [NEW])
         (Z.max (db.users_AUTO_INCREMENT d) (users.id NEW + 1)) d.
Proof.
  unfold insert_users_row. sql_unfold.
  destruct (check_users_row _ _) as [[]|]; [|done].
  by intros [= <-].
Qed.

Lemma insert_logs_Ok NEW d k d' :
  insert_logs NEW d = Ok (k, d') ->
  generate_id (db.logs_AUTO_INCREMENT d) (db.cnf d) = Ok k /\
  d' = db.set_logs (db.logs d ++ [logs.set_id k NEW]) (k + 1) d.
Proof.
  unfold insert_logs. sql_unfold.
  destruct (generate_id _ _) as [k0|]; [|done].
  destruct (check_fk_logs_user _ _) as [[]|]; [|done].
  by intros [= <- <-].
Qed.

Lemma update_logs_absent k SET d :
  find_row logs.id k (db.logs d) = None -> update_logs k SET d = Ok d.
Proof. intros H. unfold update_logs. by rewrite H. Qed.

Lemma update_logs_cnf k SET d d' :
  update_logs k SET d = Ok d' -> db.cnf d' = db.cnf d.
Proof.
  unfold update_logs. destruct (find_row _ _ _); [|by intros [= <-]].
  sql_unfold.
  match goal with |- context [if ?b then _ else _] => destruct b end;
    [|destruct (check_fk_logs_user _ _) as [[]|]; [|done]];
    by intros [= <-].
Qed.

(** No statement changes the settings of the server. *)
Lemma execute_cnf s d d' : execute s d = Ok d' -> db.cnf d' = db.cnf d.
Proof.
  destruct s as [tag name nic ut now|NEW|k SET now|k|NEW|k SET]; simpl.
  - destruct (insert_users _ _ _ _ _ _) as [[k d1]|] eqn:H; [|done].
    intros [= <-]. by apply insert_users_Ok in H as (_ & _ & ->).
  - intros H. by apply insert_users_row_Ok in H as (_ & ->).
  - intros H. destruct (find_row users.id k (db.users d)) as [OLD|] eqn:Hf.
    + by destruct (update_users_effect _ _ _ _ _ _ Hf H) as (_ & _ & _ & _ & _ & ?).
    + rewrite update_users_absent in H by done. by injection H as <-.
  - by intros [= <-].
  - destruct (insert_logs _ _) as [[k d1]|] eqn:H; [|done].
    intros [= <-]. by apply insert_logs_Ok in H as (_ & ->).
  - apply update_logs_cnf.
Qed.

Lemma step_cnf d s : db.cnf (step d s) = db.cnf d.
Proof.
  unfold step. destruct (execute s d) eqn:H; [|done]. by apply execute_cnf in H.
Qed.

Lemma generated_keys_of_mod s d t k :
  auto_increment_increment (db.cnf d) <> 0 ->
  In (t, k) (generated_keys_of s d) ->
  k mod auto_increment_increment (db.cnf d)
  = auto_increment_offset (db.cnf d) mod auto_increment_increment (db.cnf d).
Proof.
  intros Hinc.
  destruct s as [tag name nic ut now|NEW|k0 SET now|k0|NEW|k0 SET]; simpl;
    try done.
  - destruct (insert_users _ _ _ _ _ _) as [[k1 d1]|] eqn:H; [|done].
    intros [[= _ <-]|[]]. apply insert_users_Ok in H as (Hg & _).
    apply generate_id_Ok in Hg as [-> _].
    by apply compute_next_insert_id_mod.
  - unfold step. simpl.
    destruct (update_users k0 SET now d) as [d'|] eqn:Hup;
      [|by rewrite drop_all].
    destruct (find_row users.id k0 (db.users d)) as [OLD|] eqn:Hf.
    + destruct (update_users_Ok _ _ _ _ _ _ Hf Hup) as (_ & Htrg).
      apply users_sync_trigger_Ok in Htrg as (q & Hq & ->). simpl.
      rewrite drop_app_length. simpl. intros [[= _ <-]|[]].
      apply generate_id_Ok in Hq as [-> _].
      by apply compute_next_insert_id_mod.
    + rewrite update_users_absent in Hup by done. injection Hup as <-.
      by rewrite drop_all.
  - destruct (insert_logs _ _) as [[k1 d1]|] eqn:H; [|done].
    intros [[= _ <-]|[]]. apply insert_logs_Ok in H as (Hg & _).
    apply generate_id_Ok in Hg as [-> _].
    by apply compute_next_insert_id_mod.
Qed.

Lemma generated_keys_mod c ss d :
  auto_increment_increment c <> 0 ->
  db.cnf d = c ->
  Forall (fun tk => tk.2 mod auto_increment_increment c
                    = auto_increment_offset c mod auto_increment_increment c)
    (generated_keys ss d).
Proof.
  intros Hinc. revert d. induction ss as [|s ss IH]; intros d Hc; simpl.
  - constructor.
  - apply Forall_app. split.
    + apply Forall_forall. intros [t k] Hin. simpl. subst c.
      apply generated_keys_of_mod with (s := s) (t := t); [done|].
      by apply list_elem_of_In.
    + apply IH. by rewrite step_cnf.
Qed.

(** The "Expected Results" of the guide: from an empty table RPi 1
    generates 1, 3, 5, 7 and RPi 2 generates 2, 4, 6, 8. *)
Example rpi1_generates_odd_ids :
  generated_keys
    [ INSERT_users "a" None None Common 1; INSERT_users "b" None None Common 2;
      INSERT_users "c" None None Common 3; INSERT_users "d" None None Common 4 ]
    (db.empty rpi1_cnf)
  = [("users", 1); ("users", 3); ("users", 5); ("users", 7)].
Proof. vm_compute; reflexivity. Qed.

Example rpi2_generates_even_ids :
  generated_keys
    [ INSERT_users "a" None None Common 1; INSERT_users "b" None None Common 2;
      INSERT_users "c" None None Common 3; INSERT_users "d" None None Common 4 ]
    (db.empty rpi2_cnf)
  = [("users", 2); ("users", 4); ("users", 6); ("users", 8)].
Proof. vm_compute; reflexivity. Qed.

Lemma ordinal_mod_inj N i j :
  1 <= i <= N -> 1 <= j <= N -> i mod N = j mod N -> i = j.
Proof.
  intros Hi Hj.
  destruct (decide (i = N)) as [->|]; destruct (decide (j = N)) as [->|];
    try done.
  - rewrite Z_mod_same_full, (Z.mod_small j) by lia. lia.
  - rewrite Z_mod_same_full, (Z.mod_small i) by lia. lia.
  - rewrite !Z.mod_small by lia. done.
Qed.

(** C2. With N nodes, node i (1 <= i <= N) being configured with
    auto-increment-increment N and auto-increment-offset i, every primary
    key that the node generates itself, in any run of statements from any
    database of the node, is congruent to i modulo N; so no key generated
    by one node is a key generated by another, and with N = 2 node 1
    generates odd keys only and node 2 even keys only. *)
Theorem generated_keys_partition N i j ss_i ss_j d_i d_j :
  1 <= i <= N -> 1 <= j <= N -> i <> j ->
  db.cnf d_i = node_cnf N i ->
  db.cnf d_j = node_cnf N j ->
  Forall (fun tk => tk.2 mod N = i mod N) (generated_keys ss_i d_i) /\
  Forall (fun tk => tk.2 mod N = j mod N) (generated_keys ss_j d_j) /\
  (forall t t' k, In (t, k) (generated_keys ss_i d_i) ->
                  ~ In (t', k) (generated_keys ss_j d_j)) /\
  (N = 2 -> i = 1 ->
   Forall (fun tk => Z.odd tk.2 = true) (generated_keys ss_i d_i) /\
   Forall (fun tk => Z.even tk.2 = true) (generated_keys ss_j d_j)).
Proof.
  intros Hi Hj Hij Hci Hcj.
  assert (HN : N <> 0) by lia.
  pose proof (generated_keys_mod (node_cnf N i) ss_i d_i HN Hci) as Ki.
  pose proof (generated_keys_mod (node_cnf N j) ss_j d_j HN Hcj) as Kj.
  simpl in Ki, Kj.
  split; [exact Ki|]. split; [exact Kj|]. split.
  - intros t t' k Hk Hk'.
    rewrite Forall_forall in Ki, Kj.
    apply list_elem_of_In in Hk, Hk'.
    apply Hij, (ordinal_mod_inj N); [done..|].
    rewrite <- (Ki _ Hk). by apply (Kj _ Hk').
  - intros -> ->. assert (j = 2) as -> by lia. split.
    + eapply Forall_impl; [exact Ki|]. intros [t k] Hk. simpl in Hk |- *.
      rewrite Zodd_mod. change (1 mod 2) with 1 in Hk. rewrite Hk. done.
    + eapply Forall_impl; [exact Kj|]. intros [t k] Hk. simpl in Hk |- *.
      rewrite Zeven_mod. change (2 mod 2) with 0 in Hk. rewrite Hk. done.
Qed.

Lemma generated_keys_partition_witness :
  generated_keys sample.rpi1_run sample.rpi1
  = [("users", 5); ("users", 7); ("logs", 3); ("sync_queue", 1)] /\
  generated_keys sample.rpi2_run (db.empty rpi2_cnf)
  = [("users", 2); ("users", 4); ("logs", 2); ("sync_queue", 2)] /\
  Forall (fun tk => tk.2 mod 2 = 1 mod 2)
    (generated_keys sample.rpi1_run sample.rpi1) /\
  Forall (fun tk => tk.2 mod 2 = 2 mod 2)
    (generated_keys sample.rpi2_run (db.empty rpi2_cnf)) /\
  (forall t t' k, In (t, k) (generated_keys sample.rpi1_run sample.rpi1) ->
                  ~ In (t', k) (generated_keys sample.rpi2_run (db.empty rpi2_cnf))) /\
  (2 = 2 -> 1 = 1 ->
   Forall (fun tk => Z.odd tk.2 = true)
     (generated_keys sample.rpi1_run sample.rpi1) /\
   Forall (fun tk => Z.even tk.2 = true)
     (generated_keys sample.rpi2_run (db.empty rpi2_cnf))).
Proof.
  split; [vm_compute; reflexivity|]. split; [vm_compute; reflexivity|].
  apply (generated_keys_partition 2 1 2 sample.rpi1_run sample.rpi2_run
           sample.rpi1 (db.empty rpi2_cnf));
    try lia; reflexivity.
Defined.

(** ** The change queue *)

Lemma status_of_text_status_text st : status_of_text (status_text st) = Some st.
Proof. by destruct st. Qed.

Lemma users_sync_trigger_data_lookup NEW :
  users_sync_trigger_data NEW !! "id" = Some (JSON_NUMBER (users.id NEW)) /\
  users_sync_trigger_data NEW !! "name" = Some (json_of_text (users.name NEW)) /\
  users_sync_trigger_data NEW !! "rfid_tag"
  = Some (JSON_STRING (users.rfid_tag NEW)) /\
  users_sync_trigger_data NEW !! "status"
  = Some (JSON_STRING (status_text (users.status NEW))).
Proof.
  unfold users_sync_trigger_data, JSON_OBJECT. simpl.
  repeat split; by simplify_map_eq.
Qed.

(** The snapshot holds neither the version nor a timestamp of the row. *)
Lemma users_sync_trigger_data_no_version NEW :
  users_sync_trigger_data NEW !! "version" = None /\
  users_sync_trigger_data NEW !! "last_sync_at" = None /\
  users_sync_trigger_data NEW !! "updated_at" = None.
Proof.
  unfold users_sync_trigger_data, JSON_OBJECT. simpl.
  repeat split; by simplify_map_eq.
Qed.

Lemma status_text_inj a b : status_text a = status_text b -> a = b.
Proof. by destruct a, b. Qed.

Lemma json_of_text_inj a b : json_of_text a = json_of_text b -> a = b.
Proof. destruct a, b; simpl; congruence. Qed.

(** Rows with the same snapshot agree on the four columns of the
    snapshot. *)
Lemma users_sync_trigger_data_inj a b :
  users_sync_trigger_data a = users_sync_trigger_data b ->
  users.id a = users.id b /\ users.name a = users.name b /\
  users.rfid_tag a = users.rfid_tag b /\ users.status a = users.status b.
Proof.
  intros H.
  destruct (users_sync_trigger_data_lookup a) as (Ai & An & At & As).
  destruct (users_sync_trigger_data_lookup b) as (Bi & Bn & Bt & Bs).
  rewrite H in Ai, An, At, As.
  rewrite Bi in Ai. rewrite Bn in An. rewrite Bt in At. rewrite Bs in As.
  injection Ai as Ai. injection An as An. injection At as At.
  injection As as As.
  repeat split; try congruence.
  - symmetry. by apply json_of_text_inj.
  - symmetry. by apply status_text_inj.
Qed.

(** The snapshot of a row determines the four columns it lists: replaying
    it on any row yields the name, tag and status of the snapshot's row and
    leaves the other columns as they are. *)
Lemma SET_of_snapshot_trigger_data NEW r :
  let r' := SET_of_snapshot (users_sync_trigger_data NEW) r in
  users.name r' = users.name NEW /\
  users.rfid_tag r' = users.rfid_tag NEW /\
  users.status r' = users.status NEW /\
  users.id r' = users.id r /\ users.nic r' = users.nic r /\
  users.user_type r' = users.user_type r /\
  users.version r' = users.version r /\
  users.last_sync_at r' = users.last_sync_at r.
Proof.
  destruct (users_sync_trigger_data_lookup NEW) as (_ & Hn & Ht & Hs).
  unfold SET_of_snapshot. rewrite Hn, Ht, Hs, status_of_text_status_text.
  destruct (users.name NEW); simpl; repeat split.
Qed.






(** C5, as the triggers have it.  Every UPDATE of a users row appends
    exactly one change-queue entry in the statement that writes the row
    (the statement yields the written row and the entry together, or an
    error and neither): the entry names the table, the row's key and the
    operation UPDATE, and its snapshot holds the id, name, rfid_tag and
    status of the row as written, and determines these four columns. *)
Theorem update_users_enqueues_one_entry k SET now d d' OLD :
  find_row users.id k (db.users d) = Some OLD ->
  update_users k SET now d = Ok d' ->
  exists STORED entry snapshot,
    find_row users.id k (db.users d') = Some STORED /\
    db.sync_queue d' = db.sync_queue d ++ [entry] /\
    sync_queue.table_name entry = "users" /\
    sync_queue.record_id entry = k /\
    sync_queue.operation entry = UPDATE /\
    sync_queue.created_at entry = Some now /\
    sync_queue.synced entry = Some false /\
    sync_queue.data entry = Some snapshot /\
    snapshot !! "id" = Some (JSON_NUMBER (users.id STORED)) /\
    snapshot !! "name" = Some (json_of_text (users.name STORED)) /\
    snapshot !! "rfid_tag" = Some (JSON_STRING (users.rfid_tag STORED)) /\
    snapshot !! "status" = Some (JSON_STRING (status_text (users.status STORED))) /\
    (forall r,
       users_sync_trigger_data r = snapshot ->
       users.id r = users.id STORED /\
       users.name r = users.name STORED /\
       users.rfid_tag r = users.rfid_tag STORED /\
       users.status r = users.status STORED).
Proof.
  intros Hfind Hup.
  destruct (update_users_effect _ _ _ _ _ _ Hfind Hup) as (Hrow & _ & (q & Hq) & _).
  cbv zeta in Hrow, Hq.
  eexists _, _, _. split; [exact Hrow|]. split; [exact Hq|].
  do 6 (split; [reflexivity|]).
  destruct (users_sync_trigger_data_lookup
              (trg_users_before_update OLD (users.set_id k (SET OLD)) now))
    as (Hi & Hn & Ht & Hs).
  split; [exact Hi|]. split; [exact Hn|]. split; [exact Ht|].
  split; [exact Hs|].
  intros r Hr. by apply users_sync_trigger_data_inj.
Qed.

Lemma update_users_enqueues_one_entry_witness :
  find_row users.id 1 (db.users sample.rpi1) = Some sample.kasun /\
  update_users 1 sample.SET_In_v40 200 sample.rpi1
    = Ok sample.rpi1_after_update /\
  exists STORED entry snapshot,
    find_row users.id 1 (db.users sample.rpi1_after_update) = Some STORED /\
    db.sync_queue sample.rpi1_after_update
    = db.sync_queue sample.rpi1 ++ [entry] /\
    sync_queue.table_name entry = "users" /\
    sync_queue.record_id entry = 1 /\
    sync_queue.operation entry = UPDATE /\
    sync_queue.created_at entry = Some 200 /\
    sync_queue.synced entry = Some false /\
    sync_queue.data entry = Some snapshot /\
    snapshot !! "id" = Some (JSON_NUMBER (users.id STORED)) /\
    snapshot !! "name" = Some (json_of_text (users.name STORED)) /\
    snapshot !! "rfid_tag" = Some (JSON_STRING (users.rfid_tag STORED)) /\
    snapshot !! "status" = Some (JSON_STRING (status_text (users.status STORED))) /\
    (forall r,
       users_sync_trigger_data r = snapshot ->
       users.id r = users.id STORED /\
       users.name r = users.name STORED /\
       users.rfid_tag r = users.rfid_tag STORED /\
       users.status r = users.status STORED).
Proof.
  split; [reflexivity|]. split; [vm_compute; reflexivity|].
  apply (update_users_enqueues_one_entry 1 sample.SET_In_v40 200 sample.rpi1
           sample.rpi1_after_update sample.kasun);
    vm_compute; reflexivity.
Defined.

(** C5, as claimed, fails.  On RPi 1, inserting a user, deleting a user and
    inserting a log row each succeed and append no change-queue entry; and
    two updates of Kasun that store different nic values append the same
    snapshot, so the snapshot does not tell which of the two was made. *)
Lemma change_queue_misses_mutations :
  (exists k, insert_users "RFID_TEST_001" (Some "Alice Test") None Common 500
               sample.rpi1 = Ok (k, sample.rpi1_after_insert)) /\
  length (db.users sample.rpi1_after_insert)
    = S (length (db.users sample.rpi1)) /\
  db.sync_queue sample.rpi1_after_insert = db.sync_queue sample.rpi1 /\
  delete_users 3 sample.rpi1 = Ok sample.rpi1_after_delete /\
  find_row users.id 3 (db.users sample.rpi1) = Some sample.nimali /\
  find_row users.id 3 (db.users sample.rpi1_after_delete) = None /\
  db.sync_queue sample.rpi1_after_delete = db.sync_queue sample.rpi1 /\
  (exists k, insert_logs sample.exit_log sample.rpi1
             = Ok (k, sample.rpi1_after_insert_log)) /\
  length (db.logs sample.rpi1_after_insert_log)
    = S (length (db.logs sample.rpi1)) /\
  db.sync_queue sample.rpi1_after_insert_log = db.sync_queue sample.rpi1 /\
  update_users 1 (users.set_nic (Some "900000001V")) 200 sample.rpi1
    = Ok sample.rpi1_after_nic_1 /\
  update_users 1 (users.set_nic None) 200 sample.rpi1
    = Ok sample.rpi1_after_nic_2 /\
  db.sync_queue sample.rpi1_after_nic_1 = db.sync_queue sample.rpi1_after_nic_2 /\
  (users.nic <$> find_row users.id 1 (db.users sample.rpi1_after_nic_1))
    = Some (Some "900000001V") /\
  (users.nic <$> find_row users.id 1 (db.users sample.rpi1_after_nic_2))
    = Some None.
Proof.
  split; [exists 5; vm_compute; reflexivity|].
  do 6 (split; [vm_compute; reflexivity|]).
  split; [exists 3; vm_compute; reflexivity|].
  repeat split; vm_compute; reflexivity.
Qed.

(** ** Log rows *)

Lemma update_logs_others k k' SET d d' :
  k' <> k ->
  update_logs k SET d = Ok d' ->
  find_row logs.id k' (db.logs d') = find_row logs.id k' (db.logs d).
Proof.
  intros Hne Hup.
  destruct (find_row logs.id k (db.logs d)) as [OLD|] eqn:Hfind.
  - destruct (update_logs_effect _ _ _ _ _ Hfind Hup) as (_ & -> & _).
    apply find_row_replace_ne; [|done].
    by rewrite trg_logs_before_update_sync_id.
  - rewrite update_logs_absent in Hup by done. by injection Hup as <-.
Qed.

Lemma fk_logs_user_on_delete_id k l :
  logs.id (fk_logs_user_on_delete k l) = logs.id l.
Proof. unfold fk_logs_user_on_delete. by destruct (bool_decide _). Qed.

Lemma log_row_kept_refl l : log_row_kept l l.
Proof. split; [repeat split | by left]. Qed.

Lemma log_row_kept_trans l1 l2 l3 :
  log_row_kept l2 l1 -> log_row_kept l3 l2 -> log_row_kept l3 l1.
Proof.
  intros [E1 U1] [E2 U2]. split.
  - unfold logs.same_event_but_user in *.
    destruct E1 as (?&?&?&?&?&?&?&?&?), E2 as (?&?&?&?&?&?&?&?&?).
    repeat split; congruence.
  - destruct U2 as [U2|U2]; [|by right].
    rewrite U2. exact U1.
Qed.

Lemma fk_logs_user_on_delete_kept k l :
  log_row_kept (fk_logs_user_on_delete k l) l.
Proof.
  unfold fk_logs_user_on_delete. destruct (bool_decide _).
  - split; [repeat split | by right].
  - apply log_row_kept_refl.
Qed.

Lemma step_log_row s d k l :
  is_stamp s ->
  find_row logs.id k (db.logs d) = Some l ->
  exists l', find_row logs.id k (db.logs (step d s)) = Some l' /\
             log_row_kept l' l.
Proof.
  intros Hs Hfind. unfold step.
  destruct (execute s d) as [d'|] eqn:Hex;
    [|exists l; split; [done | apply log_row_kept_refl]].
  destruct s as [tag name nic ut now|NEW|k0 SET now|k0|NEW|k0 SET];
    simpl in Hex.
  - destruct (insert_users _ _ _ _ _ _) as [[k1 d1]|] eqn:H; [|done].
    injection Hex as <-. apply insert_users_Ok in H as (_ & _ & ->).
    exists l. split; [done | apply log_row_kept_refl].
  - apply insert_users_row_Ok in Hex as (_ & ->).
    exists l. split; [done | apply log_row_kept_refl].
  - exists l. split; [|apply log_row_kept_refl].
    destruct (find_row users.id k0 (db.users d)) as [OLD|] eqn:Hf.
    + destruct (update_users_effect _ _ _ _ _ _ Hf Hex) as (_ & _ & _ & -> & _).
      done.
    + rewrite update_users_absent in Hex by done. by injection Hex as <-.
  - injection Hex as <-. simpl.
    rewrite find_row_map by apply fk_logs_user_on_delete_id.
    rewrite Hfind. simpl. eexists. split; [done|].
    apply fk_logs_user_on_delete_kept.
  - destruct (insert_logs _ _) as [[k1 d1]|] eqn:H; [|done].
    injection Hex as <-. apply insert_logs_Ok in H as (_ & ->). simpl.
    rewrite find_row_app, Hfind.
    exists l. split; [done | apply log_row_kept_refl].
  - destruct (decide (k = k0)) as [->|Hne].
    + destruct (update_logs_effect _ _ _ _ _ Hfind Hex) as (Hrow & _).
      eexists. split; [exact Hrow|].
      destruct (trg_logs_before_update_sync_same_event l
                  (logs.set_id k0 (SET l))) as [E _].
      pose proof (Hs l) as E'. apply find_row_key in Hfind.
      unfold logs.same_event in E, E'. simpl in E.
      destruct E as (?&?&?&?&?&?&?&?&?&?), E' as (?&?&?&?&?&?&?&?&?&?).
      split; [repeat split; congruence | left; congruence].
    + rewrite (update_logs_others _ _ _ _ _ Hne Hex).
      exists l. split; [done | apply log_row_kept_refl].
Qed.

(** C7, as the schema has it.  The BEFORE UPDATE trigger of [logs] changes
    no column but synced: every other column is stored as the UPDATE
    supplies it.  So over any run of the statements of the sources in
    which the updates of logs assign only the two sync columns, a log row
    keeps its event type, gate, booth, user type, timestamp, result,
    message and node for good, and its user reference is what it was or
    NULL (the foreign key sets it to NULL when the user is deleted). *)
Theorem log_rows_keep_their_event ss d k l :
  Forall is_stamp ss ->
  find_row logs.id k (db.logs d) = Some l ->
  (forall OLD NEW,
     logs.same_event (trg_logs_before_update_sync OLD NEW) NEW /\
     logs.sync_timestamp (trg_logs_before_update_sync OLD NEW)
     = logs.sync_timestamp NEW) /\
  exists l',
    find_row logs.id k (db.logs (run ss d)) = Some l' /\
    logs.same_event_but_user l' l /\
    (logs.user_id l' = logs.user_id l \/ logs.user_id l' = None).
Proof.
  intros Hss Hfind.
  split; [apply trg_logs_before_update_sync_same_event|].
  cut (exists l', find_row logs.id k (db.logs (run ss d)) = Some l' /\
                  log_row_kept l' l).
  { intros (l' & ? & ? & ?). by exists l'. }
  revert d l Hfind. induction Hss as [|s ss Hs _ IH]; intros d l Hfind.
  - exists l. split; [done | apply log_row_kept_refl].
  - destruct (step_log_row s d k l Hs Hfind) as (l1 & H1 & K1).
    destruct (IH _ _ H1) as (l2 & H2 & K2).
    exists l2. split; [exact H2|].
    by apply log_row_kept_trans with (l2 := l1).
Qed.

Lemma log_rows_keep_their_event_witness :
  Forall is_stamp sample.rpi1_day /\
  find_row logs.id 1 (db.logs sample.rpi1) = Some sample.entry_log /\
  (logs.user_id <$> find_row logs.id 1 (db.logs (run sample.rpi1_day sample.rpi1)))
    = Some None /\
  (forall OLD NEW,
     logs.same_event (trg_logs_before_update_sync OLD NEW) NEW /\
     logs.sync_timestamp (trg_logs_before_update_sync OLD NEW)
     = logs.sync_timestamp NEW) /\
  exists l',
    find_row logs.id 1 (db.logs (run sample.rpi1_day sample.rpi1)) = Some l' /\
    logs.same_event_but_user l' sample.entry_log /\
    (logs.user_id l' = logs.user_id sample.entry_log \/ logs.user_id l' = None).
Proof.
  assert (H : Forall is_stamp sample.rpi1_day).
  { repeat constructor; intros r; repeat split. }
  split; [exact H|]. split; [reflexivity|]. split; [vm_compute; reflexivity|].
  apply (log_rows_keep_their_event sample.rpi1_day sample.rpi1 1
           sample.entry_log H).
  reflexivity.
Defined.

(** C7, as claimed, fails.  On RPi 1 the log row 1 refers to user 1 and
    carries the message 'welcome'.  Deleting user 1 sets the row's user
    reference to NULL, and an UPDATE that assigns the message is accepted
    and stored: fields other than synced and sync_timestamp changed after
    the row was inserted. *)
Lemma log_row_changed_after_insert :
  find_row logs.id 1 (db.logs sample.rpi1) = Some sample.entry_log /\
  logs.user_id sample.entry_log = Some 1 /\
  logs.message sample.entry_log = Some "welcome" /\
  delete_users 1 sample.rpi1 = Ok sample.rpi1_after_delete_kasun /\
  (logs.user_id <$>
     find_row logs.id 1 (db.logs sample.rpi1_after_delete_kasun)) = Some None /\
  update_logs 1 (logs.set_message (Some "edited")) sample.rpi1
    = Ok sample.rpi1_after_edit /\
  (logs.message <$> find_row logs.id 1 (db.logs sample.rpi1_after_edit))
    = Some (Some "edited").
Proof. repeat split; vm_compute; reflexivity. Qed.

(** ** DatabaseSync.sync_table *)

Lemma send_to_nodes_delivers send nodes table_name local_data :
  (forall node, In node nodes -> send node table_name local_data = None) ->
  DatabaseSync.send_to_nodes send nodes table_name local_data
  = (map (fun node => (node, table_name, local_data)) nodes, None).
Proof.
  induction nodes as [|n nodes IH]; intros H; simpl; [done|].
  rewrite H by (by left). rewrite IH; [done|].
  intros node Hn. apply H. by right.
Qed.

Lemma last_sync_position_rename f table_name d :
  last_sync_position table_name (rename_metadata_nodes f d)
  = last_sync_position table_name d.
Proof.
  unfold last_sync_position, rename_metadata_nodes. simpl.
  generalize (db.sync_metadata d). intros l.
  assert (H : map sync_metadata.last_sync_timestamp
                (List.filter
                   (fun r => bool_decide (sync_metadata.table_name r = table_name))
                   (map (fun r => sync_metadata.set_node_id
                                    (f (sync_metadata.node_id r)) r) l))
              = map sync_metadata.last_sync_timestamp
                  (List.filter
                     (fun r => bool_decide (sync_metadata.table_name r = table_name))
                     l)).
  { induction l as [|r l IH]; simpl; [done|].
    destruct (bool_decide (sync_metadata.table_name r = table_name)); simpl;
      by rewrite IH. }
  destruct (List.filter _ (map _ l)) as [|a [|b l1]];
    destruct (List.filter _ l) as [|a' [|b' l2]]; simpl in H; try done.
  by injection H as ->.
Qed.

Lemma update_sync_timestamp_statuses table_name NOW d :
  sync_statuses (update_sync_timestamp table_name NOW d) = sync_statuses d.
Proof.
  unfold sync_statuses, update_sync_timestamp. simpl.
  rewrite map_map. apply map_ext. intros r.
  by destruct (bool_decide _).
Qed.

(** [sync_table] writes neither sync_status nor error_message, whatever
    the outcome. *)
Lemma sync_table_statuses send self table NOW :
  sync_statuses (DatabaseSync.committed
                   (DatabaseSync.sync_table send self table NOW))
  = sync_statuses (DatabaseSync.local_db self).
Proof.
  unfold DatabaseSync.sync_table.
  destruct (select_needs_syncing _ _) as [local_data|]; [|done].
  destruct (DatabaseSync.send_to_nodes _ _ _ _) as [ds [exn|]]; [done|].
  apply update_sync_timestamp_statuses.
Qed.

(** C6, as [sync_table] has it, for the table [users].  The rows to sync
    are selected once, as the rows whose last_sync_at is above the position
    found in sync_metadata under the table's name, whichever node that row
    names; the same rows are sent to every remote node; and when all
    deliveries went through, the position of every sync_metadata row of
    that table name is set to the current time.  The selection and the
    position update are keyed by the table name alone. *)
Theorem sync_table_keyed_by_table send self NOW local_data :
  select_needs_syncing tbl_users (DatabaseSync.local_db self) = Ok local_data ->
  (forall node, In node (DatabaseSync.remote_nodes self) ->
                send node "users" local_data = None) ->
  let o := DatabaseSync.sync_table send self tbl_users NOW in
  (exists pos,
     last_sync_position "users" (DatabaseSync.local_db self) = Ok pos /\
     local_data =
       List.filter (fun r => sql_gt (users.last_sync_at r) pos)
         (db.users (DatabaseSync.local_db self))) /\
  (forall f,
     select_needs_syncing tbl_users
       (rename_metadata_nodes f (DatabaseSync.local_db self)) = Ok local_data) /\
  DatabaseSync.raised o = None /\
  DatabaseSync.sent o
  = map (fun node => (node, "users", local_data)) (DatabaseSync.remote_nodes self) /\
  (forall node, In node (DatabaseSync.remote_nodes self) ->
                In local_data (DatabaseSync.sent_to node o)) /\
  db.sync_metadata (DatabaseSync.committed o)
  = map (fun r =>
           if bool_decide (sync_metadata.table_name r = "users")
           then sync_metadata.set_last_sync_timestamp NOW r
           else r)
      (db.sync_metadata (DatabaseSync.local_db self)) /\
  db.users (DatabaseSync.committed o) = db.users (DatabaseSync.local_db self).
Proof.
  intros Hsel Hsend o.
  assert (Ho : o = DatabaseSync.mk_outcome
                     (update_sync_timestamp "users" NOW (DatabaseSync.local_db self))
                     (map (fun node => (node, "users", local_data))
                        (DatabaseSync.remote_nodes self))
                     None).
  { subst o. unfold DatabaseSync.sync_table. rewrite Hsel.
    change (table_name_of tbl_users) with "users".
    by rewrite send_to_nodes_delivers. }
  split; [|split].
  - simpl in Hsel. sql_unfold.
    destruct (last_sync_position "users" (DatabaseSync.local_db self))
      as [pos|]; [|done].
    exists pos. split; [done|]. by injection Hsel as <-.
  - intros f. simpl. rewrite last_sync_position_rename. exact Hsel.
  - rewrite Ho. simpl. repeat split.
    intros node Hn. unfold DatabaseSync.sent_to. simpl.
    apply in_map_iff. exists (node, "users", local_data). split; [done|].
    apply filter_In. split.
    + apply in_map_iff. by exists node.
    + by apply bool_decide_eq_true.
Qed.

Lemma sync_table_keyed_by_table_witness :
  select_needs_syncing tbl_users sample.rpi1 = Ok [sample.nimali] /\
  let o := DatabaseSync.sync_table sample.send_delivers
             (DatabaseSync.mk sample.rpi1 [2; 3]) tbl_users 400 in
  (exists pos,
     last_sync_position "users" sample.rpi1 = Ok pos /\
     [sample.nimali] =
       List.filter (fun r => sql_gt (users.last_sync_at r) pos)
         (db.users sample.rpi1)) /\
  (forall f,
     select_needs_syncing tbl_users (rename_metadata_nodes f sample.rpi1)
     = Ok [sample.nimali]) /\
  DatabaseSync.raised o = None /\
  DatabaseSync.sent o
  = map (fun node => (node, "users", [sample.nimali])) [2; 3] /\
  (forall node, In node [2; 3] ->
                In [sample.nimali] (DatabaseSync.sent_to node o)) /\
  db.sync_metadata (DatabaseSync.committed o)
  = map (fun r =>
           if bool_decide (sync_metadata.table_name r = "users")
           then sync_metadata.set_last_sync_timestamp 400 r
           else r)
      (db.sync_metadata sample.rpi1) /\
  db.users (DatabaseSync.committed o) = db.users sample.rpi1.
Proof.
  split; [vm_compute; reflexivity|].
  apply (sync_table_keyed_by_table sample.send_delivers
           (DatabaseSync.mk sample.rpi1 [2; 3]) 400 [sample.nimali]).
  - vm_compute; reflexivity.
  - reflexivity.
Defined.

(** C6, as claimed, fails.  With a position recorded for each of the peers
    1 and 2 (120 and 160), the rows newer than the position of the pair
    are Nimali's row for peer 1 and none for peer 2, while [sync_table]
    selects by table name, finds two positions and ends with the server's
    error without sending anything.  With the one row of node 1 for the
    table, a cycle whose only peer is node 2 sends the rows above the
    position of that row and then advances that row: no position is read
    or written for the pair of node 2 and the table. *)
Lemma sync_table_not_keyed_by_peer :
  selection_for_peer 1 "users" sample.rpi1_two_peers = [sample.nimali] /\
  selection_for_peer 2 "users" sample.rpi1_two_peers = [] /\
  DatabaseSync.sync_table sample.send_delivers
    (DatabaseSync.mk sample.rpi1_two_peers [1; 2]) tbl_users 400
  = DatabaseSync.mk_outcome sample.rpi1_two_peers []
      (Some (DatabaseSync.mysql_connector_Error ER_SUBQUERY_NO_1_ROW)) /\
  position_of_peer_and_table 2 "users" sample.rpi1 = None /\
  position_of_peer_and_table 1 "users" sample.rpi1 = Some 120 /\
  DatabaseSync.sent
    (DatabaseSync.sync_table sample.send_delivers
       (DatabaseSync.mk sample.rpi1 [2]) tbl_users 400)
  = [(2, "users", [sample.nimali])] /\
  (let d := DatabaseSync.committed
              (DatabaseSync.sync_table sample.send_delivers
                 (DatabaseSync.mk sample.rpi1 [2]) tbl_users 400) in
   position_of_peer_and_table 1 "users" d = Some 400 /\
   position_of_peer_and_table 2 "users" d = None).
Proof. repeat split; vm_compute; reflexivity. Qed.

(** C8, as [sync_table] has it.  When a call of [sync_table] ends with an
    exception, raised by the server or by the transport, nothing was
    written: the committed database is the one before the call, so no
    sync-metadata row has its status, error message or position changed,
    the change queue is as it was, and the next call selects the same
    rows again.  The status and the error message of the sync metadata
    are not written on success either. *)
Theorem sync_table_raise_writes_nothing send self table NOW exn :
  DatabaseSync.raised (DatabaseSync.sync_table send self table NOW) = Some exn ->
  let o := DatabaseSync.sync_table send self table NOW in
  DatabaseSync.committed o = DatabaseSync.local_db self /\
  sync_statuses (DatabaseSync.committed o)
  = sync_statuses (DatabaseSync.local_db self) /\
  db.sync_queue (DatabaseSync.committed o)
  = db.sync_queue (DatabaseSync.local_db self) /\
  select_needs_syncing table (DatabaseSync.committed o)
  = select_needs_syncing table (DatabaseSync.local_db self) /\
  (forall send' self' table' NOW',
     sync_statuses
       (DatabaseSync.committed (DatabaseSync.sync_table send' self' table' NOW'))
     = sync_statuses (DatabaseSync.local_db self')).
Proof.
  intros Hr o.
  assert (Hc : DatabaseSync.committed o = DatabaseSync.local_db self).
  { subst o. revert Hr. unfold DatabaseSync.sync_table.
    destruct (select_needs_syncing _ _) as [local_data|]; [|done].
    by destruct (DatabaseSync.send_to_nodes _ _ _ _) as [ds [e|]]. }
  rewrite Hc. repeat split. apply sync_table_statuses.
Qed.

Lemma sync_table_raise_writes_nothing_witness :
  DatabaseSync.raised
    (DatabaseSync.sync_table sample.send_times_out
       (DatabaseSync.mk sample.rpi1 [2]) tbl_users 400)
  = Some (DatabaseSync.send_Error "timed out") /\
  let o := DatabaseSync.sync_table sample.send_times_out
             (DatabaseSync.mk sample.rpi1 [2]) tbl_users 400 in
  DatabaseSync.committed o = sample.rpi1 /\
  sync_statuses (DatabaseSync.committed o) = sync_statuses sample.rpi1 /\
  db.sync_queue (DatabaseSync.committed o) = db.sync_queue sample.rpi1 /\
  select_needs_syncing tbl_users (DatabaseSync.committed o)
  = select_needs_syncing tbl_users sample.rpi1 /\
  (forall send' self' table' NOW',
     sync_statuses
       (DatabaseSync.committed (DatabaseSync.sync_table send' self' table' NOW'))
     = sync_statuses (DatabaseSync.local_db self')).
Proof.
  split; [vm_compute; reflexivity|].
  apply (sync_table_raise_writes_nothing sample.send_times_out
           (DatabaseSync.mk sample.rpi1 [2]) tbl_users 400
           (DatabaseSync.send_Error "timed out")).
  vm_compute; reflexivity.
Defined.

(** C8, as claimed, fails.  On RPi 1 the sync metadata of [users] has
    status SUCCESS and no error message.  A cycle in which the peer is
    unreachable ends with the transport's exception and leaves the row as
    it was, status SUCCESS and error message NULL; a cycle for [logs],
    which the server rejects, does the same. *)
Lemma failed_sync_not_recorded :
  db.sync_metadata sample.rpi1 = [sample.users_meta; sample.logs_meta] /\
  sync_metadata.sync_status sample.users_meta = SUCCESS /\
  sync_metadata.error_message sample.users_meta = None /\
  DatabaseSync.sync_table sample.send_times_out
    (DatabaseSync.mk sample.rpi1 [2]) tbl_users 400
  = DatabaseSync.mk_outcome sample.rpi1 []
      (Some (DatabaseSync.send_Error "timed out")) /\
  sync_statuses
    (DatabaseSync.committed
       (DatabaseSync.sync_table sample.send_times_out
          (DatabaseSync.mk sample.rpi1 [2]) tbl_users 400))
  = [(SUCCESS, None); (SUCCESS, None)] /\
  DatabaseSync.sync_table sample.send_delivers
    (DatabaseSync.mk sample.rpi1 [2]) tbl_logs 400
  = DatabaseSync.mk_outcome sample.rpi1 []
      (Some (DatabaseSync.mysql_connector_Error ER_BAD_FIELD_ERROR)).
Proof. repeat split; vm_compute; reflexivity. Qed.

(** ** A record from its insertion on *)

Lemma check_users_row_Ok NEW others :
  check_users_row NEW others = Ok tt ->
  find_row users.id (users.id NEW) others = None.
Proof.
  unfold check_users_row. destruct (users.version NEW); [|done].
  repeat match goal with
         | |- context [if ?b then _ else _] =>
             let E := fresh "E" in destruct b eqn:E; [done|]
         end.
  intros _. unfold find_row.
  match goal with |- ?o = None => destruct o as [r|] eqn:Hf end; [|done].
  apply find_some in Hf as [Hin Hk].
  match goal with
  | H : existsb (fun r => bool_decide (users.id r = _)) _ = false |- _ =>
      rewrite <- not_true_iff_false in H; exfalso; apply H
  end.
  apply existsb_exists. by exists r.
Qed.

(** X9. A user inserted with the defaults and then updated any number of
    times has as version the number of statements
    that wrote the record: the INSERT and every UPDATE. *)
Lemma inserted_user_version_counts_mutations
    tag name nic ut now d k d1 us d2 :
  insert_users tag name nic ut now d = Ok (k, d1) ->
  apply_updates k us d1 = Ok d2 ->
  exists r,
    find_row users.id k (db.users d2) = Some r /\
    users.version r = Some (Z.of_nat (1 + length us)).
Proof.
  intros Hins Hups.
  destruct (insert_users_Ok _ _ _ _ _ _ _ _ Hins) as (_ & Hc & Hd1).
  cbv zeta in Hc. apply check_users_row_Ok in Hc. simpl in Hc.
  destruct (apply_updates_version k us d1 d2
              (users.mk k tag name nic ut status_IDLE None None None None
                 (Some now) (Some now) None (Some 1) (Some now)) 1)
    as (r & Hr & Hv); [|reflexivity|exact Hups|].
  - rewrite Hd1. simpl. rewrite find_row_app, Hc. unfold find_row. simpl.
    by rewrite bool_decide_eq_true_2.
  - exists r. split; [exact Hr|]. rewrite Hv. f_equal. lia.
Qed.

(** ** Conflict resolution *)

(** C1.  For two conflicting writes of a user record made on two nodes
    (their ordinals differ), the resolver picks the write with the later
    timestamp and, when the timestamps are equal, the write of the node
    with the lower ordinal; the choice does not depend on which of the two
    writes is the local one, so the node that resolves its own write
    against the other's and the node that resolves the other way round
    select the same winner. *)
Theorem resolve_same_winner_on_both_nodes (a b : conflict.write) :
  conflict.node_ordinal a <> conflict.node_ordinal b ->
  conflict.resolve a b = conflict.resolve b a /\
  (conflict.resolve a b = a \/ conflict.resolve a b = b) /\
  (conflict.write_timestamp b < conflict.write_timestamp a ->
   conflict.resolve a b = a) /\
  (conflict.write_timestamp a < conflict.write_timestamp b ->
   conflict.resolve a b = b) /\
  (conflict.write_timestamp a = conflict.write_timestamp b ->
   conflict.node_ordinal a < conflict.node_ordinal b ->
   conflict.resolve a b = a) /\
  (conflict.write_timestamp a = conflict.write_timestamp b ->
   conflict.node_ordinal b < conflict.node_ordinal a ->
   conflict.resolve a b = b).
Proof.
  intros Hne. unfold conflict.resolve.
  destruct (Z.ltb_spec (conflict.write_timestamp b) (conflict.write_timestamp a));
    destruct (Z.ltb_spec (conflict.write_timestamp a) (conflict.write_timestamp b));
    destruct (Z.leb_spec (conflict.node_ordinal a) (conflict.node_ordinal b));
    destruct (Z.leb_spec (conflict.node_ordinal b) (conflict.node_ordinal a));
    repeat split; intros; try lia; try reflexivity; auto.
Qed.

Lemma resolve_same_winner_on_both_nodes_witness :
  conflict.node_ordinal sample.write_on_node1
    <> conflict.node_ordinal sample.write_on_node2 /\
  conflict.resolve sample.write_on_node1 sample.write_on_node2
    = sample.write_on_node1 /\
  conflict.resolve sample.write_on_node2 sample.write_on_node1
    = sample.write_on_node1.
Proof.
  assert (H : conflict.node_ordinal sample.write_on_node1
              <> conflict.node_ordinal sample.write_on_node2)
    by (simpl; lia).
  split; [exact H|].
  destruct (resolve_same_winner_on_both_nodes
              sample.write_on_node1 sample.write_on_node2 H)
    as (Hsym & _ & _ & _ & Htie & _).
  rewrite <- Hsym. split; apply Htie; simpl; try reflexivity; lia.
Defined.

(** * Further properties of the sources *)

(** ** DatabaseSync: sync_data and the cycle after *)

Lemma update_sync_timestamp_other_tables table_name NOW d m :
  sync_metadata.table_name m <> table_name ->
  In m (db.sync_metadata d) ->
  In m (db.sync_metadata (update_sync_timestamp table_name NOW d)).
Proof.
  intros Hne Hin. unfold update_sync_timestamp. simpl.
  apply in_map_iff. exists m. split; [|done].
  by rewrite bool_decide_eq_false_2.
Qed.

(** X1. [sync_data] never returns normally: [logs] has no column
    last_sync_at, so when the cycle for [users] went through, the cycle
    for [logs] is rejected by the server.  The call then ends with that
    error after the position of [users] was committed, with only the
    deliveries of [users] made, and the sync-metadata rows of [logs] are
    left as they were. *)
Theorem sync_data_stops_at_logs send self NOW :
  DatabaseSync.raised (DatabaseSync.sync_table send self tbl_users NOW) = None ->
  let o := DatabaseSync.sync_data send self NOW in
  is_Some (DatabaseSync.raised o) /\
  DatabaseSync.raised o
  = Some (DatabaseSync.mysql_connector_Error ER_BAD_FIELD_ERROR) /\
  DatabaseSync.committed o
  = update_sync_timestamp "users" NOW (DatabaseSync.local_db self) /\
  DatabaseSync.sent o
  = DatabaseSync.sent (DatabaseSync.sync_table send self tbl_users NOW) /\
  (forall m, In m (db.sync_metadata (DatabaseSync.local_db self)) ->
             sync_metadata.table_name m = "logs" ->
             In m (db.sync_metadata (DatabaseSync.committed o))).
Proof.
  intros Hok o. subst o. unfold DatabaseSync.sync_data. rewrite Hok.
  assert (Hc : DatabaseSync.committed
                 (DatabaseSync.sync_table send self tbl_users NOW)
               = update_sync_timestamp "users" NOW (DatabaseSync.local_db self)).
  { revert Hok. unfold DatabaseSync.sync_table.
    destruct (select_needs_syncing _ _) as [local_data|]; [|done].
    by destruct (DatabaseSync.send_to_nodes _ _ _ _) as [ds [e|]]. }
  unfold DatabaseSync.sync_table at 1 2 3 4. simpl.
  rewrite app_nil_r, Hc.
  split; [by eexists|]. split; [done|]. split; [done|]. split; [done|].
  intros m Hin Hm. apply update_sync_timestamp_other_tables; [|done].
  rewrite Hm. done.
Qed.

Lemma sync_data_stops_at_logs_witness :
  DatabaseSync.raised
    (DatabaseSync.sync_table sample.send_delivers
       (DatabaseSync.mk sample.rpi1 [2]) tbl_users 400) = None /\
  let o := DatabaseSync.sync_data sample.send_delivers
             (DatabaseSync.mk sample.rpi1 [2]) 400 in
  is_Some (DatabaseSync.raised o) /\
  DatabaseSync.raised o
  = Some (DatabaseSync.mysql_connector_Error ER_BAD_FIELD_ERROR) /\
  DatabaseSync.committed o = update_sync_timestamp "users" 400 sample.rpi1 /\
  DatabaseSync.sent o
  = DatabaseSync.sent
      (DatabaseSync.sync_table sample.send_delivers
         (DatabaseSync.mk sample.rpi1 [2]) tbl_users 400) /\
  (forall m, In m (db.sync_metadata sample.rpi1) ->
             sync_metadata.table_name m = "logs" ->
             In m (db.sync_metadata (DatabaseSync.committed o))).
Proof.
  split; [vm_compute; reflexivity|].
  apply (sync_data_stops_at_logs sample.send_delivers
           (DatabaseSync.mk sample.rpi1 [2]) 400).
  vm_compute; reflexivity.
Defined.

Lemma send_to_nodes_fails_at send before node after table_name local_data msg :
  (forall n, In n before -> send n table_name local_data = None) ->
  send node table_name local_data = Some msg ->
  DatabaseSync.send_to_nodes send (before ++ node :: after) table_name local_data
  = (map (fun n => (n, table_name, local_data)) before,
     Some (DatabaseSync.send_Error msg)).
Proof.
  intros Hb Hn. induction before as [|b before IH]; simpl.
  - by rewrite Hn.
  - rewrite Hb by (by left). rewrite IH; [done|].
    intros n Hin. apply Hb. by right.
Qed.

(** X2. When [send_to_node] raises for a node, [sync_table] has delivered
    the selected rows to the nodes listed before it and to none of the
    nodes listed after it, it ends with that exception, and it commits
    nothing: the next cycle sends the same rows again, also to the nodes
    that already received them. *)
Theorem sync_table_stops_at_first_failure
    send self table NOW local_data before node after msg :
  select_needs_syncing table (DatabaseSync.local_db self) = Ok local_data ->
  DatabaseSync.remote_nodes self = before ++ node :: after ->
  (forall n, In n before -> send n (table_name_of table) local_data = None) ->
  send node (table_name_of table) local_data = Some msg ->
  DatabaseSync.sync_table send self table NOW
  = DatabaseSync.mk_outcome (DatabaseSync.local_db self)
      (map (fun n => (n, table_name_of table, local_data)) before)
      (Some (DatabaseSync.send_Error msg)) /\
  select_needs_syncing table
    (DatabaseSync.committed (DatabaseSync.sync_table send self table NOW))
  = Ok local_data.
Proof.
  intros Hsel Hnodes Hb Hn.
  assert (H : DatabaseSync.sync_table send self table NOW
              = DatabaseSync.mk_outcome (DatabaseSync.local_db self)
                  (map (fun n => (n, table_name_of table, local_data)) before)
                  (Some (DatabaseSync.send_Error msg))).
  { unfold DatabaseSync.sync_table. rewrite Hsel, Hnodes.
    by rewrite (send_to_nodes_fails_at send before node after _ _ msg). }
  rewrite H. split; [done | exact Hsel].
Qed.

Lemma sync_table_stops_at_first_failure_witness :
  select_needs_syncing tbl_users sample.rpi1 = Ok [sample.nimali] /\
  DatabaseSync.sync_table sample.send_fails_at_3
    (DatabaseSync.mk sample.rpi1 [2; 3; 4]) tbl_users 400
  = DatabaseSync.mk_outcome sample.rpi1
      (map (fun n => (n, table_name_of tbl_users, [sample.nimali])) [2])
      (Some (DatabaseSync.send_Error "connection refused")) /\
  select_needs_syncing tbl_users
    (DatabaseSync.committed
       (DatabaseSync.sync_table sample.send_fails_at_3
          (DatabaseSync.mk sample.rpi1 [2; 3; 4]) tbl_users 400))
  = Ok [sample.nimali].
Proof.
  split; [vm_compute; reflexivity|].
  apply (sync_table_stops_at_first_failure sample.send_fails_at_3
           (DatabaseSync.mk sample.rpi1 [2; 3; 4]) tbl_users 400
           [sample.nimali] [2] 3 [4] "connection refused").
  - vm_compute; reflexivity.
  - reflexivity.
  - intros n [<-|[]]. reflexivity.
  - reflexivity.
Defined.

Lemma last_sync_position_None table_name d :
  Forall (fun m => sync_metadata.table_name m <> table_name)
    (db.sync_metadata d) ->
  last_sync_position table_name d = Ok None.
Proof.
  unfold last_sync_position. intros H.
  induction H as [|m l Hm _ IH]; simpl; [done|].
  by rewrite bool_decide_eq_false_2.
Qed.

Lemma update_sync_timestamp_no_row table_name NOW d :
  Forall (fun m => sync_metadata.table_name m <> table_name)
    (db.sync_metadata d) ->
  update_sync_timestamp table_name NOW d = d.
Proof.
  intros H. unfold update_sync_timestamp.
  assert (E : map (fun r =>
                     if bool_decide (sync_metadata.table_name r = table_name)
                     then sync_metadata.set_last_sync_timestamp NOW r
                     else r) (db.sync_metadata d) = db.sync_metadata d).
  { induction H as [|m l Hm _ IH]; simpl; [done|].
    by rewrite bool_decide_eq_false_2, IH. }
  rewrite E. by destruct d.
Qed.

Lemma filter_sql_gt_NULL (l : list users.row) :
  List.filter (fun r => sql_gt (users.last_sync_at r) None) l = [].
Proof.
  induction l as [|r l IH]; simpl; [done|].
  by destruct (users.last_sync_at r).
Qed.

(** X3. When sync_metadata holds no row for [users], the position read by
    the subquery is NULL and no row compares above it: [sync_table] sends
    an empty list to every remote node, its UPDATE matches no row, and the
    database is left exactly as it was, so no later cycle sends a row
    either. *)
Theorem sync_table_without_position send self NOW :
  Forall (fun m => sync_metadata.table_name m <> "users")
    (db.sync_metadata (DatabaseSync.local_db self)) ->
  (forall n, In n (DatabaseSync.remote_nodes self) -> send n "users" [] = None) ->
  select_needs_syncing tbl_users (DatabaseSync.local_db self) = Ok [] /\
  DatabaseSync.sync_table send self tbl_users NOW
  = DatabaseSync.mk_outcome (DatabaseSync.local_db self)
      (map (fun n => (n, "users", [])) (DatabaseSync.remote_nodes self)) None.
Proof.
  intros Hmeta Hsend.
  assert (Hsel : select_needs_syncing tbl_users (DatabaseSync.local_db self)
                 = Ok []).
  { simpl. rewrite last_sync_position_None by done. sql_unfold.
    by rewrite filter_sql_gt_NULL. }
  split; [exact Hsel|].
  unfold DatabaseSync.sync_table. rewrite Hsel.
  change (table_name_of tbl_users) with "users".
  rewrite send_to_nodes_delivers by done.
  by rewrite update_sync_timestamp_no_row.
Qed.

Lemma sync_table_without_position_witness :
  Forall (fun m => sync_metadata.table_name m <> "users")
    (db.sync_metadata (db.set_sync_metadata [sample.logs_meta] sample.rpi1)) /\
  DatabaseSync.sync_table sample.send_delivers
    (DatabaseSync.mk (db.set_sync_metadata [sample.logs_meta] sample.rpi1) [2; 3])
    tbl_users 400
  = DatabaseSync.mk_outcome
      (db.set_sync_metadata [sample.logs_meta] sample.rpi1)
      [(2, "users", []); (3, "users", [])] None.
Proof.
  assert (H : Forall (fun m => sync_metadata.table_name m <> "users")
                (db.sync_metadata
                   (db.set_sync_metadata [sample.logs_meta] sample.rpi1))).
  { repeat constructor. simpl. discriminate. }
  split; [exact H|].
  apply (sync_table_without_position sample.send_delivers
           (DatabaseSync.mk (db.set_sync_metadata [sample.logs_meta] sample.rpi1)
              [2; 3]) 400 H).
  reflexivity.
Defined.

Lemma last_sync_position_after_update table_name NOW d pos :
  last_sync_position table_name d = Ok (Some pos) ->
  last_sync_position table_name (update_sync_timestamp table_name NOW d)
  = Ok (Some NOW).
Proof.
  unfold last_sync_position, update_sync_timestamp. simpl.
  set (P := fun r => bool_decide (sync_metadata.table_name r = table_name)).
  set (f := fun r => if bool_decide (sync_metadata.table_name r = table_name)
                     then sync_metadata.set_last_sync_timestamp NOW r else r).
  assert (Hf : forall r, P (f r) = P r).
  { intros r. unfold P, f.
    destruct (decide (sync_metadata.table_name r = table_name)) as [e|n].
    - rewrite (bool_decide_eq_true_2 _ e). simpl.
      by rewrite bool_decide_eq_true_2.
    - by rewrite (bool_decide_eq_false_2 _ n), bool_decide_eq_false_2. }
  assert (E : forall l, List.filter P (map f l)
                        = map (sync_metadata.set_last_sync_timestamp NOW)
                            (List.filter P l)).
  { induction l as [|r l IH]; simpl; [done|]. rewrite Hf.
    destruct (P r) eqn:B; simpl; [|exact IH].
    rewrite IH. f_equal. unfold f. unfold P in B. by rewrite B. }
  rewrite E.
  destruct (List.filter P (db.sync_metadata d)) as [|m [|m' l]]; simpl; done.
Qed.

(** X4. After a cycle of [sync_table] for [users] that found one position
    and delivered to every node, the position is the time of the cycle and
    the next cycle selects exactly the rows whose last_sync_at is strictly
    above that time: a row stamped at the second of the cycle or before
    it, sent or not, is not selected again. *)
Theorem sync_table_next_cycle send self NOW pos local_data :
  last_sync_position "users" (DatabaseSync.local_db self) = Ok (Some pos) ->
  select_needs_syncing tbl_users (DatabaseSync.local_db self) = Ok local_data ->
  (forall n, In n (DatabaseSync.remote_nodes self) ->
             send n "users" local_data = None) ->
  let d' := DatabaseSync.committed
              (DatabaseSync.sync_table send self tbl_users NOW) in
  last_sync_position "users" d' = Ok (Some NOW) /\
  select_needs_syncing tbl_users d'
  = Ok (List.filter (fun r => sql_gt (users.last_sync_at r) (Some NOW))
          (db.users (DatabaseSync.local_db self))) /\
  (forall r t, In r (db.users (DatabaseSync.local_db self)) ->
               users.last_sync_at r = Some t -> t <= NOW ->
               forall rows, select_needs_syncing tbl_users d' = Ok rows ->
                            ~ In r rows).
Proof.
  intros Hpos Hsel Hsend d'.
  assert (Hd : d' = update_sync_timestamp "users" NOW (DatabaseSync.local_db self)).
  { subst d'. unfold DatabaseSync.sync_table. rewrite Hsel.
    change (table_name_of tbl_users) with "users".
    by rewrite send_to_nodes_delivers. }
  assert (Hp : last_sync_position "users" d' = Ok (Some NOW)).
  { rewrite Hd. by apply last_sync_position_after_update with (pos := pos). }
  assert (Hs : select_needs_syncing tbl_users d'
               = Ok (List.filter (fun r => sql_gt (users.last_sync_at r) (Some NOW))
                       (db.users (DatabaseSync.local_db self)))).
  { simpl. rewrite Hp. sql_unfold. by rewrite Hd. }
  split; [exact Hp|]. split; [exact Hs|].
  intros r t Hin Ht Hle rows Hrows Hr.
  rewrite Hs in Hrows. injection Hrows as <-.
  apply filter_In in Hr as [_ Hgt]. rewrite Ht in Hgt. simpl in Hgt.
  apply Z.ltb_lt in Hgt. lia.
Qed.

Lemma sync_table_next_cycle_witness :
  last_sync_position "users" sample.rpi1 = Ok (Some 120) /\
  select_needs_syncing tbl_users sample.rpi1 = Ok [sample.nimali] /\
  let d' := DatabaseSync.committed
              (DatabaseSync.sync_table sample.send_delivers
                 (DatabaseSync.mk sample.rpi1 [2]) tbl_users 150) in
  last_sync_position "users" d' = Ok (Some 150) /\
  select_needs_syncing tbl_users d'
  = Ok (List.filter (fun r => sql_gt (users.last_sync_at r) (Some 150))
          (db.users sample.rpi1)) /\
  (forall r t, In r (db.users sample.rpi1) ->
               users.last_sync_at r = Some t -> t <= 150 ->
               forall rows, select_needs_syncing tbl_users d' = Ok rows ->
                            ~ In r rows).
Proof.
  split; [vm_compute; reflexivity|]. split; [vm_compute; reflexivity|].
  apply (sync_table_next_cycle sample.send_delivers
           (DatabaseSync.mk sample.rpi1 [2]) 150 120 [sample.nimali]).
  - vm_compute; reflexivity.
  - vm_compute; reflexivity.
  - reflexivity.
Defined.

(** ** The constraints of users over runs *)

Lemma check_users_row_inv NEW others :
  check_users_row NEW others = Ok tt ->
  (exists v, users.version NEW = Some v /\ in_INT_range v = true /\
             in_INT_range (users.id NEW) = true) /\
  (users.id NEW ∉ map users.id others) /\
  (users.rfid_tag NEW ∉ map users.rfid_tag others).
Proof.
  unfold check_users_row. destruct (users.version NEW) as [v|]; [|done].
  destruct (in_INT_range v) eqn:E1; simpl; [|done].
  destruct (in_INT_range (users.id NEW)) eqn:E2; simpl; [|done].
  destruct (existsb _ others) eqn:E3; [done|].
  destruct (existsb _ others) eqn:E4 in |- *; [done|].
  intros _. split; [by exists v|]. split.
  - intros Hin. apply list_elem_of_fmap in Hin as (r & Hr & Hin).
    rewrite <- not_true_iff_false in E3. apply E3, existsb_exists.
    exists r. split; [by apply list_elem_of_In|].
    by apply bool_decide_eq_true.
  - intros Hin. apply list_elem_of_fmap in Hin as (r & Hr & Hin).
    rewrite <- not_true_iff_false in E4. apply E4, existsb_exists.
    exists r. split; [by apply list_elem_of_In|].
    by apply bool_decide_eq_true.
Qed.

Lemma NoDup_map_snoc {A B : Type} (f : A -> B) (l : list A) (x : A) :
  NoDup (map f l) -> f x ∉ map f l -> NoDup (map f (l ++ [x])).
Proof.
  intros Hl Hx. rewrite map_app. simpl. apply NoDup_app.
  split; [done|]. split; [|apply NoDup_singleton].
  intros y Hy Hy'. apply list_elem_of_singleton in Hy'. by subst.
Qed.

Lemma NoDup_map_delete_row {B : Type} (f : users.row -> B) k (l : list users.row) :
  NoDup (map f l) -> NoDup (map f (delete_row users.id k l)).
Proof.
  unfold delete_row. induction l as [|r l IH]; simpl; [done|].
  intros H. apply NoDup_cons in H as [Hr Hl].
  destruct (bool_decide (users.id r = k)); simpl; [by apply IH|].
  apply NoDup_cons. split; [|by apply IH].
  intros Hin. apply Hr.
  apply list_elem_of_fmap in Hin as (r' & -> & Hin).
  apply list_elem_of_fmap. exists r'. split; [done|].
  apply list_elem_of_In, filter_In in Hin as [Hin _].
  by apply list_elem_of_In.
Qed.

Lemma map_id_replace_row k NEW (l : list users.row) :
  users.id NEW = k ->
  map users.id (replace_row users.id k NEW l) = map users.id l.
Proof.
  intros HN. unfold replace_row. induction l as [|r l IH]; simpl; [done|].
  rewrite IH. f_equal. destruct (bool_decide (users.id r = k)) eqn:E; [|done].
  apply bool_decide_eq_true in E. congruence.
Qed.

Lemma replace_row_no_key k NEW (l : list users.row) :
  k ∉ map users.id l -> replace_row users.id k NEW l = l.
Proof.
  unfold replace_row. induction l as [|r l IH]; simpl; [done|].
  intros H. apply not_elem_of_cons in H as [Hr Hl].
  rewrite IH by done. by rewrite bool_decide_eq_false_2 by congruence.
Qed.

Lemma other_rows_no_key_id k (l : list users.row) :
  k ∉ map users.id l -> other_rows users.id k l = l.
Proof.
  unfold other_rows, delete_row. induction l as [|r l IH]; simpl; [done|].
  intros H. apply not_elem_of_cons in H as [Hr Hl].
  rewrite IH by done. by rewrite bool_decide_eq_false_2 by congruence.
Qed.

Lemma NoDup_tags_replace_row k NEW (l : list users.row) :
  NoDup (map users.id l) ->
  NoDup (map users.rfid_tag l) ->
  users.rfid_tag NEW ∉ map users.rfid_tag (other_rows users.id k l) ->
  NoDup (map users.rfid_tag (replace_row users.id k NEW l)).
Proof.
  induction l as [|r l IH]; simpl; [done|].
  intros Hid Htag Hnew.
  apply NoDup_cons in Hid as [Hr Hid]. apply NoDup_cons in Htag as [Ht Htag].
  unfold other_rows, delete_row in Hnew. simpl in Hnew.
  destruct (bool_decide (users.id r = k)) eqn:E; simpl in Hnew |- *.
  - apply bool_decide_eq_true in E. subst k.
    fold (delete_row users.id (users.id r) l) in Hnew.
    fold (other_rows users.id (users.id r) l) in Hnew.
    rewrite other_rows_no_key_id in Hnew by done.
    fold (replace_row users.id (users.id r) NEW l).
    rewrite replace_row_no_key by done.
    by apply NoDup_cons.
  - fold (delete_row users.id k l) in Hnew.
    fold (other_rows users.id k l) in Hnew.
    apply not_elem_of_cons in Hnew as [Hne Hnew].
    fold (replace_row users.id k NEW l).
    apply NoDup_cons. split; [|by apply IH].
    intros Hin. apply list_elem_of_fmap in Hin as (r' & Hr' & Hin).
    unfold replace_row in Hin.
    apply list_elem_of_fmap in Hin as (r0 & -> & Hin).
    destruct (bool_decide (users.id r0 = k)); [congruence|].
    apply Ht. apply list_elem_of_fmap. by exists r0.
Qed.

Lemma Forall_replace_row {R : Type} (key : R -> Z) (P : R -> Prop) k NEW l :
  P NEW -> Forall P l -> Forall P (replace_row key k NEW l).
Proof.
  intros HN Hl. unfold replace_row. apply Forall_map.
  eapply Forall_impl; [exact Hl|]. intros r Hr. simpl.
  by destruct (bool_decide (key r = k)).
Qed.

Lemma Forall_delete_row {R : Type} (key : R -> Z) (P : R -> Prop) k l :
  Forall P l -> Forall P (delete_row key k l).
Proof.
  intros Hl. unfold delete_row. rewrite Forall_forall in Hl.
  apply Forall_forall. intros r Hr.
  apply list_elem_of_In, filter_In in Hr as [Hr _].
  by apply Hl, list_elem_of_In.
Qed.

Lemma execute_users_constraints s d d' :
  users_constraints d -> execute s d = Ok d' -> users_constraints d'.
Proof.
  intros (Hid & Htag & Hv) Hex.
  destruct s as [tag name nic ut now|NEW|k SET now|k|NEW|k SET];
    simpl in Hex.
  - destruct (insert_users _ _ _ _ _ _) as [[k d1]|] eqn:H; [|done].
    injection Hex as <-. apply insert_users_Ok in H as (_ & Hc & ->).
    cbv zeta in Hc. apply check_users_row_inv in Hc as (HvN & HidN & HtagN).
    repeat split; simpl.
    + by apply NoDup_map_snoc.
    + by apply NoDup_map_snoc.
    + apply Forall_app. split; [done|]. by constructor.
  - apply insert_users_row_Ok in Hex as (Hc & ->).
    apply check_users_row_inv in Hc as (HvN & HidN & HtagN).
    repeat split; simpl.
    + by apply NoDup_map_snoc.
    + by apply NoDup_map_snoc.
    + apply Forall_app. split; [done|]. by constructor.
  - destruct (find_row users.id k (db.users d)) as [OLD|] eqn:Hf.
    + destruct (update_users_Ok _ _ _ _ _ _ Hf Hex) as (Hc & Htrg).
      cbv zeta in Hc, Htrg.
      apply users_sync_trigger_Ok in Htrg as (q & _ & ->).
      apply check_users_row_inv in Hc as (HvN & _ & HtagN).
      repeat split; simpl.
      * by rewrite map_id_replace_row.
      * by apply NoDup_tags_replace_row.
      * by apply Forall_replace_row.
    + rewrite update_users_absent in Hex by done. by injection Hex as <-.
  - injection Hex as <-. repeat split; simpl.
    + by apply NoDup_map_delete_row.
    + by apply NoDup_map_delete_row.
    + by apply Forall_delete_row.
  - destruct (insert_logs _ _) as [[k d1]|] eqn:H; [|done].
    injection Hex as <-. by apply insert_logs_Ok in H as (_ & ->).
  - destruct (find_row logs.id k (db.logs d)) as [OLD|] eqn:Hf.
    + by destruct (update_logs_effect _ _ _ _ _ Hf Hex) as (_ & _ & Hu & _);
        unfold users_constraints; rewrite Hu.
    + rewrite update_logs_absent in Hex by done. by injection Hex as <-.
Qed.

Lemma NoDup_map_eq {A B : Type} (f : A -> B) (l : list A) x y :
  NoDup (map f l) -> In x l -> In y l -> f x = f y -> x = y.
Proof.
  induction l as [|a l IH]; simpl; [done|].
  intros H Hx Hy Hf. apply NoDup_cons in H as [Ha Hl].
  destruct Hx as [<-|Hx], Hy as [<-|Hy]; try done.
  - exfalso. apply Ha. rewrite Hf. apply list_elem_of_fmap.
    exists y. split; [done | by apply list_elem_of_In].
  - exfalso. apply Ha. rewrite <- Hf. apply list_elem_of_fmap.
    exists x. split; [done | by apply list_elem_of_In].
  - by apply IH.
Qed.

(** X6. The constraints that the schema declares on [users] hold along
    every run: from a database in which the keys are distinct, the tags
    are distinct and every version is a non-NULL INT, any sequence of
    statements, accepted or rejected, leads to a database of the same
    kind; so in every database reached, an rfid_tag is carried by at most
    one user and a key names at most one user. *)
Theorem run_keeps_users_constraints ss d :
  users_constraints d ->
  users_constraints (run ss d) /\
  (forall r1 r2, In r1 (db.users (run ss d)) -> In r2 (db.users (run ss d)) ->
                 users.rfid_tag r1 = users.rfid_tag r2 -> r1 = r2) /\
  (forall r1 r2, In r1 (db.users (run ss d)) -> In r2 (db.users (run ss d)) ->
                 users.id r1 = users.id r2 -> r1 = r2).
Proof.
  intros H.
  assert (K : users_constraints (run ss d)).
  { revert d H. induction ss as [|s ss IH]; intros d H; simpl; [done|].
    apply IH. unfold step. destruct (execute s d) as [d'|] eqn:Hex; [|done].
    by apply execute_users_constraints with (s := s) (d := d). }
  split; [exact K|]. destruct K as (Kid & Ktag & _). split.
  - intros r1 r2. by apply NoDup_map_eq.
  - intros r1 r2. by apply NoDup_map_eq.
Qed.

Lemma sample_rpi1_users_constraints : users_constraints sample.rpi1.
Proof.
  repeat split.
  - apply (bool_decide_unpack _). vm_compute. exact I.
  - apply (bool_decide_unpack _). vm_compute. exact I.
  - repeat constructor; by eexists.
Qed.

Lemma run_keeps_users_constraints_witness :
  users_constraints sample.rpi1 /\
  users_constraints (run sample.rpi1_run sample.rpi1) /\
  (forall r1 r2, In r1 (db.users (run sample.rpi1_run sample.rpi1)) ->
                 In r2 (db.users (run sample.rpi1_run sample.rpi1)) ->
                 users.rfid_tag r1 = users.rfid_tag r2 -> r1 = r2) /\
  (forall r1 r2, In r1 (db.users (run sample.rpi1_run sample.rpi1)) ->
                 In r2 (db.users (run sample.rpi1_run sample.rpi1)) ->
                 users.id r1 = users.id r2 -> r1 = r2).
Proof.
  split; [exact sample_rpi1_users_constraints|].
  apply (run_keeps_users_constraints sample.rpi1_run sample.rpi1).
  exact sample_rpi1_users_constraints.
Defined.

(** ** The foreign key of logs over runs *)







(** ** The AUTO_INCREMENT counter of users over runs *)

Lemma generate_id_above ai c k :
  1 <= auto_increment_offset c <= auto_increment_increment c ->
  generate_id ai c = Ok k -> ai <= k.
Proof.
  intros Hc Hg. apply generate_id_Ok in Hg as [-> _].
  pose proof (compute_next_insert_id_above (ai - 1) c Hc). lia.
Qed.

Lemma execute_users_counter s d d' :
  1 <= auto_increment_offset (db.cnf d) <= auto_increment_increment (db.cnf d) ->
  users_keys_below_counter d ->
  execute s d = Ok d' ->
  users_keys_below_counter d' /\
  db.users_AUTO_INCREMENT d <= db.users_AUTO_INCREMENT d'.
Proof.
  intros Hc H Hex. unfold users_keys_below_counter in *.
  destruct s as [tag name nic ut now|NEW|k SET now|k|NEW|k SET];
    simpl in Hex.
  - destruct (insert_users _ _ _ _ _ _) as [[k d1]|] eqn:Hi; [|done].
    injection Hex as <-. apply insert_users_Ok in Hi as (Hg & _ & ->).
    apply generate_id_above in Hg; [|done]. simpl. split; [|lia].
    apply Forall_app. split; [|constructor; [simpl; lia | done]].
    eapply Forall_impl; [exact H|]. intros r Hr. simpl in *. lia.
  - apply insert_users_row_Ok in Hex as (_ & ->). simpl. split; [|lia].
    apply Forall_app. split; [|constructor; [simpl; lia | done]].
    eapply Forall_impl; [exact H|]. intros r Hr. simpl in *. lia.
  - destruct (find_row users.id k (db.users d)) as [OLD|] eqn:Hf.
    + destruct (update_users_Ok _ _ _ _ _ _ Hf Hex) as (_ & Htrg).
      apply users_sync_trigger_Ok in Htrg as (q & _ & ->). simpl.
      split; [|lia]. apply Forall_replace_row; [|done]. simpl.
      rewrite Forall_forall in H.
      pose proof (find_row_key _ _ _ _ Hf) as <-.
      apply H, list_elem_of_In. exact (find_row_In _ _ _ _ Hf).
    + rewrite update_users_absent in Hex by done. injection Hex as <-.
      split; [done | lia].
  - injection Hex as <-. simpl. split; [|lia]. by apply Forall_delete_row.
  - destruct (insert_logs _ _) as [[k d1]|] eqn:Hi; [|done].
    injection Hex as <-. apply insert_logs_Ok in Hi as (_ & ->). simpl.
    split; [done | lia].
  - destruct (find_row logs.id k (db.logs d)) as [OLD|] eqn:Hf.
    + revert Hex. unfold update_logs. rewrite Hf. sql_unfold.
      match goal with |- context [if ?b then _ else _] => destruct b end;
        [|destruct (check_fk_logs_user _ _) as [[]|]; [|done]];
        intros [= <-]; simpl; (split; [done | lia]).
    + rewrite update_logs_absent in Hex by done. injection Hex as <-.
      split; [done | lia].
Qed.

Lemma generated_users_key_of_above s d k :
  1 <= auto_increment_offset (db.cnf d) <= auto_increment_increment (db.cnf d) ->
  In ("users", k) (generated_keys_of s d) ->
  db.users_AUTO_INCREMENT d <= k.
Proof.
  intros Hc. destruct s as [tag name nic ut now|NEW|k0 SET now|k0|NEW|k0 SET];
    simpl; try done.
  - destruct (insert_users _ _ _ _ _ _) as [[k1 d1]|] eqn:Hi; [|done].
    intros [[= <-]|[]]. apply insert_users_Ok in Hi as (Hg & _).
    by apply generate_id_above in Hg.
  - intros Hin. apply in_map_iff in Hin as (e & [=] & _).
  - destruct (insert_logs _ _) as [[k1 d1]|]; [|done]. by intros [[=]|[]].
Qed.

Lemma run_users_counter ss d :
  1 <= auto_increment_offset (db.cnf d) <= auto_increment_increment (db.cnf d) ->
  users_keys_below_counter d ->
  users_keys_below_counter (run ss d) /\
  (forall k, In ("users", k) (generated_keys ss d) ->
             db.users_AUTO_INCREMENT d <= k).
Proof.
  revert d. induction ss as [|s ss IH]; intros d Hc H; simpl; [done|].
  assert (Hs : users_keys_below_counter (step d s) /\
               db.users_AUTO_INCREMENT d <= db.users_AUTO_INCREMENT (step d s)).
  { unfold step. destruct (execute s d) as [d'|] eqn:Hex; [|split; [done|lia]].
    by apply execute_users_counter with (s := s). }
  destruct Hs as [Hs Hle].
  destruct (IH (step d s)) as [IH1 IH2]; [by rewrite step_cnf | done |].
  split; [exact IH1|].
  intros k Hin. apply in_app_or in Hin as [Hin|Hin].
  - by apply generated_users_key_of_above with (s := s).
  - specialize (IH2 k Hin). lia.
Qed.

(** X8. With the offset within 1..increment, as the guide sets it, the
    AUTO_INCREMENT counter of [users] stays above every stored key along
    every run, rows copied from other nodes included, and every key the
    node generates for [users] is larger than every key that was in the
    table when the run began: a generated key never collides with a stored
    row. *)
Theorem generated_users_keys_are_fresh ss d :
  1 <= auto_increment_offset (db.cnf d) <= auto_increment_increment (db.cnf d) ->
  users_keys_below_counter d ->
  users_keys_below_counter (run ss d) /\
  (forall k r, In ("users", k) (generated_keys ss d) ->
               In r (db.users d) -> users.id r < k).
Proof.
  intros Hc H. destruct (run_users_counter ss d Hc H) as [H1 H2].
  split; [exact H1|]. intros k r Hk Hr. specialize (H2 k Hk).
  unfold users_keys_below_counter in H. rewrite Forall_forall in H.
  apply list_elem_of_In in Hr. specialize (H r Hr). simpl in H. lia.
Qed.

Lemma generated_users_keys_are_fresh_witness :
  users_keys_below_counter sample.rpi1 /\
  users_keys_below_counter (run sample.rpi1_run sample.rpi1) /\
  (forall k r, In ("users", k) (generated_keys sample.rpi1_run sample.rpi1) ->
               In r (db.users sample.rpi1) -> users.id r < k).
Proof.
  assert (H : users_keys_below_counter sample.rpi1).
  { repeat constructor. }
  split; [exact H|].
  apply (generated_users_keys_are_fresh sample.rpi1_run sample.rpi1);
    [simpl; lia | exact H].
Defined.

(** ** Bounds of the version *)

Lemma inserted_user_version_counts_mutations_witness :
  insert_users "RFID_TEST_001" (Some "Alice Test") None Common 500 sample.rpi1
  = Ok (5, sample.rpi1_after_insert) /\
  apply_updates 5 sample.two_updates sample.rpi1_after_insert
  = Ok sample.alice_after_two_updates /\
  exists r,
    find_row users.id 5 (db.users sample.alice_after_two_updates) = Some r /\
    users.version r = Some (Z.of_nat (1 + length sample.two_updates)).
Proof.
  split; [vm_compute; reflexivity|]. split; [vm_compute; reflexivity|].
  apply (inserted_user_version_counts_mutations
           "RFID_TEST_001" (Some "Alice Test") None Common 500 sample.rpi1 5
           sample.rpi1_after_insert sample.two_updates
           sample.alice_after_two_updates);
    vm_compute; reflexivity.
Defined.

(** X10. A user whose version has reached the largest INT can no longer
    be updated: the trigger computes the version plus one, the value does
    not fit the column, and the server rejects the statement, whatever it
    assigns. *)
Theorem update_users_at_INT_MAX k SET now d OLD :
  find_row users.id k (db.users d) = Some OLD ->
  users.version OLD = Some INT_MAX ->
  update_users k SET now d = Err ER_WARN_DATA_OUT_OF_RANGE.
Proof.
  intros Hf Hv. unfold update_users. rewrite Hf. sql_unfold.
  unfold check_users_row. simpl. rewrite Hv. reflexivity.
Qed.

Lemma update_users_at_INT_MAX_witness :
  update_users 1 (users.set_status status_In) 200
    (db.set_users [users.set_version (Some INT_MAX) sample.kasun] 4 sample.rpi1)
  = Err ER_WARN_DATA_OUT_OF_RANGE.
Proof.
  apply (update_users_at_INT_MAX 1 (users.set_status status_In) 200
           (db.set_users [users.set_version (Some INT_MAX) sample.kasun] 4
              sample.rpi1)
           (users.set_version (Some INT_MAX) sample.kasun));
    reflexivity.
Defined.

(** ** The page bar of the dashboard *)

Lemma push_range_4 a b :
  b = a + 3 ->
  dashboard.push_range a b
  = [dashboard.page_number a; dashboard.page_number (a + 1);
     dashboard.page_number (a + 2); dashboard.page_number (a + 3)].
Proof.
  intros ->. unfold dashboard.push_range.
  replace (a + 3 - a + 1) with 4 by lia.
  do 4 (rewrite seqZ_cons by lia). rewrite seqZ_nil by lia. simpl.
  repeat f_equal; lia.
Qed.

Lemma push_range_3 a b :
  b = a + 2 ->
  dashboard.push_range a b
  = [dashboard.page_number a; dashboard.page_number (a + 1);
     dashboard.page_number (a + 2)].
Proof.
  intros ->. unfold dashboard.push_range.
  replace (a + 2 - a + 1) with 3 by lia.
  do 3 (rewrite seqZ_cons by lia). rewrite seqZ_nil by lia. simpl.
  repeat f_equal; lia.
Qed.

(** The page bar, case by case. *)
Lemma getPageNumbers_cases cur total :
  1 <= cur <= total ->
  (total <= 5 /\
   dashboard.getPageNumbers cur total
   = map dashboard.page_number (seqZ 1 total)) \/
  (5 < total /\ cur <= 3 /\
   dashboard.getPageNumbers cur total
   = [dashboard.page_number 1; dashboard.page_number 2;
      dashboard.page_number 3; dashboard.page_number 4;
      dashboard.ellipsis; dashboard.page_number total]) \/
  (5 < total /\ 3 < cur /\ total - 2 <= cur /\
   dashboard.getPageNumbers cur total
   = [dashboard.page_number 1; dashboard.ellipsis;
      dashboard.page_number (total - 3); dashboard.page_number (total - 2);
      dashboard.page_number (total - 1); dashboard.page_number total]) \/
  (5 < total /\ 3 < cur /\ cur < total - 2 /\
   dashboard.getPageNumbers cur total
   = [dashboard.page_number 1; dashboard.ellipsis;
      dashboard.page_number (cur - 1); dashboard.page_number cur;
      dashboard.page_number (cur + 1); dashboard.ellipsis;
      dashboard.page_number total]).
Proof.
  intros Hc. unfold dashboard.getPageNumbers.
  destruct (Z.leb_spec total 5) as [H5|H5].
  { left. split; [done|]. unfold dashboard.push_range.
    by replace (total - 1 + 1) with total by lia. }
  right. destruct (Z.leb_spec cur 3) as [H3|H3].
  { left. split; [lia|]. split; [done|].
    rewrite (push_range_4 1 4) by lia. reflexivity. }
  right. destruct (Z.leb_spec (total - 2) cur) as [H2|H2].
  { left. split; [lia|]. split; [lia|]. split; [done|].
    rewrite (push_range_4 (total - 3) total) by lia. simpl.
    repeat f_equal; lia. }
  right. split; [lia|]. split; [lia|]. split; [lia|].
  rewrite (push_range_3 (cur - 1) (cur + 1)) by lia. simpl.
  replace (cur - 1 + 1) with cur by lia.
  by replace (cur - 1 + 2) with (cur + 1) by lia.
Qed.

Lemma numbers_of_page_numbers l :
  dashboard.numbers_of (map dashboard.page_number l) = l.
Proof.
  unfold dashboard.numbers_of. induction l as [|x l IH]; [done|].
  simpl. unfold omap in *. simpl. by rewrite IH.
Qed.

(** The numbers on the page bar are pages that exist. *)
Lemma getPageNumbers_in_range cur total n :
  1 <= cur <= total ->
  In n (dashboard.numbers_of (dashboard.getPageNumbers cur total)) ->
  1 <= n <= total.
Proof.
  intros Hc.
  destruct (getPageNumbers_cases cur total Hc)
    as [(H5 & ->)|[(H5 & H3 & ->)|[(H5 & H3 & H2 & ->)|(H5 & H3 & H2 & ->)]]].
  - rewrite numbers_of_page_numbers. intros Hin.
    apply list_elem_of_In, elem_of_seqZ in Hin. lia.
  - cbn. intros Hin. repeat (destruct Hin as [<-|Hin]; [lia|]). done.
  - cbn. intros Hin. repeat (destruct Hin as [<-|Hin]; [lia|]). done.
  - cbn. intros Hin. repeat (destruct Hin as [<-|Hin]; [lia|]). done.
Qed.

Lemma StronglySorted_seqZ m n : StronglySorted Z.lt (seqZ m n).
Proof.
  destruct (Z.le_gt_cases n 0) as [Hn|Hn]; [rewrite seqZ_nil by done; constructor|].
  rewrite <- (Z2Nat.id n) by lia. generalize (Z.to_nat n). clear. intros k.
  revert m. induction k as [|k IH]; intros m.
  - rewrite seqZ_nil by done. constructor.
  - rewrite seqZ_cons by lia. constructor.
    + replace (Z.pred (Z.of_nat (S k))) with (Z.of_nat k) by lia. apply IH.
    + apply Forall_forall. intros x Hx. apply elem_of_seqZ in Hx. lia.
Qed.

(** X11. For a current page within 1..totalPages, the page bar built by
    [getPageNumbers] shows at most seven entries; its numbers are strictly
    increasing pages within 1..totalPages; they include the first page,
    the last page and the current page; and up to five pages the bar
    lists every page and no ellipsis. *)
Theorem getPageNumbers_bar cur total :
  1 <= cur <= total ->
  let bar := dashboard.getPageNumbers cur total in
  (length bar <= 7)%nat /\
  StronglySorted Z.lt (dashboard.numbers_of bar) /\
  Forall (fun n => 1 <= n <= total) (dashboard.numbers_of bar) /\
  head bar = Some (dashboard.page_number 1) /\
  last bar = Some (dashboard.page_number total) /\
  In cur (dashboard.numbers_of bar) /\
  (total <= 5 -> bar = map dashboard.page_number (seqZ 1 total)).
Proof.
  intros Hc bar.
  assert (Hrange : Forall (fun n => 1 <= n <= total) (dashboard.numbers_of bar)).
  { apply Forall_forall. intros n Hn.
    apply (getPageNumbers_in_range cur total n Hc). by apply list_elem_of_In. }
  subst bar.
  destruct (getPageNumbers_cases cur total Hc)
    as [(H5 & E)|[(H5 & H3 & E)|[(H5 & H3 & H2 & E)|(H5 & H3 & H2 & E)]]];
    rewrite E in *; clear E.
  - rewrite numbers_of_page_numbers in *. rewrite length_map, length_seqZ.
    split; [lia|]. split; [apply StronglySorted_seqZ|]. split; [done|].
    assert (Ht : total = 1 \/ total = 2 \/ total = 3 \/ total = 4 \/ total = 5)
      by lia.
    split; [|split; [|split]].
    + destruct Ht as [->|[->|[->|[->| ->]]]]; reflexivity.
    + destruct Ht as [->|[->|[->|[->| ->]]]]; reflexivity.
    + apply list_elem_of_In, elem_of_seqZ. lia.
    + done.
  - cbn. split; [lia|]. split.
    { repeat (constructor; [|repeat constructor; lia]). constructor. }
    split; [done|]. split; [done|]. split; [done|]. split; [|lia].
    assert (cur = 1 \/ cur = 2 \/ cur = 3) as [->|[->| ->]] by lia; tauto.
  - cbn. split; [lia|]. split.
    { repeat (constructor; [|repeat constructor; lia]). constructor. }
    split; [done|]. split; [done|]. split; [done|]. split; [|lia].
    assert (cur = total - 2 \/ cur = total - 1 \/ cur = total)
      as [->|[->| ->]] by lia; tauto.
  - cbn. split; [lia|]. split.
    { repeat (constructor; [|repeat constructor; lia]). constructor. }
    split; [done|]. split; [done|]. split; [done|]. split; [tauto | lia].
Qed.

Lemma getPageNumbers_bar_witness :
  let bar := dashboard.getPageNumbers 7 20 in
  bar = [dashboard.page_number 1; dashboard.ellipsis; dashboard.page_number 6;
         dashboard.page_number 7; dashboard.page_number 8; dashboard.ellipsis;
         dashboard.page_number 20] /\
  (length bar <= 7)%nat /\
  StronglySorted Z.lt (dashboard.numbers_of bar) /\
  Forall (fun n => 1 <= n <= 20) (dashboard.numbers_of bar) /\
  head bar = Some (dashboard.page_number 1) /\
  last bar = Some (dashboard.page_number 20) /\
  In 7 (dashboard.numbers_of bar) /\
  (20 <= 5 -> bar = map dashboard.page_number (seqZ 1 20)).
Proof.
  intros bar. split; [reflexivity|].
  apply (getPageNumbers_bar 7 20). lia.
Defined.

Lemma on_click_in_range total cur c :
  1 <= cur <= total -> 1 <= dashboard.on_click total cur c <= total.
Proof.
  intros Hc. destruct c as [| |i]; simpl.
  - unfold dashboard.handlePreviousPage. destruct (Z.ltb_spec 1 cur); lia.
  - unfold dashboard.handleNextPage. destruct (Z.ltb_spec cur total); lia.
  - destruct (dashboard.getPageNumbers cur total !! i) as [[n|]|] eqn:E;
      [|done..].
    unfold dashboard.handlePageChange.
    apply (getPageNumbers_in_range cur total n Hc).
    apply list_elem_of_In. unfold dashboard.numbers_of.
    apply list_elem_of_omap. exists (dashboard.page_number n).
    split; [|done]. by apply list_elem_of_lookup_2 in E.
Qed.

(** X12. While the list of logs is unchanged, no sequence of clicks on
    Previous, Next and the numbers of the page bar leads outside the pages
    1..totalPages: Previous stops at page 1, Next stops at the last page,
    and every number on the bar is a page that exists. *)
Theorem clicks_stay_on_existing_pages total cur clicks :
  1 <= cur <= total ->
  1 <= fold_left (dashboard.on_click total) clicks cur <= total /\
  dashboard.on_click total 1 dashboard.click_Previous = 1 /\
  dashboard.on_click total total dashboard.click_Next = total.
Proof.
  intros Hc. split.
  - revert cur Hc. induction clicks as [|c clicks IH]; intros cur Hc; simpl.
    + done.
    + apply IH. by apply on_click_in_range.
  - split; simpl.
    + reflexivity.
    + unfold dashboard.handleNextPage. by rewrite Z.ltb_irrefl.
Qed.

Lemma clicks_stay_on_existing_pages_witness :
  fold_left (dashboard.on_click 20)
    [dashboard.click_Next; dashboard.click_entry 5; dashboard.click_Next;
     dashboard.click_Previous; dashboard.click_entry 2] 1 = 17 /\
  1 <= fold_left (dashboard.on_click 20)
         [dashboard.click_Next; dashboard.click_entry 5; dashboard.click_Next;
          dashboard.click_Previous; dashboard.click_entry 2] 1 <= 20.
Proof.
  split; [vm_compute; reflexivity|].
  apply (clicks_stay_on_existing_pages 20 1
           [dashboard.click_Next; dashboard.click_entry 5; dashboard.click_Next;
            dashboard.click_Previous; dashboard.click_entry 2]).
  lia.
Defined.

(** ** The pages of the log table *)

Lemma slice_window {A : Type} (l : list A) s n :
  0 <= s -> 0 <= n ->
  dashboard.slice l s (s + n) = take (Z.to_nat n) (drop (Z.to_nat s) l).
Proof.
  intros Hs Hn. unfold dashboard.slice.
  destruct (Z.ltb_spec s 0); [lia|]. destruct (Z.ltb_spec (s + n) 0); [lia|].
  destruct (Z.le_gt_cases s (Z.of_nat (length l))) as [Hle|Hgt].
  - rewrite (Z.min_l s) by lia.
    destruct (Z.le_gt_cases (s + n) (Z.of_nat (length l))) as [Hle'|Hgt'].
    + rewrite (Z.min_l (s + n)) by lia. f_equal. lia.
    + rewrite (Z.min_r (s + n)) by lia.
      rewrite !take_ge; [done|rewrite length_drop; lia..].
  - rewrite (Z.min_r s), (Z.min_r (s + n)) by lia.
    rewrite !drop_ge by lia. by rewrite !take_nil.
Qed.

Lemma chunks_concat {A : Type} (l : list A) b n :
  concat (map (fun i => take b (drop (i * b) l)) (seq 0 n)) = take (n * b) l.
Proof.
  induction n as [|n IH]; [done|].
  rewrite seq_S, map_app, concat_app, IH. simpl.
  rewrite app_nil_r, take_take_drop. f_equal. lia.
Qed.

Lemma totalPages_bounds totalItems itemsPerPage :
  0 < itemsPerPage -> 0 <= totalItems ->
  let T := dashboard.totalPages totalItems itemsPerPage in
  0 <= T /\ (T - 1) * itemsPerPage < totalItems <= T * itemsPerPage.
Proof.
  intros Hi Ht. unfold dashboard.totalPages.
  pose proof (Z.div_mod (- totalItems) itemsPerPage ltac:(lia)) as Hd.
  pose proof (Z.mod_pos_bound (- totalItems) itemsPerPage Hi) as Hm.
  cbv zeta. nia.
Qed.

Lemma currentPageData_chunk {A : Type} (l : list A) itemsPerPage i :
  0 < itemsPerPage ->
  dashboard.currentPageData l (Z.of_nat i + 1) itemsPerPage
  = take (Z.to_nat itemsPerPage) (drop (i * Z.to_nat itemsPerPage) l).
Proof.
  intros Hi. unfold dashboard.currentPageData, dashboard.endIndex,
    dashboard.startIndex.
  rewrite slice_window by nia. do 2 f_equal. nia.
Qed.

(** X13. With a positive page size, the pages 1..totalPages of the log
    table are the listed logs cut into consecutive pieces: joined in order
    they give back the list, every one of them holds at least one and at
    most itemsPerPage logs, a page after the last one is empty, and there
    is no page exactly when there is no log. *)
Theorem pages_partition_the_logs {A : Type} (logs : list A) itemsPerPage :
  0 < itemsPerPage ->
  let T := dashboard.totalPages (Z.of_nat (length logs)) itemsPerPage in
  concat (map (fun p => dashboard.currentPageData logs p itemsPerPage)
            (seqZ 1 T)) = logs /\
  (forall p, 1 <= p <= T ->
             dashboard.currentPageData logs p itemsPerPage <> [] /\
             Z.of_nat (length (dashboard.currentPageData logs p itemsPerPage))
             <= itemsPerPage) /\
  (forall p, T < p -> dashboard.currentPageData logs p itemsPerPage = []) /\
  (T = 0 <-> logs = []).
Proof.
  intros Hi T.
  destruct (totalPages_bounds (Z.of_nat (length logs)) itemsPerPage Hi
              ltac:(lia)) as (HT0 & Hlo & Hhi).
  fold T in HT0, Hlo, Hhi.
  assert (Hpage : forall p, 1 <= p ->
            dashboard.currentPageData logs p itemsPerPage
            = take (Z.to_nat itemsPerPage)
                (drop (Z.to_nat (p - 1) * Z.to_nat itemsPerPage) logs)).
  { intros p Hp. replace p with (Z.of_nat (Z.to_nat (p - 1)) + 1) at 1 by lia.
    by apply currentPageData_chunk. }
  split; [|split; [|split]].
  - unfold seqZ. rewrite <- list_fmap_compose.
    erewrite (map_ext _ (fun i => take (Z.to_nat itemsPerPage)
                                    (drop (i * Z.to_nat itemsPerPage) logs))).
    + rewrite chunks_concat. apply take_ge. nia.
    + intros i. simpl. replace (1 + Z.of_nat i) with (Z.of_nat i + 1) by lia.
      by apply currentPageData_chunk.
  - intros p Hp. rewrite Hpage by lia. split.
    + intros E. apply (f_equal length) in E.
      rewrite length_take, length_drop in E. simpl in E. nia.
    + rewrite length_take. lia.
  - intros p Hp. rewrite Hpage by lia.
    rewrite drop_ge; [apply take_nil | nia].
  - split.
    + intros E. rewrite E in Hhi. destruct logs; [done | simpl in Hhi; lia].
    + intros ->. simpl in Hlo, Hhi. nia.
Qed.

Lemma pages_partition_the_logs_witness :
  dashboard.totalPages 7 3 = 3 /\
  map (fun p => dashboard.currentPageData [1; 2; 3; 4; 5; 6; 7] p 3) (seqZ 1 3)
  = [[1; 2; 3]; [4; 5; 6]; [7]] /\
  concat (map (fun p => dashboard.currentPageData [1; 2; 3; 4; 5; 6; 7] p 3)
            (seqZ 1 (dashboard.totalPages 7 3))) = [1; 2; 3; 4; 5; 6; 7].
Proof.
  split; [reflexivity|]. split; [vm_compute; reflexivity|].
  apply (pages_partition_the_logs [1; 2; 3; 4; 5; 6; 7] 3). lia.
Defined.

(** ** The forms of the user-management modal *)

Lemma truthy_true (s : string) : s <> "" -> truthy s = true.
Proof. intros H. unfold truthy. by rewrite bool_decide_eq_false_2. Qed.

Lemma truthy_spec (s : string) : truthy s = true <-> s <> "".
Proof.
  unfold truthy. destruct (decide (s = "")) as [->|N].
  - split; [done | intros H; by destruct H].
  - by rewrite bool_decide_eq_false_2.
Qed.

(** X14. In the RFID form with an identifier type other than "nic" (the
    type every form starts with), the identifier is written over the new
    tag: the request carries the identifier as its rfidTag, no nic, and
    the new tag nowhere. *)
Theorem handleRfidUpdate_drops_new_tag (f : user_management.rfidForm) :
  user_management.rfid_identifierType f <> "nic" ->
  user_management.rfid_identifier f <> "" ->
  user_management.rfid_newRfidTag f <> "" ->
  user_management.handleRfidUpdate f
  = user_management.updateUser
      (user_management.mk_request None
         (Some (user_management.rfid_identifier f)) None None).
Proof.
  intros Ht Hi Hn. unfold user_management.handleRfidUpdate.
  rewrite !truthy_true by done. simpl.
  by rewrite bool_decide_eq_false_2.
Qed.

Lemma handleRfidUpdate_drops_new_tag_witness :
  user_management.handleRfidUpdate
    (user_management.mk_rfidForm "E2801160" "rfidTag" "E2809999")
  = user_management.updateUser
      (user_management.mk_request None (Some "E2801160") None None).
Proof.
  apply (handleRfidUpdate_drops_new_tag
           (user_management.mk_rfidForm "E2801160" "rfidTag" "E2809999"));
    vm_compute; discriminate.
Defined.

(** X15. With an empty identifier or an empty value, the status form and
    the active form set the error "Please fill in all fields" and send
    nothing.  Otherwise each sends one request: the status form sends the
    chosen status and no active flag, the active form sends the active
    flag, true exactly for the text "true", and no status; both name the
    user by the identifier under exactly one of the keys nic and rfidTag:
    nic when the identifier type is "nic", rfidTag for any other type. *)
Theorem status_and_active_requests (id ty v : string) :
  let nic := if decide (ty = "nic") then Some id else None in
  let rfidTag := if decide (ty = "nic") then None else Some id in
  (id = "" \/ v = "" ->
   user_management.handleStatusUpdate (user_management.mk_statusForm id ty v)
   = user_management.setError "Please fill in all fields" /\
   user_management.handleActiveUpdate (user_management.mk_activeForm id ty v)
   = user_management.setError "Please fill in all fields") /\
  (id <> "" -> v <> "" ->
   user_management.handleStatusUpdate (user_management.mk_statusForm id ty v)
   = user_management.updateUser
       (user_management.mk_request nic rfidTag (Some v) None) /\
   user_management.handleActiveUpdate (user_management.mk_activeForm id ty v)
   = user_management.updateUser
       (user_management.mk_request nic rfidTag None
          (Some (bool_decide (v = "true"))))).
Proof.
  unfold user_management.handleStatusUpdate, user_management.handleActiveUpdate.
  simpl. unfold truthy. split.
  - intros [-> | ->]; [done|].
    destruct (bool_decide (id = "")); done.
  - intros Hid Hv.
    rewrite (bool_decide_eq_false_2 _ Hid), (bool_decide_eq_false_2 _ Hv).
    simpl. destruct (decide (ty = "nic")) as [Hty|Hty].
    + by rewrite (bool_decide_eq_true_2 _ Hty).
    + by rewrite (bool_decide_eq_false_2 _ Hty).
Qed.

Lemma status_and_active_requests_witness :
  (user_management.handleStatusUpdate
     (user_management.mk_statusForm "E2801160" "rfidTag" "OUT")
   = user_management.updateUser
       (user_management.mk_request None (Some "E2801160") (Some "OUT") None) /\
   user_management.handleActiveUpdate
     (user_management.mk_activeForm "E2801160" "rfidTag" "OUT")
   = user_management.updateUser
       (user_management.mk_request None (Some "E2801160") None (Some false))) /\
  (user_management.handleStatusUpdate
     (user_management.mk_statusForm "" "nic" "OUT")
   = user_management.setError "Please fill in all fields" /\
   user_management.handleActiveUpdate
     (user_management.mk_activeForm "" "nic" "OUT")
   = user_management.setError "Please fill in all fields").
Proof.
  split.
  - apply (status_and_active_requests "E2801160" "rfidTag" "OUT");
      discriminate.
  - apply (status_and_active_requests "" "nic" "OUT"). by left.
Defined.

(** ** The user search of the modal *)

(** X16. A user shown by searchUser comes from the data of an ok and
    successful response to the request for apiUrls.users(identifier), with
    an empty error; and when some user of that data has the identifier as
    its nic or as its rfidTag, the user shown has, too. *)
Theorem searchUser_found_user (trim : string -> string)
    (apiUrls_users : option string -> string)
    (fetch : string -> user_management.fetched)
    (token : option string) (identifier : string) (u : user_management.user) :
  let exact v := user_management.user_nic v = Some identifier \/
                 user_management.user_rfidTag v = Some identifier in
  let r := user_management.searchUser trim apiUrls_users fetch token
             identifier in
  user_management.found (snd r) = Some u ->
  exists data,
    fst r = Some (apiUrls_users (Some identifier)) /\
    fetch (apiUrls_users (Some identifier))
    = user_management.responds true true data /\
    u ∈ data /\
    user_management.error (snd r) = "" /\
    (forall v, v ∈ data -> exact v -> exact u).
Proof.
  intros exact r. subst r. unfold user_management.searchUser.
  destruct (negb (truthy (trim identifier))); [done|].
  destruct token as [t|]; [|done].
  destruct (negb (truthy t)); [done|].
  destruct (fetch (apiUrls_users (Some identifier))) as [|ok success data] eqn:F;
    [done|].
  destruct ok, success; simpl; try done.
  destruct data as [|u0 data]; [done|]. simpl length.
  replace (0 <? Z.of_nat (S (length data))) with true
    by (symmetry; apply Z.ltb_lt; lia).
  cbv zeta.
  destruct (user_management.exactMatch identifier (u0 :: data)) as [m|] eqn:E;
    simpl; intros [= <-]; exists (u0 :: data).
  - unfold user_management.exactMatch in E. apply find_some in E as [Hin Hm].
    repeat split; try done.
    + by apply list_elem_of_In.
    + intros _ _ _. apply orb_true_iff in Hm as [Hm|Hm];
        apply bool_decide_eq_true in Hm; [by left | by right].
  - repeat split; try done; [by left|].
    intros v Hv Hexact. unfold user_management.exactMatch in E.
    apply list_elem_of_In in Hv.
    pose proof (find_none _ _ E v Hv) as Hn. simpl in Hn.
    apply orb_false_iff in Hn as [Hn1 Hn2].
    apply bool_decide_eq_false in Hn1, Hn2. by destruct Hexact.
Qed.

Lemma searchUser_found_user_witness :
  let fetch := fun _ : string =>
    user_management.responds true true
      [user_management.mk_user (Some "901234567V") (Some "E2801160");
       user_management.mk_user (Some "911234567V") (Some "E28011")] in
  let r := user_management.searchUser (fun s => s)
             (api.users (fun s => s) "http://host/api") fetch (Some "token")
             "E28011" in
  r = (Some "http://host/api/users/search?query=E28011",
       user_management.mk_search_result
         (Some (user_management.mk_user (Some "911234567V") (Some "E28011")))
         false "") /\
  exists data,
    fst r = Some (api.users (fun s => s) "http://host/api" (Some "E28011")) /\
    fetch (api.users (fun s => s) "http://host/api" (Some "E28011"))
    = user_management.responds true true data /\
    user_management.mk_user (Some "911234567V") (Some "E28011") ∈ data.
Proof.
  intros fetch r. split; [reflexivity|].
  destruct (searchUser_found_user (fun s => s)
              (api.users (fun s => s) "http://host/api") fetch (Some "token")
              "E28011"
              (user_management.mk_user (Some "911234567V") (Some "E28011"))
              eq_refl) as (data & H1 & H2 & H3 & _).
  exists data. by repeat split.
Defined.

(** X17. searchUser sends no request exactly when the identifier trims to
    the empty string or the stored token is missing or empty.  In the
    first case the entry is cleared without an error; with a non-blank
    identifier and no token the entry reports "Search failed". *)
Theorem searchUser_sends_no_request (trim : string -> string)
    (apiUrls_users : option string -> string)
    (fetch : string -> user_management.fetched)
    (token : option string) (identifier : string) :
  let r := user_management.searchUser trim apiUrls_users fetch token
             identifier in
  (fst r = None <->
   trim identifier = "" \/ token = None \/ token = Some "") /\
  (trim identifier = "" ->
   snd r = user_management.mk_search_result None false "") /\
  (trim identifier <> "" -> token = None \/ token = Some "" ->
   snd r = user_management.mk_search_result None false "Search failed").
Proof.
  intros r. subst r. unfold user_management.searchUser, truthy.
  destruct (decide (trim identifier = "")) as [Ht|Ht].
  { rewrite (bool_decide_eq_true_2 _ Ht). simpl. naive_solver. }
  rewrite (bool_decide_eq_false_2 _ Ht). simpl.
  destruct token as [t|]; [|simpl; naive_solver].
  destruct (decide (t = "")) as [->|Hn]; [simpl; naive_solver|].
  rewrite (bool_decide_eq_false_2 _ Hn). simpl.
  assert (Hno : ~ (trim identifier = "" \/ Some t = None \/ Some t = Some "")).
  { intros [?|[?|[= ?]]]; done. }
  destruct (fetch (apiUrls_users (Some identifier))) as [|ok success data];
    [|destruct (ok && success && (0 <? Z.of_nat (length data)))]; simpl;
    (split; [split; [done | intros ?; by destruct Hno]
            | split; [done | intros _ [?|[= ?]]; done]]).
Qed.

Lemma searchUser_sends_no_request_witness :
  user_management.searchUser (fun s => s)
    (api.users (fun s => s) "http://host/api")
    (fun _ => user_management.throws) None "E28011"
  = (None, user_management.mk_search_result None false "Search failed").
Proof.
  pose proof (searchUser_sends_no_request (fun s => s)
                (api.users (fun s => s) "http://host/api")
                (fun _ => user_management.throws) None "E28011")
    as (H1 & _ & H3).
  apply injective_projections.
  - apply H1. right. by left.
  - apply H3; [discriminate | by left].
Defined.

(** X18. With apiUrls.users of the API module and a trim that leaves the
    empty string empty, every request of searchUser goes to the search
    endpoint with the query parameter: the URL without a query, which
    apiUrls.users returns for an empty search, is never requested. *)
Theorem searchUser_requests_query_url (trim encodeURIComponent : string -> string)
    (BASE_URL : string) (fetch : string -> user_management.fetched)
    (token : option string) (identifier url : string) :
  trim "" = "" ->
  fst (user_management.searchUser trim
         (api.users encodeURIComponent BASE_URL) fetch token identifier)
  = Some url ->
  url = api.getApiUrl BASE_URL "/users/search" +:+ "?query="
        +:+ encodeURIComponent identifier.
Proof.
  intros Htrim. unfold user_management.searchUser.
  destruct (decide (identifier = "")) as [->|Hid].
  { rewrite Htrim. by vm_compute. }
  destruct (negb (truthy (trim identifier))); [done|].
  destruct token as [t|]; [|done].
  destruct (negb (truthy t)); [done|].
  assert (Hu : api.users encodeURIComponent BASE_URL (Some identifier)
               = api.getApiUrl BASE_URL "/users/search" +:+ "?query="
                 +:+ encodeURIComponent identifier).
  { unfold api.users. by rewrite truthy_true. }
  cbv zeta. rewrite Hu.
  destruct (fetch _) as [|ok success data]; [by intros [= <-]|].
  destruct (ok && success && (0 <? Z.of_nat (length data)));
    by intros [= <-].
Qed.

Lemma searchUser_requests_query_url_witness :
  fst (user_management.searchUser (fun s => s)
         (api.users (fun s => s) "http://host/api")
         (fun _ => user_management.throws) (Some "token") "E28011")
  = Some "http://host/api/users/search?query=E28011" /\
  "http://host/api/users/search?query=E28011"
  = api.getApiUrl "http://host/api" "/users/search" +:+ "?query=" +:+ "E28011".
Proof.
  split; [reflexivity|].
  apply (searchUser_requests_query_url (fun s => s) (fun s => s)
           "http://host/api" (fun _ => user_management.throws) (Some "token")
           "E28011"); reflexivity.
Defined.

(** ** The filters of the log table *)

Lemma filter_logs_ext (f g : dashboard.Log -> option bool) logs :
  (forall log, f log = g log) ->
  dashboard.filter_logs f logs = dashboard.filter_logs g logs.
Proof.
  intros H. induction logs as [|log logs IH]; [done|].
  simpl. by rewrite H, IH.
Qed.

Lemma filter_logs_all logs :
  dashboard.filter_logs (fun _ => Some true) logs = Some logs.
Proof. induction logs as [|log logs IH]; [done|]. simpl. by rewrite IH. Qed.

Lemma filter_logs_None (keep : dashboard.Log -> option bool) logs :
  dashboard.filter_logs keep logs = None <->
  exists log, log ∈ logs /\ keep log = None.
Proof.
  induction logs as [|log logs IH]; simpl.
  - split; [done | intros (log & H & _); by apply elem_of_nil in H].
  - destruct (keep log) as [b|] eqn:K.
    + destruct (dashboard.filter_logs keep logs) as [rest|].
      * split; [done|]. intros (log' & [->|Hin]%elem_of_cons & K').
        -- congruence.
        -- assert (Some rest = None) as E by (apply IH; by exists log').
           done.
      * split; [|done]. intros _.
        destruct (proj1 IH eq_refl) as (log' & Hin & K').
        exists log'. split; [by right | done].
    + split; [|done]. intros _. exists log. split; [by left | done].
Qed.

Lemma filter_logs_Some (keep : dashboard.Log -> option bool) logs l :
  dashboard.filter_logs keep logs = Some l ->
  l = filter (fun log => keep log = Some true) logs.
Proof.
  revert l. induction logs as [|log logs IH]; simpl; intros l.
  - by intros [= <-].
  - destruct (keep log) as [b|] eqn:K; [|done].
    destruct (dashboard.filter_logs keep logs) as [rest|]; [|done].
    intros [= <-]. specialize (IH rest eq_refl).
    destruct b.
    + rewrite filter_cons_True by done. by f_equal.
    + rewrite filter_cons_False by congruence. done.
Qed.

(** X19. The data that the export takes is in both of its branches the
    filtered list of the table: without any filter, filteredLogs is the
    whole list of logs (and reads no log's user). *)
Theorem dataToExport_is_filteredLogs (toLowerCase : string -> string)
    (includes : string -> string -> bool)
    (searchTerm eventFilter resultFilter : string) (logs : list dashboard.Log) :
  dashboard.dataToExport toLowerCase includes searchTerm eventFilter
    resultFilter logs
  = dashboard.filteredLogs toLowerCase includes searchTerm eventFilter
      resultFilter (Some logs).
Proof.
  unfold dashboard.dataToExport, dashboard.hasFilters.
  destruct (decide (searchTerm = "")) as [->|Hs];
    [|by rewrite (bool_decide_eq_false_2 _ Hs)].
  destruct (decide (eventFilter = "")) as [->|He];
    [|by rewrite (bool_decide_eq_false_2 _ He)].
  destruct (decide (resultFilter = "")) as [->|Hr];
    [|by rewrite (bool_decide_eq_false_2 _ Hr), orb_true_r].
  simpl. unfold dashboard.filteredLogs.
  by rewrite (filter_logs_ext _ (fun _ => Some true)), filter_logs_all.
Qed.

Lemma some_includes_None (toLowerCase : string -> string)
    (includes : string -> string -> bool) searchTerm fields :
  dashboard.some_includes toLowerCase includes searchTerm fields = None <->
  exists pre rest,
    fields = pre ++ None :: rest /\
    Forall (fun f => exists s,
              f = Some s /\
              includes (toLowerCase s) (toLowerCase searchTerm) = false) pre.
Proof.
  induction fields as [|[s|] fields IH]; simpl.
  - split; [done|]. intros (pre & rest & E & _). by destruct pre.
  - destruct (includes (toLowerCase s) (toLowerCase searchTerm)) eqn:I.
    + split; [done|]. intros (pre & rest & E & Hpre).
      destruct pre as [|f pre]; [done|]. injection E as <- _.
      apply Forall_cons in Hpre as [(s' & [= <-] & I') _]. congruence.
    + rewrite IH. split.
      * intros (pre & rest & -> & Hpre). exists (Some s :: pre), rest.
        split; [done|]. constructor; [by exists s | done].
      * intros (pre & rest & E & Hpre).
        destruct pre as [|f pre]; [done|]. injection E as <- ->.
        apply Forall_cons in Hpre as [_ Hpre]. by exists pre, rest.
  - split; [|done]. intros _. by exists [], fields.
Qed.

(** X20. Filtering throws exactly when a search term is set and, for some
    loaded log, the search reaches a missing value: the log has no user,
    or, reading the user's name, nic and rfidTag and the log's
    gateLocation in this order, a null comes before any field that
    includes the term.  The event filter and the result filter play no
    part in it. *)
Theorem filteredLogs_throws_iff (toLowerCase : string -> string)
    (includes : string -> string -> bool)
    (searchTerm eventFilter resultFilter : string)
    (logsData : option (list dashboard.Log)) :
  dashboard.filteredLogs toLowerCase includes searchTerm eventFilter
    resultFilter logsData = None <->
  searchTerm <> "" /\
  exists logs log,
    logsData = Some logs /\ log ∈ logs /\
    (dashboard.user log = None \/
     exists u pre rest,
       dashboard.user log = Some u /\
       [dashboard.name u; dashboard.nic u; dashboard.rfidTag u;
        dashboard.gateLocation log] = pre ++ None :: rest /\
       Forall (fun f => exists s,
                 f = Some s /\
                 includes (toLowerCase s) (toLowerCase searchTerm) = false)
         pre).
Proof.
  unfold dashboard.filteredLogs. destruct logsData as [logs|].
  - rewrite filter_logs_None. unfold dashboard.matchesSearch. split.
    + intros (log & Hin & K).
      destruct (decide (searchTerm = "")) as [->|Hs]; [done|].
      rewrite (bool_decide_eq_false_2 _ Hs) in K.
      split; [done|]. exists logs, log. do 2 (split; [done|]).
      destruct (dashboard.user log) as [u|] eqn:U; [|by left].
      right. destruct (dashboard.some_includes _ _ _ _) eqn:S; [done|].
      apply some_includes_None in S as (pre & rest & E & Hpre).
      by exists u, pre, rest.
    + intros (Hs & logs' & log & [= <-] & Hin & U).
      exists log. split; [done|].
      rewrite (bool_decide_eq_false_2 _ Hs).
      destruct U as [-> | (u & pre & rest & -> & E & Hpre)]; [done|].
      assert (S : dashboard.some_includes toLowerCase includes searchTerm
                    [dashboard.name u; dashboard.nic u; dashboard.rfidTag u;
                     dashboard.gateLocation log] = None).
      { apply some_includes_None. by exists pre, rest. }
      by rewrite S.
  - split; [done|]. by intros (_ & logs & log & H & _).
Qed.

Lemma filteredLogs_throws_iff_witness :
  dashboard.filteredLogs (fun s => s) String.eqb "kasun" "" "EXIT"
    (Some [dashboard.mk_Log 1 7 "ENTRY" (Some "Gate A") "rpi1"
             "2025-01-01T08:00:00Z" "SUCCESS" ""
             (Some (dashboard.mk_User 7 (Some "nimali") None (Some "kasun")
                      "IN" true))]) = None.
Proof.
  apply (filteredLogs_throws_iff (fun s => s) String.eqb "kasun" "" "EXIT").
  split; [discriminate|]. eexists _, _. split; [reflexivity|].
  split; [by left|]. right.
  eexists _, [Some "nimali"], _. split; [reflexivity|].
  split; [reflexivity|]. constructor; [|done]. by exists "nimali".
Defined.

(** X21. When filtering returns, the logs it returns are the loaded logs
    in their order, without those that fail the search, the event filter
    or the result filter: an empty filter passes every log, an event or
    result filter passes the logs with exactly that value. *)
Theorem filteredLogs_keeps (toLowerCase : string -> string)
    (includes : string -> string -> bool)
    (searchTerm eventFilter resultFilter : string)
    (logs l : list dashboard.Log) :
  dashboard.filteredLogs toLowerCase includes searchTerm eventFilter
    resultFilter (Some logs) = Some l ->
  sublist l logs /\
  forall log,
    log ∈ l <->
    log ∈ logs /\
    dashboard.matchesSearch toLowerCase includes searchTerm log = Some true /\
    (eventFilter = "" \/ dashboard.eventType log = eventFilter) /\
    (resultFilter = "" \/ dashboard.result log = resultFilter).
Proof.
  unfold dashboard.filteredLogs. intros H%filter_logs_Some. subst l.
  split; [apply sublist_filter|].
  intros log. rewrite list_elem_of_filter.
  unfold dashboard.matchesEvent, dashboard.matchesResult.
  destruct (dashboard.matchesSearch toLowerCase includes searchTerm log)
    as [[]|]; simpl.
  - repeat case_bool_decide; simpl; intuition congruence.
  - intuition congruence.
  - intuition congruence.
Qed.

Lemma filteredLogs_keeps_witness :
  let entry := dashboard.mk_Log 1 7 "ENTRY" (Some "Gate A") "rpi1"
                 "2025-01-01T08:00:00Z" "SUCCESS" "" None in
  let exit := dashboard.mk_Log 2 7 "EXIT" (Some "Gate A") "rpi1"
                "2025-01-01T09:00:00Z" "SUCCESS" "" None in
  dashboard.filteredLogs (fun s => s) String.eqb "" "EXIT" ""
    (Some [entry; exit; entry]) = Some [exit] /\
  sublist [exit] [entry; exit; entry].
Proof.
  intros entry exit. split; [reflexivity|].
  apply (filteredLogs_keeps (fun s => s) String.eqb "" "EXIT" ""
           [entry; exit; entry] [exit]). reflexivity.
Defined.

(** ** The view of the sync state *)

Lemma order_by_node_table_total (collation_le : string -> string -> bool) :
  (forall a b, collation_le a b = true \/ collation_le b a = true) ->
  Total (order_by_node_table collation_le).
Proof.
  intros Htot a b. unfold order_by_node_table.
  destruct (Z.lt_trichotomy (sync_metadata.node_id a) (sync_metadata.node_id b))
    as [Hlt|[Heq|Hgt]].
  - left. by left.
  - destruct (Htot (sync_metadata.table_name a) (sync_metadata.table_name b)).
    + left. by right.
    + right. right. by split.
  - right. by left.
Qed.

Lemma sync_status_view_elem (collation_le : string -> string -> bool)
    NOW d (r : sync_status_view.row) :
  r ∈ sync_status_view collation_le NOW d <->
  exists sm, r = sync_status_view_row NOW sm /\ sm ∈ db.sync_metadata d.
Proof.
  unfold sync_status_view.
  etrans; [apply (list_elem_of_fmap (sync_status_view_row NOW))|].
  by setoid_rewrite (merge_sort_Permutation (order_by_node_table collation_le)
                       (db.sync_metadata d)).
Qed.

(** X22. Under a collation that compares any two names, the view lists
    one row for every row of sync_metadata, no more and no less, and each
    row is followed by a row of a greater node, or of the same node and a
    table name that is not smaller. *)
Theorem sync_status_view_sorted (collation_le : string -> string -> bool)
    (NOW : timestamp) (d : db.t) :
  (forall a b, collation_le a b = true \/ collation_le b a = true) ->
  sync_status_view collation_le NOW d
  ≡ₚ map (sync_status_view_row NOW) (db.sync_metadata d) /\
  Sorted (fun a b =>
            sync_status_view.node_id a < sync_status_view.node_id b \/
            (sync_status_view.node_id a = sync_status_view.node_id b /\
             collation_le (sync_status_view.table_name a)
               (sync_status_view.table_name b) = true))
    (sync_status_view collation_le NOW d).
Proof.
  intros Htot. unfold sync_status_view. split.
  - apply (fmap_Permutation (sync_status_view_row NOW)),
      merge_sort_Permutation.
  - apply (Sorted_fmap _ (order_by_node_table collation_le)); [done|].
    apply Sorted_merge_sort. by apply order_by_node_table_total.
Qed.

Lemma sync_status_view_sorted_witness :
  map (fun r => (sync_status_view.node_id r, sync_status_view.table_name r))
    (sync_status_view String.leb 400 sample.rpi1_two_peers)
  = [(1, "logs"); (1, "users"); (2, "users")] /\
  sync_status_view String.leb 400 sample.rpi1_two_peers
  ≡ₚ map (sync_status_view_row 400) (db.sync_metadata sample.rpi1_two_peers).
Proof.
  split; [reflexivity|].
  apply (sync_status_view_sorted String.leb 400 sample.rpi1_two_peers).
  apply String.leb_total.
Defined.

(** The view after the UPDATE of [sync_table] has stamped a table at
    [NOW]. *)
Lemma view_after_update_sync_timestamp
    (collation_le : string -> string -> bool) (table : string)
    (NOW NOW' : timestamp) (d : db.t) (r : sync_status_view.row) :
  NOW <= NOW' < NOW + 60 ->
  r ∈ sync_status_view collation_le NOW' (update_sync_timestamp table NOW d) ->
  (sync_status_view.table_name r = table ->
   sync_status_view.last_sync_timestamp r = NOW /\
   sync_status_view.minutes_since_sync r = 0) /\
  (sync_status_view.table_name r <> table ->
   r ∈ sync_status_view collation_le NOW' d).
Proof.
  intros HN (sm & -> & Hin)%sync_status_view_elem.
  unfold update_sync_timestamp in Hin. simpl in Hin.
  apply (list_elem_of_fmap (A:=sync_metadata.row)) in Hin
    as (sm0 & -> & Hin0).
  destruct (decide (sync_metadata.table_name sm0 = table)) as [E|E].
  - rewrite (bool_decide_eq_true_2 _ E). simpl. split; [|done].
    intros _. split; [done|]. unfold TIMESTAMPDIFF_MINUTE.
    apply Z.quot_small. lia.
  - rewrite (bool_decide_eq_false_2 _ E). simpl. split; [done|].
    intros _. apply sync_status_view_elem. by exists sm0.
Qed.

(** X23. After a cycle of [sync_table] that went through at [NOW], the
    view shows at most one row of the table of the cycle, with the sync
    time [NOW] and, for the next 59 seconds, 0 minutes since the sync;
    every row of another table is shown as it was before the cycle. *)
Theorem view_after_sync_table (collation_le : string -> string -> bool)
    (send : Z -> string -> list users.row -> option string)
    (self : DatabaseSync.t) (table : synced_table) (NOW NOW' : timestamp)
    (r : sync_status_view.row) :
  DatabaseSync.raised (DatabaseSync.sync_table send self table NOW) = None ->
  NOW <= NOW' < NOW + 60 ->
  let d' := DatabaseSync.committed
              (DatabaseSync.sync_table send self table NOW) in
  r ∈ sync_status_view collation_le NOW' d' ->
  (sync_status_view.table_name r = table_name_of table ->
   sync_status_view.last_sync_timestamp r = NOW /\
   sync_status_view.minutes_since_sync r = 0 /\
   (forall r', r' ∈ sync_status_view collation_le NOW' d' ->
               sync_status_view.table_name r' = table_name_of table ->
               r' = r)) /\
  (sync_status_view.table_name r <> table_name_of table ->
   r ∈ sync_status_view collation_le NOW' (DatabaseSync.local_db self)).
Proof.
  intros Hraised HN d'. subst d'. revert Hraised.
  unfold DatabaseSync.sync_table.
  destruct (select_needs_syncing table (DatabaseSync.local_db self))
    as [local_data|] eqn:S; [|done].
  destruct (DatabaseSync.send_to_nodes _ _ _ _) as [ds [exn|]]; [done|].
  simpl. intros _ Hin.
  destruct (view_after_update_sync_timestamp collation_le
              (table_name_of table) NOW NOW' (DatabaseSync.local_db self) r
              HN Hin) as [Hsame Hother].
  split; [|exact Hother]. intros Ht.
  destruct (Hsame Ht) as [H1 H2]. split; [exact H1|]. split; [exact H2|].
  intros r' Hin' Ht'.
  destruct table; [|done]. simpl in S. sql_unfold.
  destruct (last_sync_position "users" (DatabaseSync.local_db self))
    as [pos|] eqn:P; [|done].
  assert (Huniq : forall a b,
             a ∈ db.sync_metadata (DatabaseSync.local_db self) ->
             b ∈ db.sync_metadata (DatabaseSync.local_db self) ->
             sync_metadata.table_name a = "users" ->
             sync_metadata.table_name b = "users" -> a = b).
  { intros a b Ha Hb Hta Htb. unfold last_sync_position in P.
    assert (Hfa : In a (List.filter
                          (fun r => bool_decide
                                      (sync_metadata.table_name r = "users"))
                          (db.sync_metadata (DatabaseSync.local_db self)))).
    { apply filter_In. split; [by apply list_elem_of_In|].
      by apply bool_decide_eq_true_2. }
    assert (Hfb : In b (List.filter
                          (fun r => bool_decide
                                      (sync_metadata.table_name r = "users"))
                          (db.sync_metadata (DatabaseSync.local_db self)))).
    { apply filter_In. split; [by apply list_elem_of_In|].
      by apply bool_decide_eq_true_2. }
    destruct (List.filter _ _) as [|x [|y l]]; [done| |done].
    destruct Hfa as [<-|[]], Hfb as [<-|[]]. done. }
  apply sync_status_view_elem in Hin as (sm & -> & Hsm).
  apply sync_status_view_elem in Hin' as (sm' & -> & Hsm').
  unfold update_sync_timestamp in Hsm, Hsm'. simpl in Hsm, Hsm'.
  apply (list_elem_of_fmap (A:=sync_metadata.row)) in Hsm
    as (a & -> & Ha).
  apply (list_elem_of_fmap (A:=sync_metadata.row)) in Hsm'
    as (b & -> & Hb).
  simpl in Ht, Ht'.
  assert (Hta : sync_metadata.table_name a = "users").
  { destruct (decide (sync_metadata.table_name a = "users")) as [E|E];
      [done|]. by rewrite (bool_decide_eq_false_2 _ E) in Ht. }
  assert (Htb : sync_metadata.table_name b = "users").
  { destruct (decide (sync_metadata.table_name b = "users")) as [E|E];
      [done|]. by rewrite (bool_decide_eq_false_2 _ E) in Ht'. }
  by rewrite (Huniq a b Ha Hb Hta Htb).
Qed.

Lemma view_after_sync_table_witness :
  let self := DatabaseSync.mk sample.rpi1 [2] in
  let o := DatabaseSync.sync_table sample.send_delivers self tbl_users 400 in
  let r := sync_status_view.mk 1 "users" 400 SUCCESS None 0 in
  DatabaseSync.raised o = None /\
  400 <= 430 < 400 + 60 /\
  r ∈ sync_status_view String.leb 430 (DatabaseSync.committed o) /\
  (sync_status_view.table_name r = "users" ->
   sync_status_view.last_sync_timestamp r = 400 /\
   sync_status_view.minutes_since_sync r = 0).
Proof.
  intros self o r.
  assert (Hr : DatabaseSync.raised o = None) by reflexivity.
  assert (Hin : r ∈ sync_status_view String.leb 430
                      (DatabaseSync.committed o)).
  { vm_compute. right. left. }
  split; [exact Hr|]. split; [lia|]. split; [exact Hin|].
  intros Ht.
  destruct (view_after_sync_table String.leb sample.send_delivers self
              tbl_users 400 430 r Hr ltac:(lia) Hin) as [H _].
  destruct (H Ht) as (H1 & H2 & _). by split.
Defined.
